(** * Activity push: websocket registry, handshake, subscriptions and fan-out

    A shallow embedding of the activity push module (its "PUSH LOGIC",
    "SEND/RECEIVE TO RABBITMQ" and "EVENT LISTENERS" parts) and of the
    validator wrapper it uses.

    The node process is single threaded: every socket event, timer and
    callback of an asynchronous collaborator runs to completion before the
    next one starts. The embedding therefore has one function per handler or
    callback of the source, each a function on the state of the node, and a
    [step] function that picks the handler for one event of the outside world.
    A call to an asynchronous collaborator is recorded with its continuation
    in [pendingCalls]; the collaborator answers in a later event. The
    transformer of activities may also call back before it returns:
    [_handlePushActivity] takes the way it answers as an argument, and the
    callback then runs inside the loop. A check of the validator that throws
    makes the handler throw, which leaves the handler without a result.

    The [connectionInfo] objects of the source are shared by reference between
    the closure of their socket and the arrays of
    [connectionInfosPerStream]. They live in a store keyed by socket id, and
    the per-stream arrays hold the keys.

    The further definitions embed [init], the accessors and the context
    checks of the validator wrapper, and the listeners of the invitations
    of discussions, each as a function of the answers of the collaborators
    it calls. *)

From Stdlib Require Import ZArith List String Bool Lia.
From stdpp Require Import base option list gmap strings fin_maps.

Local Open Scope Z_scope.
Local Open Scope string_scope.
Local Open Scope list_scope.
Local Set Warnings "-register-all".

(** ** JavaScript values, as [JSON.parse] produces them

    Numbers are the integers; an object is the list of its own properties,
    one entry per key. *)

Inductive jsval : Type :=
| JUndefined
| JNull
| JBool (b : bool)
| JNum (n : Z)
| JStr (s : string)
| JArr (items : list jsval)
| JObj (fields : list (string * jsval)).

(** [!v] is [negb (truthy v)]. *)
Definition truthy (v : jsval) : bool :=
  match v with
  | JUndefined | JNull => false
  | JBool b => b
  | JNum n => negb (Z.eqb n 0)
  | JStr s => negb (String.eqb s "")
  | JArr _ | JObj _ => true
  end.

Fixpoint assoc (k : string) (fields : list (string * jsval)) : jsval :=
  match fields with
  | [] => JUndefined
  | (k', v) :: rest => if String.eqb k k' then v else assoc k rest
  end.

(** [v.k] for the property names the source reads; none of them is a property
    of a primitive or of an array. Reading a property of [null] throws, which
    the one handler that can meet it models itself. *)
Definition prop (v : jsval) (k : string) : jsval :=
  match v with
  | JObj fields => assoc k fields
  | _ => JUndefined
  end.

(** [v === s] for a string literal [s]. *)
Definition strictEqStr (v : jsval) (s : string) : bool :=
  match v with
  | JStr s' => String.eqb s' s
  | _ => false
  end.

(** [_.isObject]: objects and arrays (JSON has no functions). *)
Definition isObject (v : jsval) : bool :=
  match v with
  | JArr _ | JObj _ => true
  | _ => false
  end.

(** ** Data of the push logic *)

Record error : Type := Error { code : Z; msg : string }.

Definition Tenant : Type := string.
Definition User : Type := string.
Definition Activity : Type := jsval.

Record Context : Type := mkContext { tenant : Tenant; user : User }.

(** What [_push] publishes and [_handlePushActivity] receives. *)
Record routedActivity : Type := RoutedActivity {
  ra_activities : list Activity;
  ra_resourceId : string;
  ra_streamType : string;
  ra_numNewActivities : option Z
}.

(** What is written on a socket, before [JSON.stringify]. *)
Inductive frame : Type :=
| Response (replyTo : jsval) (err : option error)
| PushFrame (resourceId streamType : string) (activities : list Activity)
    (format : jsval) (numNewActivities : option Z).

(** The handle of [setTimeout]: armed with its delay until it fires or is
    cleared. *)
Inductive timer : Type :=
| TimerArmed (delay : Z)
| TimerCleared
| TimerFired.

Definition AUTHENTICATION_TIMEOUT : Z := 5000.

(** The state held about one websocket connection. [socketClosed] is the
    socket's own state ([socket.close()] was called or the client went away);
    [closeEmitted] records that its ['close'] event was delivered. *)
Record connectionInfo : Type := ConnectionInfo {
  socketId : nat;
  socketClosed : bool;
  closeEmitted : bool;
  streams : list string;
  ctx : option Context;
  authenticationTimeout : timer;
  transformerTypes : option (gmap string (list jsval))
}.

(** The options a stream type was registered with, as far as the push logic
    reads them: whether there is an [authorizationHandler], and
    [push.delivery.phase]. *)
Record StreamOptions : Type := mkStreamOptions {
  authorizationHandler : bool;
  pushDeliveryPhase : option string
}.

(** The synchronous collaborators whose code is outside this module: the
    checks of node-validator and of the authz validator, the tenants API, the
    signing utility, the activity constants, the activity registry and
    [ActivityUtil.createActivityStreamId].

    A check of the validator is a method call on the value that was given
    to [check]: it passes, it fails, or it throws (a boolean or an array has
    no [match] method). [None] is the check that throws. *)
Record Collaborators : Type := mkCollaborators {
  notEmpty : jsval -> option bool;
  isUserId : jsval -> option bool;
  isInt : jsval -> option bool;
  notNull : jsval -> option bool;
  getTenant : jsval -> Tenant;
  verifyExpiringResourceSignature : Context -> jsval -> jsval -> jsval -> bool;
  transformerTypeValues : list string;
  INTERNAL : string;
  getRegisteredActivityStreamType : jsval -> option StreamOptions;
  createActivityStreamId : jsval -> jsval -> string
}.

(** Every call the code makes on the outside world, in program order. *)
Inductive effect : Type :=
| SocketWrite (sid : nat) (f : frame)
| SocketClose (sid : nat)
| ClearTimeout (sid : nat)
| GetPrincipal (sid : nat) (userId : jsval)
| AuthzHandler (sid : nat) (c : option Context) (resourceId token : jsval)
| BindQueueToExchange (routingKey : string)
| UnbindQueueFromExchange (routingKey : string)
| Submit (routingKey : string) (data : routedActivity)
| TransformActivities (job sid : nat) (c : option Context)
    (activities : list Activity) (transformerType : jsval)
| PushCallback (job : nat).

(** The continuation of a call that has not been answered yet. A broker call
    carries the broker's answer once the broker has processed it; the
    callback runs later. *)
Inductive pending : Type :=
| PPrincipal (sid : nat) (message : jsval)
| PAuthz (sid : nat) (message : jsval)
| PBind (sid : nat) (message : jsval) (activityStreamId : string)
    (answer : option (option error))
| PUnbind (stream : string) (answer : option (option error))
| PTransform (job sid : nat) (data : routedActivity) (transformerType : jsval).

(** The state of one app server. [bindings] is the broker's side: the routing
    keys bound from the push exchange to this server's queue. [todo] holds
    the counter of each run of [_handlePushActivity]. *)
Record node : Type := Node {
  connections : gmap nat connectionInfo;
  connectionInfosPerStream : gmap string (list nat);
  pendingCalls : gmap nat pending;
  nextCall : nat;
  todo : gmap nat Z;
  nextJob : nat;
  bindings : gset string;
  effects : list effect
}.

(** The app server before any socket has opened: no connection, no array,
    nothing bound. *)
Definition idle : node :=
  Node ∅ ∅ ∅ 0 ∅ 0 ∅ [].

(** ** State updates *)

Definition setConnections (f : gmap nat connectionInfo -> gmap nat connectionInfo)
    (st : node) : node :=
  Node (f (connections st)) (connectionInfosPerStream st) (pendingCalls st)
    (nextCall st) (todo st) (nextJob st) (bindings st) (effects st).

Definition setPerStream (f : gmap string (list nat) -> gmap string (list nat))
    (st : node) : node :=
  Node (connections st) (f (connectionInfosPerStream st)) (pendingCalls st)
    (nextCall st) (todo st) (nextJob st) (bindings st) (effects st).

Definition setBindings (f : gset string -> gset string) (st : node) : node :=
  Node (connections st) (connectionInfosPerStream st) (pendingCalls st)
    (nextCall st) (todo st) (nextJob st) (f (bindings st)) (effects st).

Definition setPending (f : gmap nat pending -> gmap nat pending) (st : node) : node :=
  Node (connections st) (connectionInfosPerStream st) (f (pendingCalls st))
    (nextCall st) (todo st) (nextJob st) (bindings st) (effects st).

Definition setTodo (f : gmap nat Z -> gmap nat Z) (st : node) : node :=
  Node (connections st) (connectionInfosPerStream st) (pendingCalls st)
    (nextCall st) (f (todo st)) (nextJob st) (bindings st) (effects st).

Definition emit (e : effect) (st : node) : node :=
  Node (connections st) (connectionInfosPerStream st) (pendingCalls st)
    (nextCall st) (todo st) (nextJob st) (bindings st) (effects st ++ [e]).

(** Record the continuation of an asynchronous call under a fresh key. *)
Definition await (p : pending) (st : node) : node :=
  Node (connections st) (connectionInfosPerStream st)
    (<[nextCall st := p]> (pendingCalls st))
    (S (nextCall st)) (todo st) (nextJob st) (bindings st) (effects st).

(** Update in place the [connectionInfo] object of a socket. *)
Definition updConn (sid : nat) (f : connectionInfo -> connectionInfo) (st : node) : node :=
  setConnections (alter f sid) st.

Definition withSocketClosed (ci : connectionInfo) : connectionInfo :=
  ConnectionInfo (socketId ci) true (closeEmitted ci) (streams ci) (ctx ci)
    (authenticationTimeout ci) (transformerTypes ci).

Definition withCloseEmitted (ci : connectionInfo) : connectionInfo :=
  ConnectionInfo (socketId ci) true true (streams ci) (ctx ci)
    (authenticationTimeout ci) (transformerTypes ci).

Definition withStreams (l : list string) (ci : connectionInfo) : connectionInfo :=
  ConnectionInfo (socketId ci) (socketClosed ci) (closeEmitted ci) l (ctx ci)
    (authenticationTimeout ci) (transformerTypes ci).

Definition withCtx (c : option Context) (ci : connectionInfo) : connectionInfo :=
  ConnectionInfo (socketId ci) (socketClosed ci) (closeEmitted ci) (streams ci) c
    (authenticationTimeout ci) (transformerTypes ci).

Definition withTimeout (t : timer) (ci : connectionInfo) : connectionInfo :=
  ConnectionInfo (socketId ci) (socketClosed ci) (closeEmitted ci) (streams ci) (ctx ci)
    t (transformerTypes ci).

Definition withTransformerTypes (t : option (gmap string (list jsval)))
    (ci : connectionInfo) : connectionInfo :=
  ConnectionInfo (socketId ci) (socketClosed ci) (closeEmitted ci) (streams ci) (ctx ci)
    (authenticationTimeout ci) t.

(** ** Writing on a socket *)

(** [_writeResponse]: [msg.error] is set only for an error. *)
Definition _writeResponse (sid : nat) (id : jsval) (err : option error) (st : node) : node :=
  emit (SocketWrite sid (Response id err)) st.

(** [socket.close()] *)
Definition socketClose (sid : nat) (st : node) : node :=
  emit (SocketClose sid) (updConn sid withSocketClosed st).

(** [clearTimeout]: a handle that fired or was cleared stays as it is. *)
Definition clearTimeout (sid : nat) (st : node) : node :=
  emit (ClearTimeout sid)
    (updConn sid (fun ci => match authenticationTimeout ci with
                            | TimerArmed _ => withTimeout TimerCleared ci
                            | _ => ci
                            end) st).

(** ** registerConnection *)

Definition newConnectionInfo (sid : nat) : connectionInfo :=
  ConnectionInfo sid false false [] None (TimerArmed AUTHENTICATION_TIMEOUT) None.

Definition registerConnection (sid : nat) (st : node) : node :=
  setConnections (insert sid (newConnectionInfo sid)) st.

(** The callback of the authentication timeout. *)
Definition authenticationTimeoutCallback (sid : nat) (st : node) : node :=
  match connections st !! sid with
  | None => st
  | Some ci =>
      match ctx ci with
      | Some _ => st
      | None =>
          socketClose sid
            (_writeResponse sid (JNum 0)
               (Some (Error 400 "Authentication should happen within 5 seconds after opening the socket"))
               st)
      end
  end.

(** ** The validator *)

(** [validator.check(v, err).test()]: a failed test pushes [err]. *)
Definition check (passed : bool) (err : error) (errors : list error) : list error :=
  if passed then errors else errors ++ [err].

Definition hasErrors (errors : list error) : bool :=
  match errors with [] => false | _ => true end.

Definition getFirstError (errors : list error) : option error := head errors.

(** ** _authenticate *)

Section Handlers.

Variable E : Collaborators.

(** The result is [None] when a check of the validator throws: the tests
    run before anything is written, so the handler then has done nothing. *)
Definition _authenticate (sid : nat) (message : jsval) (st : node) : option node :=
  let data := prop message "payload" in
  if negb (truthy data) then
    Some (socketClose sid
            (_writeResponse sid (prop message "id")
               (Some (Error 400 "Missing data payload containing the userId and signature"))
               st))
  else
    match notEmpty E (prop data "tenantAlias") with
    | None => None
    | Some tenantGiven =>
        match isUserId E (prop data "userId") with
        | None => None
        | Some userGiven =>
            let validator :=
              check (isObject (prop data "signature"))
                (Error 400 "A signature object needs to be provided")
                (check userGiven (Error 400 "A userId needs to be provided")
                   (check tenantGiven (Error 400 "A tenant needs to be provided") [])) in
            if hasErrors validator then
              Some (socketClose sid
                      (_writeResponse sid (prop message "id") (getFirstError validator) st))
            else
              match isInt E (prop (prop data "signature") "expires") with
              | None => None
              | Some expiresGiven =>
                  match notNull E (prop (prop data "signature") "signature") with
                  | None => None
                  | Some signatureGiven =>
                      let validator' :=
                        check signatureGiven
                          (Error 400 "Signature must contain a string signature value")
                          (check expiresGiven
                             (Error 400 "Signature must contain an integer expires value")
                             validator) in
                      if hasErrors validator' then
                        Some (socketClose sid
                                (_writeResponse sid (prop message "id")
                                   (getFirstError validator') st))
                      else
                        Some (await (PPrincipal sid message)
                                (emit (GetPrincipal sid (prop data "userId")) st))
                  end
              end
        end
    end.

(** The callback of [PrincipalsDAO.getPrincipal]. *)
Definition getPrincipalCallback (sid : nat) (message : jsval) (res : error + User)
    (st : node) : node :=
  let data := prop message "payload" in
  match res with
  | inl err => socketClose sid (_writeResponse sid (prop message "id") (Some err) st)
  | inr u =>
      let c := mkContext (getTenant E (prop data "tenantAlias")) u in
      let st1 := updConn sid (withCtx (Some c)) st in
      if negb (verifyExpiringResourceSignature E c (prop data "userId")
                 (prop (prop data "signature") "expires")
                 (prop (prop data "signature") "signature")) then
        socketClose sid
          (_writeResponse sid (prop message "id") (Some (Error 401 "Invalid signature")) st1)
      else
        _writeResponse sid (prop message "id") None (clearTimeout sid st1)
  end.

(** ** _subscribe *)

(** [_.chain(ActivityConstants.transformerTypes).values().contains(format)] *)
Definition knownFormat (format : jsval) : bool :=
  existsb (strictEqStr format) (transformerTypeValues E).

Definition _getAuthorizationHandler (streamType : jsval) : bool :=
  match getRegisteredActivityStreamType E streamType with
  | Some streamOptions => authorizationHandler streamOptions
  | None => false
  end.

Definition _subscribe (sid : nat) (message : jsval) (st : node) : node :=
  let data := prop message "payload" in
  if negb (truthy data) || negb (truthy (prop data "stream"))
     || negb (truthy (prop (prop data "stream") "resourceId"))
     || negb (truthy (prop (prop data "stream") "streamType")) then
    _writeResponse sid (prop message "id") (Some (Error 400 "Missing stream properties")) st
  else if truthy (prop data "format") && negb (knownFormat (prop data "format")) then
    _writeResponse sid (prop message "id")
      (Some (Error 400 "The specified stream format is unknown")) st
  else if negb (_getAuthorizationHandler (prop (prop data "stream") "streamType")) then
    _writeResponse sid (prop message "id") (Some (Error 400 "Unknown stream")) st
  else
    match connections st !! sid with
    | None => st
    | Some ci =>
        await (PAuthz sid message)
          (emit (AuthzHandler sid (ctx ci) (prop (prop data "stream") "resourceId")
                   (prop data "token")) st)
    end.

(** [finish], the inner function of [_subscribe]. *)
Definition finish (sid : nat) (message : jsval) (activityStreamId : string) (st : node) : node :=
  let data := prop message "payload" in
  let transformerType :=
    if truthy (prop data "format") then prop data "format" else JStr (INTERNAL E) in
  _writeResponse sid (prop message "id") None
    (updConn sid
       (fun ci =>
          let tts := default ∅ (transformerTypes ci) in
          withTransformerTypes
            (Some (<[activityStreamId := default [] (tts !! activityStreamId) ++ [transformerType]]> tts))
            ci)
       st).

(** The callback [_subscribe] gives to [_bindQueue]. *)
Definition bindCallback (sid : nat) (message : jsval) (activityStreamId : string)
    (err : option error) (st : node) : node :=
  match err with
  | Some e => _writeResponse sid (prop message "id") (Some e) st
  | None =>
      finish sid message activityStreamId
        (setPerStream (fun m => <[activityStreamId := default [] (m !! activityStreamId) ++ [sid]]> m) st)
  end.

(** [_bindQueue]: calls back at once when the stream has been seen. *)
Definition _bindQueue (sid : nat) (message : jsval) (activityStreamId : string)
    (st : node) : node :=
  match connectionInfosPerStream st !! activityStreamId with
  | Some _ => bindCallback sid message activityStreamId None st
  | None =>
      await (PBind sid message activityStreamId None)
        (emit (BindQueueToExchange activityStreamId) st)
  end.

(** The callback of the authorization handler. *)
Definition authzCallback (sid : nat) (message : jsval) (err : option error) (st : node) : node :=
  let data := prop message "payload" in
  match err with
  | Some e => _writeResponse sid (prop message "id") (Some e) st
  | None =>
      let activityStreamId :=
        createActivityStreamId E (prop (prop data "stream") "resourceId")
          (prop (prop data "stream") "streamType") in
      match connections st !! sid with
      | None => st
      | Some ci =>
          if bool_decide (activityStreamId ∈ streams ci) then
            finish sid message activityStreamId st
          else
            _bindQueue sid message activityStreamId
              (updConn sid (withStreams (streams ci ++ [activityStreamId])) st)
      end
  end.

(** ** The handlers of a socket *)

(** The ['data'] handler. [msg] is [None] when [JSON.parse] throws. Reading
    [message.id] of [null] throws a [TypeError] nothing catches: the handler
    then has no result, as when a check of [_authenticate] throws. *)
Definition onData (sid : nat) (msg : option jsval) (st : node) : option node :=
  match msg with
  | None =>
      Some (socketClose sid
              (_writeResponse sid (JNum 0) (Some (Error 400 "Malformed message")) st))
  | Some JNull => None
  | Some message =>
      match connections st !! sid with
      | None => None
      | Some ci =>
          if negb (truthy (prop message "id")) then
            Some (socketClose sid
                    (_writeResponse sid (JNum 0)
                       (Some (Error 400 "Missing id on the message")) st))
          else if negb (bool_decide (is_Some (ctx ci)))
                  && negb (strictEqStr (prop message "name") "authentication") then
            Some (socketClose sid
                    (_writeResponse sid (prop message "id")
                       (Some (Error 401 "The first frame should be an authentication frame"))
                       st))
          else if strictEqStr (prop message "name") "authentication" then
            _authenticate sid message st
          else if strictEqStr (prop message "name") "subscribe" then
            Some (_subscribe sid message st)
          else Some st
      end
  end.

(** Remove the first entry of the array that is the closing socket. The
    entries are the keys of the store, which are the socket ids. *)
Fixpoint spliceSocket (sid : nat) (l : list nat) : list nat :=
  match l with
  | [] => []
  | x :: rest => if Nat.eqb x sid then rest else x :: spliceSocket sid rest
  end.

(** The body of the loop of the ['close'] handler, for one stream. *)
Definition closeStream (sid : nat) (st : node) (stream : string) : node :=
  match connectionInfosPerStream st !! stream with
  | None => st
  | Some l =>
      if Nat.eqb (length l) 1 then
        await (PUnbind stream None) (emit (UnbindQueueFromExchange stream) st)
      else
        setPerStream (insert stream (spliceSocket sid l)) st
  end.

(** The ['close'] handler. *)
Definition onClose (sid : nat) (st : node) : node :=
  match connections st !! sid with
  | None => st
  | Some ci => foldl (closeStream sid) st (streams ci)
  end.

(** The callback of [MQ.unbindQueueFromExchange]; it takes no argument. *)
Definition unbindCallback (stream : string) (st : node) : node :=
  setPerStream (delete stream) st.

(** ** _handlePushActivity *)

(** The callback of [ActivityTransformer.transformActivities]. On success the
    collaborator has transformed the cloned activities, which [res] holds. *)
Definition transformCallback (job sid : nat) (data : routedActivity) (transformerType : jsval)
    (res : error + list Activity) (st : node) : node :=
  match res with
  | inl _ => st
  | inr activities =>
      let st1 :=
        emit (SocketWrite sid
                (PushFrame (ra_resourceId data) (ra_streamType data) activities
                   transformerType (ra_numNewActivities data))) st in
      let st2 := setTodo (fun m => <[job := default 0 (m !! job) - 1]> m) st1 in
      if Z.eqb (default 0 (todo st2 !! job)) 0 then emit (PushCallback job) st2 else st2
  end.

(** How the transformer answers its calls, by the position of a call in the
    log of the node: [None] when it calls back in a later event, and
    [Some res] when it calls back with [res] before it returns, that is
    inside the loop of [_handlePushActivity]. *)
Definition transformerAnswers : Type := nat -> option (error + list Activity).

(** The transformer that answers every call in a later event. *)
Definition later : transformerAnswers := fun _ => None.

(** The body of the inner loop: one transformation is started. Its callback
    runs at once when the transformer calls back before it returns, and is
    recorded as the continuation of the call otherwise. *)
Definition startTransform (immediate : transformerAnswers) (job sid : nat)
    (c : option Context) (data : routedActivity) (st : node) (transformerType : jsval) : node :=
  let st1 :=
    emit (TransformActivities job sid c (ra_activities data) transformerType)
      (setTodo (fun m => <[job := default 0 (m !! job) + 1]> m) st) in
  match immediate (length (effects st)) with
  | None => await (PTransform job sid data transformerType) st1
  | Some res => transformCallback job sid data transformerType res st1
  end.

(** The body of the outer loop. [connectionInfo.transformerTypes[id]] throws
    when [transformerTypes] is undefined. *)
Definition pushToConnection (immediate : transformerAnswers) (job : nat)
    (data : routedActivity) (activityStreamId : string)
    (acc : option node) (sid : nat) : option node :=
  match acc with
  | None => None
  | Some st =>
      match connections st !! sid with
      | None => None
      | Some ci =>
          match transformerTypes ci with
          | None => None
          | Some tts =>
              Some (foldl (startTransform immediate job sid (ctx ci) data) st
                      (default [] (tts !! activityStreamId)))
          end
      end
  end.

Definition _handlePushActivity (immediate : transformerAnswers) (data : routedActivity)
    (st : node) : option node :=
  let activityStreamId :=
    createActivityStreamId E (JStr (ra_resourceId data)) (JStr (ra_streamType data)) in
  let job := nextJob st in
  let st0 :=
    Node (connections st) (connectionInfosPerStream st) (pendingCalls st) (nextCall st)
      (<[job := 0]> (todo st)) (S job) (bindings st) (effects st) in
  foldl (pushToConnection immediate job data activityStreamId) (Some st0)
    (default [] (connectionInfosPerStream st !! activityStreamId)).

(** ** The event listeners *)

Definition _push (activityStreamId : string) (routed : routedActivity) (st : node) : node :=
  emit (Submit activityStreamId routed) st.

(** [selectn('push.delivery.phase', streamOptions)] *)
Definition deliveryPhase (streamType : string) : option string :=
  match getRegisteredActivityStreamType E (JStr streamType) with
  | Some streamOptions => pushDeliveryPhase streamOptions
  | None => None
  end.

Definition isAggregation (phase : option string) : bool :=
  match phase with
  | Some p => String.eqb p "aggregation"
  | None => false
  end.

Definition onRoutedActivities (routedActivities : list (string * list (string * Activity)))
    (st : node) : node :=
  foldl (fun st1 '(resourceId, streamTypeActivities) =>
           foldl (fun st2 '(streamType, activity) =>
                    if negb (isAggregation (deliveryPhase streamType)) then
                      _push (createActivityStreamId E (JStr resourceId) (JStr streamType))
                        (RoutedActivity [activity] resourceId streamType None) st2
                    else st2)
             st1 streamTypeActivities)
    st routedActivities.

Record activityInfo : Type := ActivityInfo {
  ai_activities : list Activity;
  ai_numNewActivities : option Z
}.

Definition onDeliveredActivities
    (deliveredActivities : list (string * list (string * activityInfo)))
    (st : node) : node :=
  foldl (fun st1 '(resourceId, streamTypeActivities) =>
           foldl (fun st2 '(streamType, info) =>
                    if isAggregation (deliveryPhase streamType) then
                      _push (createActivityStreamId E (JStr resourceId) (JStr streamType))
                        (RoutedActivity (ai_activities info) resourceId streamType
                           (ai_numNewActivities info)) st2
                    else st2)
             st1 streamTypeActivities)
    st deliveredActivities.

(** ** The events of the outside world *)

Inductive event : Type :=
| SocketOpens (sid : nat)
| SocketData (sid : nat) (msg : option jsval)
| SocketCloses (sid : nat)
| TimeoutFires (sid : nat)
| PrincipalReturns (k : nat) (res : error + User)
| AuthzReturns (k : nat) (err : option error)
| BrokerBinds (k : nat) (err : option error)
| BindReturns (k : nat)
| BrokerUnbinds (k : nat) (err : option error)
| UnbindReturns (k : nat)
| TransformReturns (k : nat) (res : error + list Activity)
| BrokerDelivers (data : routedActivity)
| RoutedActivitiesEmitted (routed : list (string * list (string * Activity)))
| DeliveredActivitiesEmitted (delivered : list (string * list (string * activityInfo)))
| BrokerDeliversAnswered (data : routedActivity) (immediate : transformerAnswers).

Definition answered (k : nat) (st : node) : node := setPending (delete k) st.

(** One event. The result is [None] when the event cannot happen in this
    state (a socket id in use or unknown, data on a closed socket, a second
    ['close'], a timer that is not armed, an answer nobody waits for) or when
    the handler throws. [BrokerDelivers] is a message all of whose
    transformations are answered in later events, by [TransformReturns];
    [BrokerDeliversAnswered] is a message for which the transformer answers
    some calls before it returns. *)
Definition step (st : node) (ev : event) : option node :=
  match ev with
  | SocketOpens sid =>
      match connections st !! sid with
      | None => Some (registerConnection sid st)
      | Some _ => None
      end
  | SocketData sid msg =>
      match connections st !! sid with
      | Some ci => if socketClosed ci then None else onData sid msg st
      | None => None
      end
  | SocketCloses sid =>
      match connections st !! sid with
      | Some ci =>
          if closeEmitted ci then None
          else Some (onClose sid (updConn sid withCloseEmitted st))
      | None => None
      end
  | TimeoutFires sid =>
      match connections st !! sid with
      | Some ci =>
          match authenticationTimeout ci with
          | TimerArmed _ =>
              Some (authenticationTimeoutCallback sid (updConn sid (withTimeout TimerFired) st))
          | _ => None
          end
      | None => None
      end
  | PrincipalReturns k res =>
      match pendingCalls st !! k with
      | Some (PPrincipal sid message) =>
          Some (getPrincipalCallback sid message res (answered k st))
      | _ => None
      end
  | AuthzReturns k err =>
      match pendingCalls st !! k with
      | Some (PAuthz sid message) => Some (authzCallback sid message err (answered k st))
      | _ => None
      end
  | BrokerBinds k err =>
      match pendingCalls st !! k with
      | Some (PBind sid message stream None) =>
          Some (setPending (insert k (PBind sid message stream (Some err)))
                  (match err with
                   | None => setBindings (fun b => {[stream]} ∪ b) st
                   | Some _ => st
                   end))
      | _ => None
      end
  | BindReturns k =>
      match pendingCalls st !! k with
      | Some (PBind sid message stream (Some err)) =>
          Some (bindCallback sid message stream err (answered k st))
      | _ => None
      end
  | BrokerUnbinds k err =>
      match pendingCalls st !! k with
      | Some (PUnbind stream None) =>
          Some (setPending (insert k (PUnbind stream (Some err)))
                  (match err with
                   | None => setBindings (fun b => b ∖ {[stream]}) st
                   | Some _ => st
                   end))
      | _ => None
      end
  | UnbindReturns k =>
      match pendingCalls st !! k with
      | Some (PUnbind stream (Some _)) => Some (unbindCallback stream (answered k st))
      | _ => None
      end
  | TransformReturns k res =>
      match pendingCalls st !! k with
      | Some (PTransform job sid data transformerType) =>
          Some (transformCallback job sid data transformerType res (answered k st))
      | _ => None
      end
  | BrokerDelivers data => _handlePushActivity later data st
  | RoutedActivitiesEmitted routed => Some (onRoutedActivities routed st)
  | DeliveredActivitiesEmitted delivered => Some (onDeliveredActivities delivered st)
  | BrokerDeliversAnswered data immediate => _handlePushActivity immediate data st
  end.

(** A run: the events one after the other. *)
Fixpoint run (st : node) (evs : list event) : option node :=
  match evs with
  | [] => Some st
  | ev :: rest =>
      match step st ev with
      | Some st' => run st' rest
      | None => None
      end
  end.

End Handlers.

(** The states of a node that starts empty. *)
Definition reachable (E : Collaborators) (st : node) : Prop :=
  exists evs, run E idle evs = Some st.

(** ** What is read off a state *)

(** The [connectionInfo] fields of a socket in a state. *)
Definition ctxOf (st : node) (sid : nat) : option Context :=
  match connections st !! sid with
  | Some ci => ctx ci
  | None => None
  end.

Definition streamsOf (st : node) (sid : nat) : list string :=
  match connections st !! sid with
  | Some ci => streams ci
  | None => []
  end.

Definition timeoutOf (st : node) (sid : nat) : option timer :=
  authenticationTimeout <$> connections st !! sid.

Definition transformersOf (st : node) (sid : nat) (stream : string) : list jsval :=
  match connections st !! sid with
  | Some ci => default [] (default ∅ (transformerTypes ci) !! stream)
  | None => []
  end.

(** The effects of a state from position [n] on. *)
Definition effectsFrom (n : nat) (st : node) : list effect := drop n (effects st).

Definition isBrokerCall (e : effect) : bool :=
  match e with
  | BindQueueToExchange _ | UnbindQueueFromExchange _ | Submit _ _ => true
  | _ => false
  end.

(** The (resource id, stream type) pairs published on the exchange. *)
Definition published (es : list effect) : list (string * string) :=
  flat_map (fun e => match e with
                     | Submit _ data => [(ra_resourceId data, ra_streamType data)]
                     | _ => []
                     end) es.

Definition isNull (v : jsval) : bool :=
  match v with JNull => true | _ => false end.

(** ** Invariants of the reachable states *)

Definition conn_ok (ci : connectionInfo) : Prop :=
  NoDup (streams ci)
  /\ (is_Some (ctx ci) -> socketClosed ci = false -> authenticationTimeout ci = TimerCleared)
  /\ (authenticationTimeout ci = TimerFired -> socketClosed ci = true).

Definition node_inv (st : node) : Prop :=
  (forall sid ci, connections st !! sid = Some ci -> conn_ok ci)
  /\ (forall stream l, connectionInfosPerStream st !! stream = Some l -> l <> []).

(** How a [connectionInfo] object may change over time. *)
Definition evolves (ci ci' : connectionInfo) : Prop :=
  (socketClosed ci = true -> socketClosed ci' = true)
  /\ (is_Some (ctx ci) -> is_Some (ctx ci'))
  /\ (authenticationTimeout ci = TimerCleared -> authenticationTimeout ci' = TimerCleared)
  /\ (forall s, s ∈ streams ci -> s ∈ streams ci')
  /\ (is_Some (transformerTypes ci) -> is_Some (transformerTypes ci')).

Definition conns_evolve (st st' : node) : Prop :=
  forall sid ci, connections st !! sid = Some ci ->
    exists ci', connections st' !! sid = Some ci' /\ evolves ci ci'.

(** ** A sample deployment, to run the handlers on *)

(** The checks of the sample read a missing value as the empty string and a
    number as its digits, and throw on a boolean and on an array. *)
Definition sampleCollaborators : Collaborators :=
  mkCollaborators
    (fun v => match v with
              | JStr s => Some (negb (String.eqb s ""))
              | JNum _ => Some true
              | JBool _ | JArr _ => None
              | _ => Some false
              end)
    (fun v => match v with
              | JStr s => Some (String.prefix "u:" s)
              | JBool _ | JArr _ => None
              | _ => Some false
              end)
    (fun v => match v with
              | JNum _ => Some true
              | JBool _ | JArr _ => None
              | _ => Some false
              end)
    (fun v => match v with JNull | JUndefined => Some false | _ => Some true end)
    (fun v => match v with JStr s => s | _ => "" end)
    (fun _ _ _ sig => strictEqStr sig "valid")
    ["internal"; "activitystreams"]
    "internal"
    (fun v => match v with
              | JStr s =>
                  if String.eqb s "activity" then Some (mkStreamOptions true None)
                  else if String.eqb s "notification" then
                    Some (mkStreamOptions true (Some "aggregation"))
                  else None
              | _ => None
              end)
    (fun r t => match r, t with
                | JStr r', JStr t' => String.append r' (String.append "#" t')
                | _, _ => ""
                end).

Definition authenticationFrame (id : jsval) (signature : string) : jsval :=
  JObj [("id", id); ("name", JStr "authentication");
        ("payload",
          JObj [("tenantAlias", JStr "cam"); ("userId", JStr "u:cam:abc");
                ("signature", JObj [("expires", JNum 1234); ("signature", JStr signature)])])].

Definition subscribeFrame (id : jsval) (resourceId streamType : string) (format : jsval) : jsval :=
  JObj [("id", id); ("name", JStr "subscribe");
        ("payload",
          JObj [("stream", JObj [("resourceId", JStr resourceId); ("streamType", JStr streamType)]);
                ("format", format)])].

(** One socket that has authenticated. *)
Definition authenticatedEvents (sid k : nat) : list event :=
  [SocketOpens sid; SocketData sid (Some (authenticationFrame (JNum 1) "valid"));
   PrincipalReturns k (inr "alice")].

Definition stateAfter (evs : list event) : node :=
  default idle (run sampleCollaborators idle evs).

(** Sockets 1 and 2 have authenticated and subscribed to the activity stream
    of [c:cam:x]; socket 1 has also subscribed to its notification stream. *)
Definition twoSubscribers : node :=
  stateAfter
    (authenticatedEvents 1 0 ++ authenticatedEvents 2 1 ++
     [SocketData 1 (Some (subscribeFrame (JNum 2) "c:cam:x" "activity" JUndefined));
      AuthzReturns 2 None; BrokerBinds 3 None; BindReturns 3;
      SocketData 2 (Some (subscribeFrame (JNum 2) "c:cam:x" "activity" JUndefined));
      AuthzReturns 4 None;
      SocketData 1 (Some (subscribeFrame (JNum 3) "c:cam:x" "notification" JUndefined));
      AuthzReturns 5 None; BrokerBinds 6 None; BindReturns 6]).

Definition connectionOf (st : node) (sid : nat) : connectionInfo :=
  default (newConnectionInfo sid) (connections st !! sid).

Definition sampleActivity : routedActivity :=
  RoutedActivity [JStr "a1"] "c:cam:x" "activity" None.

Definition sampleContext : Context := mkContext "cam" "alice".

(** ** Subscribe requests *)

(** The three tests of [_subscribe] that come before the authorization. *)
Definition passesValidation (E : Collaborators) (message : jsval) : bool :=
  let data := prop message "payload" in
  truthy data && truthy (prop data "stream")
  && truthy (prop (prop data "stream") "resourceId")
  && truthy (prop (prop data "stream") "streamType")
  && (negb (truthy (prop data "format")) || knownFormat E (prop data "format"))
  && _getAuthorizationHandler E (prop (prop data "stream") "streamType").

(** A frame that the ['data'] handler of an authenticated connection hands
    to [_subscribe] and that passes its validation. *)
Definition isSubscribeRequest (E : Collaborators) (message : jsval) : bool :=
  truthy (prop message "id")
  && strictEqStr (prop message "name") "subscribe"
  && passesValidation E message.

Definition streamOfRequest (E : Collaborators) (message : jsval) : string :=
  createActivityStreamId E
    (prop (prop (prop message "payload") "stream") "resourceId")
    (prop (prop (prop message "payload") "stream") "streamType").

(** [data.format || ActivityConstants.transformerTypes.INTERNAL] *)
Definition transformerOfRequest (E : Collaborators) (message : jsval) : jsval :=
  if truthy (prop (prop message "payload") "format")
  then prop (prop message "payload") "format"
  else JStr (INTERNAL E).

(** The call of the authorization handler that [_subscribe] makes. *)
Definition authzCallOf (message : jsval) (sid : nat) (c : option Context) : effect :=
  AuthzHandler sid c
    (prop (prop (prop message "payload") "stream") "resourceId")
    (prop (prop message "payload") "token").

(** ** The dispatch of one message *)

(** The (connection, transformer) pairs of a stream, in the order in which
    [_handlePushActivity] goes through them. *)
Definition pushJobs (st : node) (stream : string) (l : list nat) : list (nat * jsval) :=
  flat_map (fun sid => map (pair sid) (transformersOf st sid stream)) l.

Definition transformOfJob (job : nat) (data : routedActivity) (p : nat * jsval) : pending :=
  PTransform job (fst p) data (snd p).

Definition callOfJob (st : node) (job : nat) (data : routedActivity) (p : nat * jsval) : effect :=
  TransformActivities job (fst p) (ctxOf st (fst p)) (ra_activities data) (snd p).

(** Socket 1 has authenticated and has not subscribed to anything. *)
Definition oneAuthenticated : node := stateAfter (authenticatedEvents 1 0).

(** The registry is consistent: a connection in the array of a stream exists,
    has its transformers and records the stream; a bind in flight is for a
    stream its connection records; a connection holds transformers only for
    streams it records. *)
Definition registry_inv (st : node) : Prop :=
  (forall stream l sid,
      connectionInfosPerStream st !! stream = Some l -> sid ∈ l ->
      exists ci, connections st !! sid = Some ci
                 /\ is_Some (transformerTypes ci) /\ stream ∈ streams ci)
  /\ (forall k sid message stream answer,
        pendingCalls st !! k = Some (PBind sid message stream answer) ->
        exists ci, connections st !! sid = Some ci /\ stream ∈ streams ci)
  /\ (forall sid ci stream,
        connections st !! sid = Some ci -> stream ∉ streams ci ->
        transformersOf st sid stream = []).

(** A step that changes neither the arrays, nor the binds in flight, nor the
    streams and transformers of any connection. *)
Definition silent (st st' : node) : Prop :=
  connectionInfosPerStream st' = connectionInfosPerStream st
  /\ (forall k sid message stream answer,
        pendingCalls st' !! k = Some (PBind sid message stream answer) ->
        exists answer', pendingCalls st !! k = Some (PBind sid message stream answer'))
  /\ (forall sid,
        match connections st' !! sid, connections st !! sid with
        | Some ci', Some ci =>
            streams ci' = streams ci /\ transformerTypes ci' = transformerTypes ci
        | None, None => True
        | _, _ => False
        end).

(** * Further definitions *)

(** ** The calls of a handler *)

(** The second state has made the calls of the first, and then calls that
    all satisfy [P]. *)
Definition appends (P : effect -> Prop) (st st' : node) : Prop :=
  exists es, effects st' = effects st ++ es /\ Forall P es.

Inductive effectKind : Type :=
| KResponse | KPushFrame | KClose | KClearTimeout | KGetPrincipal | KAuthz
| KBind | KUnbind | KSubmit | KTransform | KCallback.

Definition kindOf (e : effect) : effectKind :=
  match e with
  | SocketWrite _ (Response _ _) => KResponse
  | SocketWrite _ (PushFrame _ _ _ _ _) => KPushFrame
  | SocketClose _ => KClose
  | ClearTimeout _ => KClearTimeout
  | GetPrincipal _ _ => KGetPrincipal
  | AuthzHandler _ _ _ _ => KAuthz
  | BindQueueToExchange _ => KBind
  | UnbindQueueFromExchange _ => KUnbind
  | Submit _ _ => KSubmit
  | TransformActivities _ _ _ _ _ => KTransform
  | PushCallback _ => KCallback
  end.

(** The kinds of calls the handler of an event contains. *)
Definition kindsOf (ev : event) : list effectKind :=
  match ev with
  | SocketOpens _ => []
  | SocketData _ _ => [KResponse; KClose; KGetPrincipal; KAuthz]
  | SocketCloses _ => [KUnbind]
  | TimeoutFires _ => [KResponse; KClose]
  | PrincipalReturns _ _ => [KResponse; KClose; KClearTimeout]
  | AuthzReturns _ _ => [KResponse; KBind]
  | BrokerBinds _ _ => []
  | BindReturns _ => [KResponse]
  | BrokerUnbinds _ _ => []
  | UnbindReturns _ => []
  | TransformReturns _ _ => [KPushFrame; KCallback]
  | BrokerDelivers _ => [KTransform]
  | RoutedActivitiesEmitted _ => [KSubmit]
  | DeliveredActivitiesEmitted _ => [KSubmit]
  | BrokerDeliversAnswered _ _ => [KTransform; KPushFrame; KCallback]
  end.

Definition ofKinds (ks : list effectKind) (e : effect) : Prop := In (kindOf e) ks.

(** ** Authentication frames *)

(** What becomes of an authentication frame, test by test in the order in
    which [_authenticate] runs them: [None] when a test throws, the error
    of the first test that fails, or no error when the frame passes them
    all. The tests of the tenant alias and of the user id both run before
    the first error is looked at, and so do the two tests of the
    signature. *)
Definition authenticationOutcome (E : Collaborators) (message : jsval)
    : option (option error) :=
  let data := prop message "payload" in
  if negb (truthy data) then
    Some (Some (Error 400 "Missing data payload containing the userId and signature"))
  else
    match notEmpty E (prop data "tenantAlias"), isUserId E (prop data "userId") with
    | Some tenantGiven, Some userGiven =>
        if negb tenantGiven then Some (Some (Error 400 "A tenant needs to be provided"))
        else if negb userGiven then Some (Some (Error 400 "A userId needs to be provided"))
        else if negb (isObject (prop data "signature")) then
          Some (Some (Error 400 "A signature object needs to be provided"))
        else
          match isInt E (prop (prop data "signature") "expires"),
                notNull E (prop (prop data "signature") "signature") with
          | Some expiresGiven, Some signatureGiven =>
              if negb expiresGiven then
                Some (Some (Error 400 "Signature must contain an integer expires value"))
              else if negb signatureGiven then
                Some (Some (Error 400 "Signature must contain a string signature value"))
              else Some None
          | _, _ => None
          end
    | _, _ => None
    end.

(** ** Closing a socket *)

(** Every [socket.close()] in a list of calls comes right after an error
    response written on the same socket. *)
Definition closesExplained (es : list effect) : Prop :=
  forall i sid,
    es !! i = Some (SocketClose sid) ->
    exists j id err,
      i = S j /\ es !! j = Some (SocketWrite sid (Response id (Some err))).

(** ** Sockets that stay as they are *)

(** The state of every socket, its context and its timer are the same in
    both states, and the second state has made the calls of the first and
    then calls that close no socket and clear no timer. *)
Definition keepsSockets (st st' : node) : Prop :=
  (forall sid,
      match connections st' !! sid, connections st !! sid with
      | Some ci', Some ci =>
          socketClosed ci' = socketClosed ci /\ closeEmitted ci' = closeEmitted ci
          /\ ctx ci' = ctx ci /\ authenticationTimeout ci' = authenticationTimeout ci
      | None, None => True
      | _, _ => False
      end)
  /\ exists es, effects st' = effects st ++ es
                /\ forall e, e ∈ es -> match e with
                                        | SocketClose _ | ClearTimeout _ => False
                                        | _ => True
                                        end.

(** ** Binds and unbinds in the log of calls *)

(** The events whose handlers touch the per-stream arrays or start a
    bind. *)
Definition touchesRegistry (ev : event) : bool :=
  match ev with
  | SocketCloses _ | AuthzReturns _ _ | BindReturns _ | UnbindReturns _ => true
  | _ => false
  end.

(** A bind was issued for every stream that has an array or a bind in
    flight, and before every unbind of the stream. *)
Definition bindLog_inv (st : node) : Prop :=
  (forall stream l,
      connectionInfosPerStream st !! stream = Some l ->
      BindQueueToExchange stream ∈ effects st)
  /\ (forall k sid message stream answer,
        pendingCalls st !! k = Some (PBind sid message stream answer) ->
        BindQueueToExchange stream ∈ effects st)
  /\ (forall i stream,
        effects st !! i = Some (UnbindQueueFromExchange stream) ->
        exists j, (j < i)%nat /\ effects st !! j = Some (BindQueueToExchange stream)).

(** ** The arrays of connections *)

(** No array holds a connection twice; a connection with a bind in flight
    for a stream is not in the array of that stream, and has no second bind
    in flight for it; a connection in the array of a stream holds a format
    for that stream. *)
Definition arrays_inv (st : node) : Prop :=
  (forall stream l, connectionInfosPerStream st !! stream = Some l -> NoDup l)
  /\ (forall k sid message stream answer,
        pendingCalls st !! k = Some (PBind sid message stream answer) ->
        sid ∉ default [] (connectionInfosPerStream st !! stream))
  /\ (forall k k' sid message message' stream answer answer',
        pendingCalls st !! k = Some (PBind sid message stream answer) ->
        pendingCalls st !! k' = Some (PBind sid message' stream answer') ->
        k = k')
  /\ (forall stream l sid,
        connectionInfosPerStream st !! stream = Some l -> sid ∈ l ->
        transformersOf st sid stream <> []).

(** ** The counter of a message *)

Definition isTransform (p : pending) : bool :=
  match p with
  | PTransform _ _ _ _ => true
  | _ => false
  end.

Definition isTransformOf (job : nat) (p : pending) : bool :=
  match p with
  | PTransform j _ _ _ => Nat.eqb j job
  | _ => false
  end.

(** The number of transformations of a message among the calls in flight. *)
Definition countTransforms (job : nat) (m : gmap nat pending) : nat :=
  size (filter (fun kp : nat * pending => isTransformOf job kp.2 = true) m).

(** The number of transformations of a message that have not returned. *)
Definition pendingOf (st : node) (job : nat) : nat := countTransforms job (pendingCalls st).

(** No call is recorded under a key that has not been given out. *)
Definition freshCalls (st : node) : Prop :=
  forall k, (nextCall st <= k)%nat -> pendingCalls st !! k = None.

(** A handler that leaves the counters and the transformations in flight
    alone. *)
Definition calm (st st' : node) : Prop :=
  todo st' = todo st
  /\ nextJob st' = nextJob st
  /\ (freshCalls st ->
      freshCalls st'
      /\ forall k p, isTransform p = true ->
           (pendingCalls st' !! k = Some p <-> pendingCalls st !! k = Some p)).

(** The events whose handlers touch the counter of a message. *)
Definition touchesCounters (ev : event) : bool :=
  match ev with
  | BrokerDelivers _ | BrokerDeliversAnswered _ _ | TransformReturns _ _ => true
  | _ => false
  end.

(** The events in which no transformation is answered before the
    transformer returns. *)
Definition callsBackLater (ev : event) : bool :=
  match ev with
  | BrokerDeliversAnswered _ _ => false
  | _ => true
  end.

Definition isTransformCall (e : effect) : bool :=
  match e with
  | TransformActivities _ _ _ _ _ => true
  | _ => false
  end.

(** The counter of a message is never less than the number of its
    transformations in flight; once the completion callback of a message has
    been called its counter is zero; the callback is in the log at most
    once. *)
Definition jobs_inv (st : node) : Prop :=
  freshCalls st
  /\ (forall k job sid data t,
        pendingCalls st !! k = Some (PTransform job sid data t) -> (job < nextJob st)%nat)
  /\ (forall job, PushCallback job ∈ effects st -> (job < nextJob st)%nat)
  /\ (forall job, Z.of_nat (pendingOf st job) <= default 0 (todo st !! job))
  /\ (forall job, PushCallback job ∈ effects st -> default 0 (todo st !! job) = 0)
  /\ (forall i j job,
        effects st !! i = Some (PushCallback job) ->
        effects st !! j = Some (PushCallback job) -> i = j).

(** What the counter of a message holds beyond its transformations in
    flight. It is the number of its transformations that failed. *)
Definition failedOf (st : node) (job : nat) : Z :=
  default 0 (todo st !! job) - Z.of_nat (pendingOf st job).

(** A transformation of the message returns with an error. *)
Definition isFailureOf (st : node) (job : nat) (ev : event) : Prop :=
  exists k e sid data t,
    ev = TransformReturns k (inl e)
    /\ pendingCalls st !! k = Some (PTransform job sid data t).

(** Sockets 1 and 2 of [twoSubscribers], and a message for their stream
    whose two transformations are in flight. *)
Definition twoInFlight : node :=
  default idle (step sampleCollaborators twoSubscribers (BrokerDelivers sampleActivity)).

(** The events that lead to [twoInFlight]. *)
Definition twoInFlightEvents : list event :=
  authenticatedEvents 1 0 ++ authenticatedEvents 2 1 ++
  [SocketData 1 (Some (subscribeFrame (JNum 2) "c:cam:x" "activity" JUndefined));
   AuthzReturns 2 None; BrokerBinds 3 None; BindReturns 3;
   SocketData 2 (Some (subscribeFrame (JNum 2) "c:cam:x" "activity" JUndefined));
   AuthzReturns 4 None;
   SocketData 1 (Some (subscribeFrame (JNum 3) "c:cam:x" "notification" JUndefined));
   AuthzReturns 5 None; BrokerBinds 6 None; BindReturns 6;
   BrokerDelivers sampleActivity].

(** ** A transformer that answers at once *)

(** The transformer that answers every call at once, with success. *)
Definition atOnce (activities : list Activity) : transformerAnswers :=
  fun _ => Some (inr activities).

(** What one transformation that is answered at once with success adds to
    the log. *)
Definition answeredAtOnce (st : node) (job : nat) (data : routedActivity)
    (activities : list Activity) (p : nat * jsval) : list effect :=
  [callOfJob st job data p;
   SocketWrite (fst p)
     (PushFrame (ra_resourceId data) (ra_streamType data) activities (snd p)
        (ra_numNewActivities data));
   PushCallback job].

Definition isCompletion (e : effect) : bool :=
  match e with
  | PushCallback _ => true
  | _ => false
  end.

(** ** Published messages *)

(** The stream id [_handlePushActivity] computes for a message. *)
Definition streamIdOf (E : Collaborators) (data : routedActivity) : string :=
  createActivityStreamId E (JStr (ra_resourceId data)) (JStr (ra_streamType data)).

(** The second state differs from the first by its calls only. *)
Definition onlyCalls (st st' : node) : Prop :=
  connections st' = connections st
  /\ connectionInfosPerStream st' = connectionInfosPerStream st
  /\ pendingCalls st' = pendingCalls st
  /\ nextCall st' = nextCall st
  /\ todo st' = todo st
  /\ nextJob st' = nextJob st
  /\ bindings st' = bindings st.

(** ** init

    [init] chains three calls of the message queue. Each call is answered
    once; the embedding takes the answers as arguments and returns the name
    the module keeps in [queueName] with the calls [init] makes, in
    order. *)

Definition EXCHANGE_NAME : string := "oae-activity-pushexchange".

Definition QUEUE_PREFIX : string := "oae-activity-push-".

Inductive initEffect : Type :=
| DeclareExchange (name : string)
| DeclareQueue (name : string)
(** [MQ.subscribeQueue], with [_handlePushActivity] as the listener and the
    callback of [init] as its callback. *)
| SubscribeQueue (name : string)
(** [callback(err)] *)
| InitCallback (err : error).

Definition init (exchangeAnswer : option error) (shortId : string)
    (queueAnswer : option error) : option string * list initEffect :=
  match exchangeAnswer with
  | Some err => (None, [DeclareExchange EXCHANGE_NAME; InitCallback err])
  | None =>
      let queueName := String.append QUEUE_PREFIX shortId in
      match queueAnswer with
      | Some err =>
          (Some queueName,
           [DeclareExchange EXCHANGE_NAME; DeclareQueue queueName; InitCallback err])
      | None =>
          (Some queueName,
           [DeclareExchange EXCHANGE_NAME; DeclareQueue queueName; SubscribeQueue queueName])
      end
  end.

(** ** The validator wrapper

    The state of a validator is the array [_errors]; an array that does not
    exist yet reads as an empty one in every accessor. *)

(** [Validator.prototype.error] *)
Definition Validator_error (m : error) (errors : list error) : list error := errors ++ [m].

Definition getErrors (errors : list error) : option (list error) :=
  match errors with
  | [] => None
  | _ => Some errors
  end.

Definition getErrorCount (errors : list error) : nat := length errors.

(** ** The custom validators of a context

    A context is an object with the methods [tenant] and [user]; the user
    they return has the method [isGlobalAdmin]. A method is modelled by what
    it is: not a function, or a function with the value it returns (the
    methods of a context read fields and return the same value at every
    call). *)

Inductive method : Type :=
| NotAFunction
| Returns (v : jsval).

(** An object passed as [ctx]: its [tenant] and [user] properties, and the
    [isGlobalAdmin] property of the object [user()] returns. *)
Record contextObject : Type := ContextObject {
  co_tenant : method;
  co_user : method;
  co_isGlobalAdmin : method
}.

(** [a !== b] for values of which one is not an object: two primitives are
    compared by type and value. Two objects are the same only when they are
    one object, which two values read from different places are not. *)
Definition strictEq (a b : jsval) : bool :=
  match a, b with
  | JUndefined, JUndefined | JNull, JNull => true
  | JBool x, JBool y => Bool.eqb x y
  | JNum x, JNum y => Z.eqb x y
  | JStr x, JStr y => String.eqb x y
  | _, _ => false
  end.

(** The outcome of a custom check: it throws, or it returns, having recorded
    [this.msg || text] for the [text] of the test that failed, if one
    did. *)
Inductive outcome : Type :=
| Throws
| Passes
| Records (text : string).

(** [isLoggedInUser(ctx, tenantAlias)]; [ctx] is [None] when it is not an
    object. Calling a property that is not a function throws. *)
Definition isLoggedInUser (ctx : option contextObject) (tenantAlias : jsval) : outcome :=
  match ctx with
  | None => Records "An empty context has been passed in"
  | Some c =>
      match co_tenant c with
      | NotAFunction => Throws
      | Returns t =>
          if negb (isObject t) || negb (truthy (prop t "alias")) then
            Records "The context is not associated to a tenant"
          else
            match co_user c with
            | NotAFunction => Throws
            | Returns u =>
                if negb (isObject u) || negb (truthy (prop u "id")) then
                  Records "The user is not logged in"
                else if truthy tenantAlias && negb (strictEq (prop t "alias") tenantAlias) then
                  Records "The context is associated to an invalid tenant"
                else Passes
            end
      end
  end.

(** [isGlobalAdministratorUser(ctx)] *)
Definition isGlobalAdministratorUser (ctx : option contextObject) : outcome :=
  match ctx with
  | None => Records "An empty context has been passed in"
  | Some c =>
      match co_tenant c with
      | NotAFunction => Records "The context is not associated to a tenant"
      | Returns t =>
          if negb (isObject t) || negb (truthy (prop t "alias")) then
            Records "The context is not associated to a tenant"
          else
            match co_user c with
            | NotAFunction => Records "The user is not logged in"
            | Returns u =>
                if negb (isObject u) || negb (truthy (prop u "id")) then
                  Records "The user is not logged in"
                else
                  match co_isGlobalAdmin c with
                  | NotAFunction => Records "The user object is invalid"
                  | Returns r =>
                      if negb (strictEq r (JBool true)) then
                        Records "The user is not a global administrator"
                      else Passes
                  end
            end
      end
  end.

(** A context of the sample deployment: a global administrator of tenant
    [cam]. *)
Definition sampleAdministrator : contextObject :=
  ContextObject (Returns (JObj [("alias", JStr "cam")]))
    (Returns (JObj [("id", JStr "u:cam:admin")])) (Returns (JBool true)).

(** ** The invitations of discussions *)

Record invitationHash : Type := InvitationHash {
  ih_resourceId : string;
  ih_inviterUserId : string
}.

Record discussion : Type := Discussion {
  discussion_id : string;
  discussion_fields : jsval
}.

(** The calls of the two listeners. [UpdatedDiscussionMembers] is the event
    emitted on the discussions API, with what its arguments are built
    from. *)
Inductive invitationEffect : Type :=
| GetDiscussionsById (discussionIds : list string)
| DeleteInvitationsByResourceId (resourceId : string)
| LogWarn
| Callback (err : option error) (discussions : option (list discussion))
| UpdatedDiscussionMembers (inviterUser : jsval) (d : discussion) (hash : invitationHash)
    (memberChangeInfo : jsval).

Definition _isDiscussionId (isResourceId : string -> bool) (discussionId : string) : bool :=
  isResourceId discussionId && String.prefix "d:" discussionId.

(** [_.findWhere(invitationHashes, { resourceId })] *)
Definition findWhere (invitationHashes : list invitationHash) (resourceId : string)
    : option invitationHash :=
  List.find (fun h => String.eqb (ih_resourceId h) resourceId) invitationHashes.

(** The loop over the discussions. Reading [inviterUserId] of a hash that
    was not found throws: the loop stops, and the second component is
    [false]. *)
Fixpoint fireMemberUpdates (invitationHashes : list invitationHash)
    (memberChangeInfosByResourceId inviterUsersById : list (string * jsval))
    (discussions : list discussion) : list invitationEffect * bool :=
  match discussions with
  | [] => ([], true)
  | d :: rest =>
      match findWhere invitationHashes (discussion_id d) with
      | None => ([], false)
      | Some invitationHash =>
          let '(es, returned) :=
            fireMemberUpdates invitationHashes memberChangeInfosByResourceId
              inviterUsersById rest in
          (UpdatedDiscussionMembers
             (assoc (ih_inviterUserId invitationHash) inviterUsersById) d invitationHash
             (assoc (discussion_id d) memberChangeInfosByResourceId) :: es,
           returned)
      end
  end.

(** The listener of accepted invitations, with the answer of
    [DiscussionsDAO.getDiscussionsById] as a function of the ids asked
    for. *)
Definition onAcceptedInvitation (isResourceId : string -> bool)
    (getDiscussionsById : list string -> error + list discussion)
    (invitationHashes : list invitationHash)
    (memberChangeInfosByResourceId inviterUsersById : list (string * jsval))
    : list invitationEffect * bool :=
  let discussionIds :=
    List.filter (_isDiscussionId isResourceId) (map fst memberChangeInfosByResourceId) in
  match discussionIds with
  | [] => ([Callback None None], true)
  | _ =>
      match getDiscussionsById discussionIds with
      | inl err => ([GetDiscussionsById discussionIds; LogWarn; Callback None None], true)
      | inr discussions =>
          let '(es, returned) :=
            fireMemberUpdates invitationHashes memberChangeInfosByResourceId
              inviterUsersById discussions in
          (GetDiscussionsById discussionIds :: Callback None (Some discussions) :: es,
           returned)
      end
  end.

(** The listener of deleted discussions, with the answer of
    [AuthzInvitationsDAO.deleteInvitationsByResourceId]. *)
Definition onDeletedDiscussion (d : discussion) (answer : option error)
    : list invitationEffect :=
  DeleteInvitationsByResourceId (discussion_id d)
  :: match answer with
     | Some _ => [LogWarn; Callback None None]
     | None => [Callback None None]
     end.

Definition isCallback (e : invitationEffect) : bool :=
  match e with Callback _ _ => true | _ => false end.

Definition isUpdate (e : invitationEffect) : bool :=
  match e with UpdatedDiscussionMembers _ _ _ _ => true | _ => false end.

(** * Properties *)

(** Unfold the state updates under the projections of a state. *)
Ltac nsimpl :=
  cbn [connections connectionInfosPerStream pendingCalls nextCall todo nextJob bindings
       effects emit await setPending setTodo setBindings setPerStream setConnections
       updConn _writeResponse socketClose clearTimeout answered _push registerConnection
       unbindCallback] in *.

(** ** The first frame *)

Lemma onData_parsed E sid message st ci :
  isNull message = false ->
  connections st !! sid = Some ci ->
  onData E sid (Some message) st =
    if negb (truthy (prop message "id")) then
      Some (socketClose sid
              (_writeResponse sid (JNum 0) (Some (Error 400 "Missing id on the message")) st))
    else if negb (bool_decide (is_Some (ctx ci)))
            && negb (strictEqStr (prop message "name") "authentication") then
      Some (socketClose sid
              (_writeResponse sid (prop message "id")
                 (Some (Error 401 "The first frame should be an authentication frame")) st))
    else if strictEqStr (prop message "name") "authentication" then
      _authenticate E sid message st
    else if strictEqStr (prop message "name") "subscribe" then
      Some (_subscribe E sid message st)
    else Some st.
Proof.
  intros Hnull Hci. unfold onData. rewrite Hci.
  destruct message; try reflexivity. discriminate Hnull.
Qed.




(** ** How the handlers change the registry *)

Lemma spliceSocket_length sid l : (length l <= S (length (spliceSocket sid l)))%nat.
Proof.
  induction l as [|x l IH]; cbn; [lia|].
  destruct (Nat.eqb x sid); cbn; lia.
Qed.

Lemma spliceSocket_elem sid x l : x ≠ sid -> x ∈ l -> x ∈ spliceSocket sid l.
Proof.
  intros Hne. induction l as [|y l IH]; cbn; [done|].
  intros Hin. destruct (Nat.eqb_spec y sid) as [->|Hy].
  - apply elem_of_cons in Hin as [->|Hin]; [done|done].
  - apply elem_of_cons in Hin as [->|Hin]; [left|right; auto].
Qed.

Lemma spliceSocket_subset sid x l : x ∈ spliceSocket sid l -> x ∈ l.
Proof.
  induction l as [|y l IH]; cbn; [done|].
  destruct (Nat.eqb y sid); intros Hin.
  - by right.
  - apply elem_of_cons in Hin as [->|Hin]; [left|right; auto].
Qed.

Lemma conns_ok_alter (m : gmap nat connectionInfo) sid F :
  (forall sid' ci, m !! sid' = Some ci -> conn_ok ci) ->
  (forall ci, m !! sid = Some ci -> conn_ok ci -> conn_ok (F ci)) ->
  forall sid' ci', alter F sid m !! sid' = Some ci' -> conn_ok ci'.
Proof.
  intros Hm HF sid' ci'. destruct (decide (sid = sid')) as [<-|Hne].
  - rewrite lookup_alter_eq. destruct (m !! sid) as [ci|] eqn:Hci; [|done].
    cbn. intros [= <-]. eauto.
  - rewrite lookup_alter_ne by done. eauto.
Qed.

Lemma evolves_refl ci : evolves ci ci.
Proof. unfold evolves; auto. Qed.

Lemma evolves_trans a b c : evolves a b -> evolves b c -> evolves a c.
Proof. unfold evolves. intros (?&?&?&?&?) (?&?&?&?&?); repeat split; auto. Qed.

Lemma conns_evolve_refl st : conns_evolve st st.
Proof. intros sid ci H. exists ci. split; [done|apply evolves_refl]. Qed.

Lemma conns_evolve_trans a b c : conns_evolve a b -> conns_evolve b c -> conns_evolve a c.
Proof.
  intros Hab Hbc sid ci H. destruct (Hab _ _ H) as (ci' & H' & He).
  destruct (Hbc _ _ H') as (ci'' & H'' & He'). exists ci''. split; [done|].
  eapply evolves_trans; eauto.
Qed.

Lemma conns_evolve_same st st' :
  connections st' = connections st -> conns_evolve st st'.
Proof. intros Heq sid ci H. exists ci. rewrite Heq. split; [done|apply evolves_refl]. Qed.

Lemma conns_evolve_alter st st' sid F :
  connections st' = alter F sid (connections st) ->
  (forall ci, connections st !! sid = Some ci -> evolves ci (F ci)) ->
  conns_evolve st st'.
Proof.
  intros Heq HF sid' ci H. rewrite Heq. destruct (decide (sid = sid')) as [<-|Hne].
  - exists (F ci). rewrite lookup_alter_eq, H. split; [done|auto].
  - exists ci. rewrite lookup_alter_ne by done. split; [done|apply evolves_refl].
Qed.

(** The handlers that leave the connections and the per-stream arrays alone. *)
Definition same_registry (st st' : node) : Prop :=
  connections st' = connections st
  /\ connectionInfosPerStream st' = connectionInfosPerStream st.

Lemma same_registry_refl st : same_registry st st.
Proof. by split. Qed.

Lemma same_registry_trans a b c : same_registry a b -> same_registry b c -> same_registry a c.
Proof. intros [? ?] [? ?]; split; congruence. Qed.

Lemma node_inv_same st st' : same_registry st st' -> node_inv st -> node_inv st'.
Proof. intros [Hc Hp] [H1 H2]. split; [rewrite Hc|rewrite Hp]; done. Qed.

Lemma foldl_same_registry {A} (f : node -> A -> node) (l : list A) st :
  (forall s a, same_registry s (f s a)) -> same_registry st (foldl f st l).
Proof.
  intros Hf. revert st. induction l as [|a l IH]; intros st; cbn.
  - apply same_registry_refl.
  - eapply same_registry_trans; [apply Hf|apply IH].
Qed.

Lemma transformCallback_same job sid data tt res st :
  same_registry st (transformCallback job sid data tt res st).
Proof.
  unfold transformCallback. destruct res; [by split|].
  destruct (Z.eqb _ _); by split.
Qed.

Lemma startTransform_same immediate job sid c data st tt :
  same_registry st (startTransform immediate job sid c data st tt).
Proof.
  unfold startTransform. destruct (immediate _); [|by split].
  eapply same_registry_trans; [|apply transformCallback_same]. by split.
Qed.

Lemma pushToConnection_same immediate job data stream l st0 acc st' :
  same_registry st0 acc ->
  foldl (pushToConnection immediate job data stream) (Some acc) l = Some st' ->
  same_registry st0 st'.
Proof.
  revert acc. induction l as [|sid l IH]; intros acc Hacc; cbn.
  - by intros [= <-].
  - destruct (connections acc !! sid) as [ci|]; cbn.
    + destruct (transformerTypes ci) as [tts|]; cbn.
      * apply IH. eapply same_registry_trans; [done|].
        apply foldl_same_registry. intros; apply startTransform_same.
      * clear. induction l; cbn; [done|auto].
    + clear. induction l; cbn; [done|auto].
Qed.

Lemma handlePushActivity_same E immediate data st st' :
  _handlePushActivity E immediate data st = Some st' -> same_registry st st'.
Proof.
  unfold _handlePushActivity. intros H.
  eapply pushToConnection_same in H; [|apply same_registry_refl].
  destruct H as [H1 H2]. split; [rewrite H1|rewrite H2]; done.
Qed.

Lemma onRoutedActivities_same E routed st :
  same_registry st (onRoutedActivities E routed st).
Proof.
  unfold onRoutedActivities. apply foldl_same_registry. intros s [r m].
  apply foldl_same_registry. intros s' [t a].
  destruct (negb _); by split.
Qed.

Lemma onDeliveredActivities_same E delivered st :
  same_registry st (onDeliveredActivities E delivered st).
Proof.
  unfold onDeliveredActivities. apply foldl_same_registry. intros s [r m].
  apply foldl_same_registry. intros s' [t a].
  destruct (isAggregation _); by split.
Qed.

Lemma subscribe_same E sid message st : same_registry st (_subscribe E sid message st).
Proof.
  unfold _subscribe. repeat case_match; by split.
Qed.

(** ** The invariants hold in every reachable state *)

Lemma node_inv_upd st st' sid F :
  connections st' = alter F sid (connections st) ->
  connectionInfosPerStream st' = connectionInfosPerStream st ->
  (forall ci, connections st !! sid = Some ci -> conn_ok ci -> conn_ok (F ci)) ->
  node_inv st -> node_inv st'.
Proof.
  intros Hc Hp HF [H1 H2]. split.
  - rewrite Hc. by apply conns_ok_alter.
  - by rewrite Hp.
Qed.

Lemma conn_ok_closed ci : conn_ok ci -> conn_ok (withSocketClosed ci).
Proof. intros (?&?&?). repeat split; cbn; auto. intros _ [=]. Qed.

Lemma close_write_inv sid id err st :
  node_inv st -> node_inv (socketClose sid (_writeResponse sid id err st)).
Proof.
  apply (node_inv_upd _ _ sid withSocketClosed); [done|done|].
  intros ci _. apply conn_ok_closed.
Qed.

Lemma close_write_evolves sid id err st :
  conns_evolve st (socketClose sid (_writeResponse sid id err st)).
Proof.
  apply (conns_evolve_alter _ _ sid withSocketClosed); [done|].
  intros ci _. unfold evolves; cbn; auto.
Qed.

Lemma authenticate_inv E sid message st st' :
  _authenticate E sid message st = Some st' -> node_inv st -> node_inv st'.
Proof.
  unfold _authenticate. intros Ha H.
  repeat case_match; simplify_eq; try (by apply close_write_inv).
  revert H. by apply node_inv_same.
Qed.

Lemma authenticate_evolves E sid message st st' :
  _authenticate E sid message st = Some st' -> conns_evolve st st'.
Proof.
  unfold _authenticate. intros Ha.
  repeat case_match; simplify_eq; try (by apply close_write_evolves).
  by apply conns_evolve_same.
Qed.

Lemma onData_inv E sid msg st st' :
  onData E sid msg st = Some st' -> node_inv st -> node_inv st'.
Proof.
  unfold onData. intros H Hinv.
  repeat case_match; simplify_eq;
    first [ by apply close_write_inv
          | by eapply authenticate_inv
          | by eapply node_inv_same; [apply subscribe_same|]
          | done ].
Qed.

Lemma onData_evolves E sid msg st st' :
  onData E sid msg st = Some st' -> conns_evolve st st'.
Proof.
  unfold onData. intros H.
  repeat case_match; simplify_eq;
    first [ by apply close_write_evolves
          | by eapply authenticate_evolves
          | by apply conns_evolve_same; apply subscribe_same
          | by apply conns_evolve_refl ].
Qed.

Lemma closeStream_conns sid st stream :
  connections (closeStream sid st stream) = connections st.
Proof. unfold closeStream. repeat case_match; done. Qed.

Lemma closeStream_lists_ok sid st stream :
  (forall s l, connectionInfosPerStream st !! s = Some l -> l <> []) ->
  forall s l, connectionInfosPerStream (closeStream sid st stream) !! s = Some l -> l <> [].
Proof.
  intros Hok s l. unfold closeStream.
  destruct (connectionInfosPerStream st !! stream) as [l0|] eqn:Hl0; [|by apply Hok].
  destruct (Nat.eqb_spec (length l0) 1) as [Hlen|Hlen]; nsimpl; [by apply Hok|].
  destruct (decide (stream = s)) as [<-|Hne].
  - rewrite lookup_insert_eq. intros [= <-] Hnil.
    pose proof (spliceSocket_length sid l0) as Hs. rewrite Hnil in Hs. cbn in Hs.
    specialize (Hok _ _ Hl0). destruct l0 as [|? [|? ?]]; cbn in *; [done|done|lia].
  - rewrite lookup_insert_ne by done. apply Hok.
Qed.

Lemma onClose_inv sid st : node_inv st -> node_inv (onClose sid st).
Proof.
  unfold onClose. destruct (connections st !! sid) as [ci|]; [|done].
  generalize (streams ci). intros l. revert st.
  induction l as [|s l IH]; intros st Hinv; cbn; [done|].
  apply IH. destruct Hinv as [H1 H2]. split.
  - by rewrite closeStream_conns.
  - by apply closeStream_lists_ok.
Qed.

Lemma onClose_conns sid st : connections (onClose sid st) = connections st.
Proof.
  unfold onClose. destruct (connections st !! sid) as [ci|]; [|done].
  generalize (streams ci). intros l. revert st.
  induction l as [|s l IH]; intros st; cbn; [done|].
  by rewrite IH, closeStream_conns.
Qed.

Lemma finish_inv E sid message stream st :
  node_inv st -> node_inv (finish E sid message stream st).
Proof.
  unfold finish.
  eapply (node_inv_upd _ _ sid); [done|done|].
  intros ci _ (?&?&?). repeat split; cbn; auto.
Qed.

Lemma finish_evolves E sid message stream st :
  conns_evolve st (finish E sid message stream st).
Proof.
  unfold finish.
  eapply (conns_evolve_alter _ _ sid); [done|].
  intros ci _. unfold evolves; cbn; auto.
Qed.

Lemma bindCallback_inv E sid message stream err st :
  node_inv st -> node_inv (bindCallback E sid message stream err st).
Proof.
  intros Hinv. unfold bindCallback. destruct err; [done|].
  apply finish_inv. destruct Hinv as [H1 H2]. split; [done|].
  intros s l. nsimpl. destruct (decide (stream = s)) as [<-|Hne].
  - rewrite lookup_insert_eq. intros [= <-]. by intros [_ [=]]%app_eq_nil.
  - rewrite lookup_insert_ne by done. apply H2.
Qed.

Lemma bindCallback_evolves E sid message stream err st :
  conns_evolve st (bindCallback E sid message stream err st).
Proof.
  unfold bindCallback. destruct err; [by apply conns_evolve_same|].
  eapply conns_evolve_trans; [|apply finish_evolves]. by apply conns_evolve_same.
Qed.

Lemma bindQueue_inv E sid message stream st :
  node_inv st -> node_inv (_bindQueue E sid message stream st).
Proof.
  intros Hinv. unfold _bindQueue. case_match; [by apply bindCallback_inv|done].
Qed.

Lemma bindQueue_evolves E sid message stream st :
  conns_evolve st (_bindQueue E sid message stream st).
Proof.
  unfold _bindQueue. case_match; [by apply bindCallback_evolves|by apply conns_evolve_same].
Qed.

Lemma authzCallback_inv E sid message err st :
  node_inv st -> node_inv (authzCallback E sid message err st).
Proof.
  intros Hinv. unfold authzCallback. destruct err; [done|].
  destruct (connections st !! sid) as [ci|] eqn:Hci; [|done].
  case_bool_decide as Hin; [by apply finish_inv|].
  apply bindQueue_inv. revert Hinv.
  eapply (node_inv_upd _ _ sid); [done|done|].
  intros ci' Hci' (Hnd&?&?). rewrite Hci in Hci'. injection Hci' as <-.
  repeat split; cbn; auto.
  apply NoDup_app. repeat split; [done| |apply NoDup_singleton].
  intros x Hx ->%list_elem_of_singleton. done.
Qed.

Lemma authzCallback_evolves E sid message err st :
  conns_evolve st (authzCallback E sid message err st).
Proof.
  unfold authzCallback. destruct err; [by apply conns_evolve_same|].
  destruct (connections st !! sid) as [ci|] eqn:Hci; [|apply conns_evolve_refl].
  case_bool_decide as Hin; [by apply finish_evolves|].
  eapply conns_evolve_trans; [|apply bindQueue_evolves].
  eapply (conns_evolve_alter _ _ sid); [done|].
  intros ci' Hci'. rewrite Hci in Hci'. injection Hci' as <-.
  unfold evolves; cbn. repeat split; auto. intros s Hs. apply elem_of_app. by left.
Qed.

Lemma getPrincipalCallback_inv E sid message res st :
  node_inv st -> node_inv (getPrincipalCallback E sid message res st).
Proof.
  unfold getPrincipalCallback. destruct res as [err|u]; [apply close_write_inv|].
  case_match.
  - eapply (node_inv_upd _ _ sid); [nsimpl; by rewrite alter_alter_eq|done|].
    intros ci _ (?&?&?). repeat split; cbn; auto. intros _ [=].
  - eapply (node_inv_upd _ _ sid); [nsimpl; by rewrite alter_alter_eq|done|].
    intros ci _ (?&H3&H4). cbn.
    destruct (authenticationTimeout ci) eqn:Ht; repeat split; cbn; rewrite ?Ht;
      auto; try done; try (intros; specialize (H4 eq_refl); congruence).
Qed.

Lemma getPrincipalCallback_evolves E sid message res st :
  conns_evolve st (getPrincipalCallback E sid message res st).
Proof.
  unfold getPrincipalCallback. destruct res as [err|u]; [apply close_write_evolves|].
  case_match.
  - eapply (conns_evolve_alter _ _ sid); [nsimpl; by rewrite alter_alter_eq|].
    intros ci _. unfold evolves; cbn; auto.
  - eapply (conns_evolve_alter _ _ sid); [nsimpl; by rewrite alter_alter_eq|].
    intros ci _. unfold evolves; cbn.
    destruct (authenticationTimeout ci) eqn:Ht; repeat split; cbn; rewrite ?Ht;
      auto; try done.
Qed.

Lemma timeoutFires_conns sid st ci :
  connections st !! sid = Some ci ->
  connections (authenticationTimeoutCallback sid (updConn sid (withTimeout TimerFired) st)) =
    alter (fun ci => match ctx ci with
                     | Some _ => withTimeout TimerFired ci
                     | None => withSocketClosed (withTimeout TimerFired ci)
                     end) sid (connections st)
  /\ connectionInfosPerStream
       (authenticationTimeoutCallback sid (updConn sid (withTimeout TimerFired) st)) =
     connectionInfosPerStream st.
Proof.
  intros Hci. unfold authenticationTimeoutCallback. nsimpl.
  rewrite lookup_alter_eq, Hci. cbn.
  destruct (ctx ci) eqn:Hctx; nsimpl; split; try done.
  - apply map_eq. intros i. destruct (decide (sid = i)) as [<-|Hne].
    + rewrite !lookup_alter_eq, Hci. cbn. by rewrite Hctx.
    + by rewrite !lookup_alter_ne.
  - rewrite alter_alter_eq. apply map_eq. intros i. destruct (decide (sid = i)) as [<-|Hne].
    + rewrite !lookup_alter_eq, Hci. cbn. by rewrite Hctx.
    + by rewrite !lookup_alter_ne.
Qed.

Lemma step_inv E st ev st' : node_inv st -> step E st ev = Some st' -> node_inv st'.
Proof.
  intros Hinv Hstep. destruct ev; cbn in Hstep.
  - destruct (connections st !! sid) eqn:Hsid; [done|]. injection Hstep as <-.
    destruct Hinv as [H1 H2]. split; [|done]. intros sid' ci'. nsimpl.
    destruct (decide (sid = sid')) as [<-|Hne].
    + rewrite lookup_insert_eq. intros [= <-].
      repeat split; cbn; first [apply NoDup_nil_2 | by intros [? [=]] | done].
    + rewrite lookup_insert_ne by done. apply H1.
  - destruct (connections st !! sid) as [ci|]; [|done].
    destruct (socketClosed ci); [done|]. by eapply onData_inv.
  - destruct (connections st !! sid) as [ci|]; [|done].
    destruct (closeEmitted ci); [done|]. injection Hstep as <-.
    apply onClose_inv. revert Hinv.
    apply (node_inv_upd _ _ sid withCloseEmitted); [done|done|].
    intros ci' _ (?&?&?). repeat split; cbn; auto. intros _ [=].
  - destruct (connections st !! sid) as [ci|] eqn:Hci; [|done].
    destruct (authenticationTimeout ci) eqn:Ht; try done. injection Hstep as <-.
    destruct (timeoutFires_conns sid st ci Hci) as [Hc Hp].
    revert Hinv. eapply (node_inv_upd _ _ sid); [apply Hc|apply Hp|].
    intros ci' Hci' (?&H3&H4). rewrite Hci in Hci'. injection Hci' as <-.
    destruct (ctx ci) eqn:Hctx; repeat split; cbn; auto; try done.
    { intros _ Hcl. rewrite H3 in Ht; [done|by eexists|done]. }
    intros _. destruct (socketClosed ci) eqn:Hcl; [done|].
    rewrite H3 in Ht; [done|by eexists|done].
  - repeat case_match; try done. injection Hstep as <-.
    apply getPrincipalCallback_inv. revert Hinv. by apply node_inv_same.
  - repeat case_match; try done. injection Hstep as <-.
    apply authzCallback_inv. revert Hinv. by apply node_inv_same.
  - repeat case_match; try done; injection Hstep as <-; revert Hinv; by apply node_inv_same.
  - repeat case_match; try done. injection Hstep as <-.
    apply bindCallback_inv. revert Hinv. by apply node_inv_same.
  - repeat case_match; try done; injection Hstep as <-; revert Hinv; by apply node_inv_same.
  - repeat case_match; try done. injection Hstep as <-.
    destruct Hinv as [Hc1 Hc2]. split; [done|]. nsimpl. intros s l.
    destruct (decide (stream = s)) as [<-|Hne];
      [by rewrite lookup_delete_eq|rewrite lookup_delete_ne by done; apply Hc2].
  - repeat case_match; try done. injection Hstep as <-.
    eapply node_inv_same; [apply transformCallback_same|]. revert Hinv. by apply node_inv_same.
  - eapply node_inv_same; [by eapply handlePushActivity_same|done].
  - injection Hstep as <-. eapply node_inv_same; [apply onRoutedActivities_same|done].
  - injection Hstep as <-. eapply node_inv_same; [apply onDeliveredActivities_same|done].
  - eapply node_inv_same; [by eapply handlePushActivity_same|done].
Qed.

Lemma step_evolves E st ev st' : step E st ev = Some st' -> conns_evolve st st'.
Proof.
  intros Hstep. destruct ev; cbn in Hstep.
  - destruct (connections st !! sid) eqn:Hsid; [done|]. injection Hstep as <-.
    intros sid' ci' Hci'. exists ci'. split; [|apply evolves_refl]. nsimpl.
    rewrite lookup_insert_ne; [done|]. intros ->. congruence.
  - destruct (connections st !! sid) as [ci|]; [|done].
    destruct (socketClosed ci); [done|]. by eapply onData_evolves.
  - destruct (connections st !! sid) as [ci|]; [|done].
    destruct (closeEmitted ci); [done|]. injection Hstep as <-.
    apply (conns_evolve_alter _ _ sid withCloseEmitted); [by rewrite onClose_conns|].
    intros ci' _. unfold evolves; cbn; auto.
  - destruct (connections st !! sid) as [ci|] eqn:Hci; [|done].
    destruct (authenticationTimeout ci) eqn:Ht; try done. injection Hstep as <-.
    destruct (timeoutFires_conns sid st ci Hci) as [Hc Hp].
    eapply (conns_evolve_alter _ _ sid); [apply Hc|].
    intros ci' Hci'. rewrite Hci in Hci'. injection Hci' as <-.
    unfold evolves. destruct (ctx ci) eqn:Hctx; cbn; rewrite ?Hctx; repeat split; auto;
      congruence.
  - repeat case_match; try done. injection Hstep as <-.
    eapply conns_evolve_trans; [|apply getPrincipalCallback_evolves]. by apply conns_evolve_same.
  - repeat case_match; try done. injection Hstep as <-.
    eapply conns_evolve_trans; [|apply authzCallback_evolves]. by apply conns_evolve_same.
  - repeat case_match; try done; injection Hstep as <-; by apply conns_evolve_same.
  - repeat case_match; try done. injection Hstep as <-.
    eapply conns_evolve_trans; [|apply bindCallback_evolves]. by apply conns_evolve_same.
  - repeat case_match; try done; injection Hstep as <-; by apply conns_evolve_same.
  - repeat case_match; try done. injection Hstep as <-. by apply conns_evolve_same.
  - repeat case_match; try done. injection Hstep as <-.
    eapply conns_evolve_trans; [|apply conns_evolve_same, transformCallback_same].
    by apply conns_evolve_same.
  - apply conns_evolve_same. by eapply handlePushActivity_same.
  - injection Hstep as <-. apply conns_evolve_same, onRoutedActivities_same.
  - injection Hstep as <-. apply conns_evolve_same, onDeliveredActivities_same.
  - apply conns_evolve_same. by eapply handlePushActivity_same.
Qed.

Lemma run_inv E evs st st' : node_inv st -> run E st evs = Some st' -> node_inv st'.
Proof.
  revert st. induction evs as [|ev evs IH]; intros st Hinv; cbn.
  - by intros [= <-].
  - destruct (step E st ev) as [st1|] eqn:Hstep; [|done].
    apply IH. by eapply step_inv.
Qed.

Lemma run_evolves E evs st st' : run E st evs = Some st' -> conns_evolve st st'.
Proof.
  revert st. induction evs as [|ev evs IH]; intros st; cbn.
  - intros [= <-]. apply conns_evolve_refl.
  - destruct (step E st ev) as [st1|] eqn:Hstep; [|done].
    intros H. eapply conns_evolve_trans; [by eapply step_evolves|by apply IH].
Qed.

Lemma idle_inv : node_inv idle.
Proof. split; intros ? ?; cbn; by rewrite lookup_empty. Qed.

Lemma reachable_inv E st : reachable E st -> node_inv st.
Proof. intros [evs H]. eapply run_inv; [apply idle_inv|done]. Qed.

Lemma run_app E evs1 evs2 st :
  run E st (evs1 ++ evs2) =
    match run E st evs1 with
    | Some st1 => run E st1 evs2
    | None => None
    end.
Proof.
  revert st. induction evs1 as [|ev evs1 IH]; intros st; cbn; [done|].
  destruct (step E st ev); [apply IH|done].
Qed.

Lemma reachable_run E st evs st' : reachable E st -> run E st evs = Some st' -> reachable E st'.
Proof.
  intros [evs0 H0] H. exists (evs0 ++ evs). by rewrite run_app, H0.
Qed.

(** ** Authentication *)

Lemma ctx_never_regresses E evs st st' sid :
  run E st evs = Some st' -> is_Some (ctxOf st sid) -> is_Some (ctxOf st' sid).
Proof.
  intros Hrun. unfold ctxOf. destruct (connections st !! sid) as [ci|] eqn:Hci.
  - destruct (run_evolves E evs st st' Hrun sid ci Hci) as (ci' & -> & _ & H & _). done.
  - by intros [? [=]].
Qed.

(** The context is stored on the connection before the signature is
    checked, and stays there when the check fails. *)
Lemma getPrincipalCallback_invalid_signature E st sid ci message u :
  connections st !! sid = Some ci ->
  verifyExpiringResourceSignature E
    (mkContext (getTenant E (prop (prop message "payload") "tenantAlias")) u)
    (prop (prop message "payload") "userId")
    (prop (prop (prop message "payload") "signature") "expires")
    (prop (prop (prop message "payload") "signature") "signature") = false ->
  ctxOf (getPrincipalCallback E sid message (inr u) st) sid =
    Some (mkContext (getTenant E (prop (prop message "payload") "tenantAlias")) u)
  /\ effects (getPrincipalCallback E sid message (inr u) st) =
       effects st ++ [SocketWrite sid (Response (prop message "id")
                                         (Some (Error 401 "Invalid signature")));
                      SocketClose sid].
Proof.
  intros Hci Hv. unfold getPrincipalCallback, ctxOf. rewrite Hv. cbn [negb]. nsimpl.
  rewrite alter_alter_eq, lookup_alter_eq, Hci. cbn. by rewrite <- app_assoc.
Qed.

(** C2, at the failing input. A socket opens and sends an authentication
    frame whose signature does not verify. The client gets 401 and the
    socket is closed, but the connection now holds a context: it counts as
    authenticated for the first-frame test and for the timeout callback,
    which stays silent when it fires. *)
Theorem invalid_signature_attaches_context :
  exists st,
    run sampleCollaborators idle
      [SocketOpens 1; SocketData 1 (Some (authenticationFrame (JNum 1) "forged"));
       PrincipalReturns 0 (inr "alice")] = Some st
    /\ ctxOf st 1 = Some (mkContext "cam" "alice")
    /\ effects st =
         [GetPrincipal 1 (JStr "u:cam:abc");
          SocketWrite 1 (Response (JNum 1) (Some (Error 401 "Invalid signature")));
          SocketClose 1]
    /\ timeoutOf st 1 = Some (TimerArmed 5000)
    /\ (effects <$> step sampleCollaborators st (TimeoutFires 1)) = Some (effects st).
Proof. eexists. split; [vm_compute; reflexivity|]. vm_compute. auto. Qed.

(** ** The authentication timeout *)

Lemma timer_cleared_stays E evs st st' sid :
  timeoutOf st sid = Some TimerCleared ->
  run E st evs = Some st' ->
  timeoutOf st' sid = Some TimerCleared.
Proof.
  unfold timeoutOf. intros Ht Hrun.
  destruct (connections st !! sid) as [ci|] eqn:Hci; [|done].
  injection Ht as Ht.
  destruct (run_evolves E evs st st' Hrun sid ci Hci) as (ci' & -> & _ & _ & H & _).
  cbn. by rewrite H.
Qed.

Lemma open_armed_has_no_context E st sid ci d :
  reachable E st ->
  connections st !! sid = Some ci ->
  authenticationTimeout ci = TimerArmed d ->
  socketClosed ci = false ->
  ctx ci = None.
Proof.
  intros Hr Hci Ht Hcl. destruct (reachable_inv E st Hr) as [H1 _].
  destruct (H1 sid ci Hci) as (_ & H3 & _).
  destruct (ctx ci) eqn:Hctx; [|done].
  rewrite H3 in Ht; [done|by eexists|done].
Qed.

(** C3. The timer is armed with 5000 ms when the socket opens. When it fires
    on a connection without a context, the timeout error is written and the
    socket is closed; in a reachable state every open connection whose timer
    is still armed is such a connection. A successful authentication clears
    the timer and then writes the acknowledgment. Once cleared, the timer
    stays cleared in every later state and cannot fire. *)
Theorem authentication_timeout E :
  (forall st sid st',
      step E st (SocketOpens sid) = Some st' ->
      timeoutOf st' sid = Some (TimerArmed 5000) /\ ctxOf st' sid = None)
  /\ (forall st sid ci d,
         connections st !! sid = Some ci ->
         authenticationTimeout ci = TimerArmed d ->
         ctx ci = None ->
         exists st',
           step E st (TimeoutFires sid) = Some st'
           /\ effects st' = effects st ++
                [SocketWrite sid
                   (Response (JNum 0)
                      (Some (Error 400
                         "Authentication should happen within 5 seconds after opening the socket")));
                 SocketClose sid]
           /\ (socketClosed <$> connections st' !! sid) = Some true)
  /\ (forall st sid ci d,
         reachable E st ->
         connections st !! sid = Some ci ->
         authenticationTimeout ci = TimerArmed d ->
         socketClosed ci = false ->
         ctx ci = None)
  /\ (forall st k sid message u ci d,
         pendingCalls st !! k = Some (PPrincipal sid message) ->
         connections st !! sid = Some ci ->
         authenticationTimeout ci = TimerArmed d ->
         verifyExpiringResourceSignature E
           (mkContext (getTenant E (prop (prop message "payload") "tenantAlias")) u)
           (prop (prop message "payload") "userId")
           (prop (prop (prop message "payload") "signature") "expires")
           (prop (prop (prop message "payload") "signature") "signature") = true ->
         exists st',
           step E st (PrincipalReturns k (inr u)) = Some st'
           /\ effects st' = effects st ++
                [ClearTimeout sid; SocketWrite sid (Response (prop message "id") None)]
           /\ timeoutOf st' sid = Some TimerCleared
           /\ is_Some (ctxOf st' sid))
  /\ (forall st sid evs st',
         timeoutOf st sid = Some TimerCleared ->
         run E st evs = Some st' ->
         timeoutOf st' sid = Some TimerCleared
         /\ step E st' (TimeoutFires sid) = None).
Proof.
  repeat split.
  - cbn in H. destruct (connections st !! sid); [done|]. injection H as <-.
    unfold timeoutOf. nsimpl. by rewrite lookup_insert_eq.
  - cbn in H. destruct (connections st !! sid); [done|]. injection H as <-.
    unfold ctxOf. nsimpl. by rewrite lookup_insert_eq.
  - intros st sid ci d Hci Ht Hctx. cbn. rewrite Hci, Ht.
    eexists. split; [reflexivity|].
    unfold authenticationTimeoutCallback. nsimpl. rewrite lookup_alter_eq, Hci. cbn.
    rewrite Hctx. nsimpl. rewrite alter_alter_eq, lookup_alter_eq, Hci. cbn.
    by rewrite <- app_assoc.
  - intros st sid ci d. apply open_armed_has_no_context.
  - intros st k sid message u ci d Hk Hci Ht Hv. cbn. rewrite Hk.
    eexists. split; [reflexivity|].
    unfold getPrincipalCallback, timeoutOf, ctxOf. rewrite Hv. cbn [negb]. nsimpl.
    rewrite alter_alter_eq, lookup_alter_eq, Hci. cbn. rewrite Ht. cbn.
    rewrite <- app_assoc. repeat split. by eexists.
  - by eapply timer_cleared_stays.
  - pose proof (timer_cleared_stays E evs st st' sid H H0) as Ht.
    unfold timeoutOf in Ht. cbn. destruct (connections st' !! sid) as [ci|]; [|done].
    injection Ht as ->. done.
Qed.

Lemma authentication_timeout_witness :
  exists st',
    step sampleCollaborators
      (setPending (insert 0%nat (PPrincipal 1 (authenticationFrame (JNum 1) "valid")))
         (registerConnection 1 idle))
      (PrincipalReturns 0 (inr "alice")) = Some st'
    /\ effects st' = [ClearTimeout 1; SocketWrite 1 (Response (JNum 1) None)]
    /\ timeoutOf st' 1 = Some TimerCleared
    /\ is_Some (ctxOf st' 1).
Proof.
  destruct (authentication_timeout sampleCollaborators) as (_ & _ & _ & H & _).
  apply (H (setPending (insert 0%nat (PPrincipal 1 (authenticationFrame (JNum 1) "valid")))
              (registerConnection 1 idle))
           0%nat 1%nat (authenticationFrame (JNum 1) "valid") "alice"
           (newConnectionInfo 1) 5000); reflexivity.
Defined.

(** ** Closing a socket *)

Lemma spliceSocket_length_in sid l :
  sid ∈ l -> S (length (spliceSocket sid l)) = length l.
Proof.
  induction l as [|x l IH]; cbn; [by intros ?%elem_of_nil|].
  destruct (Nat.eqb_spec x sid) as [->|Hne]; [done|].
  intros [?|Hin]%elem_of_cons; [congruence|]. cbn. by rewrite IH.
Qed.

Lemma single_subscriber sid (l : list nat) : sid ∈ l -> (length l = 1%nat <-> l = [sid]).
Proof.
  intros Hin. split; [|by intros ->].
  destruct l as [|x [|y l]]; cbn; try done.
  apply list_elem_of_singleton in Hin as ->. done.
Qed.

(** Whether the loop of the ['close'] handler unbinds the stream. *)
Lemma closeStream_effects sid st stream :
  effects (closeStream sid st stream) =
    effects st ++
      match connectionInfosPerStream st !! stream with
      | Some l => if Nat.eqb (length l) 1 then [UnbindQueueFromExchange stream] else []
      | None => []
      end.
Proof.
  unfold closeStream. destruct (connectionInfosPerStream st !! stream) as [l|].
  - destruct (Nat.eqb (length l) 1); nsimpl; [done|by rewrite app_nil_r].
  - by rewrite app_nil_r.
Qed.

Lemma closeStream_lists sid st stream s :
  connectionInfosPerStream (closeStream sid st stream) !! s =
    match connectionInfosPerStream st !! s with
    | Some l =>
        if bool_decide (s = stream) && negb (Nat.eqb (length l) 1)
        then Some (spliceSocket sid l) else Some l
    | None => None
    end.
Proof.
  unfold closeStream. case_bool_decide as Hs.
  - subst s. destruct (connectionInfosPerStream st !! stream) as [l|] eqn:Hl; [|by rewrite Hl].
    destruct (Nat.eqb (length l) 1); nsimpl; [by rewrite Hl|by rewrite lookup_insert_eq].
  - destruct (connectionInfosPerStream st !! stream) as [l|] eqn:Hl.
    + destruct (Nat.eqb (length l) 1); nsimpl.
      * by destruct (connectionInfosPerStream st !! s).
      * rewrite lookup_insert_ne by done. by destruct (connectionInfosPerStream st !! s).
    + by destruct (connectionInfosPerStream st !! s).
Qed.

Lemma closeStreams_fold sid ss : forall st,
  NoDup ss ->
  effects (foldl (closeStream sid) st ss) =
    effects st ++
      map UnbindQueueFromExchange
        (List.filter (fun s => match connectionInfosPerStream st !! s with
                               | Some l => Nat.eqb (length l) 1
                               | None => false
                               end) ss)
  /\ forall s,
       connectionInfosPerStream (foldl (closeStream sid) st ss) !! s =
         match connectionInfosPerStream st !! s with
         | Some l =>
             if bool_decide (s ∈ ss) && negb (Nat.eqb (length l) 1)
             then Some (spliceSocket sid l) else Some l
         | None => None
         end.
Proof.
  induction ss as [|x ss IH]; intros st Hnd.
  - cbn. split; [by rewrite app_nil_r|]. intros s.
    destruct (connectionInfosPerStream st !! s); [|done]. by rewrite bool_decide_eq_false_2 by apply not_elem_of_nil.
  - apply NoDup_cons in Hnd as [Hx Hnd]. cbn [foldl].
    destruct (IH (closeStream sid st x) Hnd) as [He Hl]. split.
    + rewrite He, closeStream_effects, <- app_assoc. f_equal. cbn [List.filter].
      assert (Hfilter :
        List.filter (fun s => match connectionInfosPerStream (closeStream sid st x) !! s with
                              | Some l => Nat.eqb (length l) 1
                              | None => false
                              end) ss =
        List.filter (fun s => match connectionInfosPerStream st !! s with
                              | Some l => Nat.eqb (length l) 1
                              | None => false
                              end) ss).
      { apply List.filter_ext_in. intros s Hs%list_elem_of_In.
        rewrite closeStream_lists. rewrite bool_decide_eq_false_2 by (intros ->; done).
        by destruct (connectionInfosPerStream st !! s). }
      rewrite Hfilter.
      destruct (connectionInfosPerStream st !! x) as [l|]; [|done].
      by destruct (Nat.eqb (length l) 1).
    + intros s. rewrite Hl, closeStream_lists.
      destruct (connectionInfosPerStream st !! s) as [l|] eqn:Hs; [|done].
      destruct (decide (s = x)) as [->|Hne].
      * rewrite (bool_decide_eq_true_2 (x = x)) by done.
        rewrite (bool_decide_eq_false_2 (x ∈ ss)) by done.
        rewrite (bool_decide_eq_true_2 (x ∈ x :: ss)) by apply list_elem_of_here.
        cbn. by destruct (Nat.eqb (length l) 1).
      * rewrite (bool_decide_eq_false_2 (s = x)) by done. cbn.
        destruct (decide (s ∈ ss)) as [Hin|Hin].
        -- rewrite !bool_decide_eq_true_2; [done|by apply list_elem_of_further|done].
        -- rewrite !bool_decide_eq_false_2; [done| |done].
           intros [?|?]%elem_of_cons; done.
Qed.

(** The binding and the array are not in step between the moment the
    broker has bound the routing key and the moment the callback of the bind
    runs: the binding is there and no array is. *)
Lemma binding_precedes_registry :
  ~ (forall st, reachable sampleCollaborators st ->
       forall stream,
         stream ∈ bindings st <->
         exists l, connectionInfosPerStream st !! stream = Some l /\ l <> []).
Proof.
  intros H.
  pose (evs := authenticatedEvents 1 0 ++
     [SocketData 1 (Some (subscribeFrame (JNum 2) "c:cam:x" "activity" JUndefined));
      AuthzReturns 1 None; BrokerBinds 2 None]).
  destruct (run sampleCollaborators idle evs) as [st|] eqn:Hrun;
    [|vm_compute in Hrun; discriminate Hrun].
  assert (Hreach : reachable sampleCollaborators st) by (by exists evs).
  destruct (H st Hreach "c:cam:x#activity") as [H1 _].
  vm_compute in Hrun. injection Hrun as <-.
  destruct H1 as (l & Hl & _).
  - apply (bool_decide_unpack _). vm_compute. exact I.
  - vm_compute in Hl. discriminate Hl.
Qed.

(** What the ['close'] handler does, whoever is in the arrays: it unbinds
    exactly the recorded streams whose array holds one connection, and
    splices the closing socket out of the other arrays. *)
Lemma onClose_by_length st sid ci :
  connections st !! sid = Some ci ->
  NoDup (streams ci) ->
  effects (onClose sid st) =
    effects st ++
      map UnbindQueueFromExchange
        (List.filter (fun s => match connectionInfosPerStream st !! s with
                               | Some l => Nat.eqb (length l) 1
                               | None => false
                               end) (streams ci))
  /\ forall s,
       connectionInfosPerStream (onClose sid st) !! s =
         match connectionInfosPerStream st !! s with
         | Some l =>
             if bool_decide (s ∈ streams ci) && negb (Nat.eqb (length l) 1)
             then Some (spliceSocket sid l) else Some l
         | None => None
         end.
Proof.
  intros Hci Hnd. unfold onClose. rewrite Hci. by apply closeStreams_fold.
Qed.

(** C4, at the failing input. The ['close'] handler decides by the length
    of the array alone: it issues an unbind for every stream the closing
    connection recorded whose array holds exactly one connection, without
    looking whether that connection is the closing one, and the callback of
    the unbind deletes the array. A connection records a stream before its
    bind is issued and is put in the array when the bind returns, so the
    connection in the array may be another one. Sockets 1 and 2 authenticate
    and subscribe to a stream nobody holds; two binds are issued, and the
    first returns: the array holds socket 1. Socket 2 closes. The handler
    unbinds the stream while socket 1, open, acknowledged and alone in the
    array, remains subscribed; the broker drops the binding and the callback
    deletes the array, so a message for the stream is pushed to nobody. No
    call has failed in this run. Apart from this, the binding and the array
    are not in step between a broker call and its callback. *)
Theorem close_unbinds_under_another_subscriber :
  (forall st sid ci stream other,
      connections st !! sid = Some ci ->
      NoDup (streams ci) ->
      stream ∈ streams ci ->
      connectionInfosPerStream st !! stream = Some [other] ->
      UnbindQueueFromExchange stream ∈ effectsFrom (length (effects st)) (onClose sid st)
      /\ connectionInfosPerStream (onClose sid st) !! stream = Some [other])
  /\ (exists st st' st'',
        run sampleCollaborators idle
          (authenticatedEvents 1 0 ++ authenticatedEvents 2 1 ++
           [SocketData 1 (Some (subscribeFrame (JNum 2) "c:cam:x" "activity" JUndefined));
            AuthzReturns 2 None;
            SocketData 2 (Some (subscribeFrame (JNum 2) "c:cam:x" "activity" JUndefined));
            AuthzReturns 4 None;
            BrokerBinds 3 None; BindReturns 3]) = Some st
        /\ effectsFrom 6 st =
             [AuthzHandler 1 (Some sampleContext) (JStr "c:cam:x") JUndefined;
              BindQueueToExchange "c:cam:x#activity";
              AuthzHandler 2 (Some sampleContext) (JStr "c:cam:x") JUndefined;
              BindQueueToExchange "c:cam:x#activity";
              SocketWrite 1 (Response (JNum 2) None)]
        /\ connectionInfosPerStream st !! "c:cam:x#activity" = Some [1%nat]
        /\ streamsOf st 1 = ["c:cam:x#activity"]
        /\ transformersOf st 1 "c:cam:x#activity" = [JStr "internal"]
        /\ streamsOf st 2 = ["c:cam:x#activity"]
        /\ pendingCalls st !! 5%nat
             = Some (PBind 2 (subscribeFrame (JNum 2) "c:cam:x" "activity" JUndefined)
                       "c:cam:x#activity" None)
        /\ bool_decide ("c:cam:x#activity" ∈ bindings st) = true
        /\ run sampleCollaborators st [SocketCloses 2; BrokerUnbinds 6 None; UnbindReturns 6]
             = Some st'
        /\ effectsFrom (length (effects st)) st' = [UnbindQueueFromExchange "c:cam:x#activity"]
        /\ (socketClosed <$> connections st' !! 1%nat) = Some false
        /\ streamsOf st' 1 = ["c:cam:x#activity"]
        /\ connectionInfosPerStream st' !! "c:cam:x#activity" = None
        /\ bool_decide ("c:cam:x#activity" ∈ bindings st') = false
        /\ step sampleCollaborators st' (BrokerDelivers sampleActivity) = Some st''
        /\ effects st'' = effects st')
  /\ ~ (forall st, reachable sampleCollaborators st ->
          forall stream,
            stream ∈ bindings st <->
            exists l, connectionInfosPerStream st !! stream = Some l /\ l <> []).
Proof.
  split; [|split].
  - intros st sid ci stream other Hci Hnd Hin Hl.
    destruct (onClose_by_length st sid ci Hci Hnd) as [He Hs]. split.
    + unfold effectsFrom. rewrite He, drop_app_length.
      apply list_elem_of_In, in_map, filter_In. split; [by apply list_elem_of_In|].
      by rewrite Hl.
    + rewrite Hs, Hl. cbn. by rewrite andb_false_r.
  - do 3 eexists.
    split; [vm_compute; reflexivity|].
    do 7 (split; [vm_compute; reflexivity|]).
    split; [vm_compute; reflexivity|].
    do 5 (split; [vm_compute; reflexivity|]).
    split; [vm_compute; reflexivity|].
    vm_compute; reflexivity.
  - exact binding_precedes_registry.
Qed.

(** ** The completion callback of the dispatch *)

Lemma transformCallback_failure job sid data transformerType e st :
  transformCallback job sid data transformerType (inl e) st = st.
Proof. reflexivity. Qed.

(** With no array for the stream nothing is started: no call is made, none
    is left pending, and nothing remains that could call the completion
    callback. *)
Lemma handlePushActivity_nobody E immediate data st :
  connectionInfosPerStream st
    !! createActivityStreamId E (JStr (ra_resourceId data)) (JStr (ra_streamType data)) = None ->
  exists st',
    _handlePushActivity E immediate data st = Some st'
    /\ effects st' = effects st
    /\ pendingCalls st' = pendingCalls st.
Proof.
  intros H. unfold _handlePushActivity. rewrite H. cbn. by eexists.
Qed.

(** C6, at the failing inputs. The callback of a failed transformation
    returns before the counter is decremented, and the counter is only
    looked at in that callback. With nobody subscribed to the stream nothing
    is started and the completion callback is not called; with two
    subscribers of which one transformation fails, the other frame is
    written, the counter stays at 1, no call is left pending and the
    completion callback has not been called. *)
Theorem push_callback_is_lost :
  (exists st,
      step sampleCollaborators idle (BrokerDelivers sampleActivity) = Some st
      /\ effects st = []
      /\ pendingCalls st = ∅)
  /\ (exists st,
        run sampleCollaborators twoSubscribers
          [BrokerDelivers sampleActivity;
           TransformReturns 7 (inl (Error 500 "transformation failed"));
           TransformReturns 8 (inr [JStr "transformed"])] = Some st
        /\ effectsFrom (length (effects twoSubscribers)) st =
             [TransformActivities 0 1 (Some sampleContext) [JStr "a1"] (JStr "internal");
              TransformActivities 0 2 (Some sampleContext) [JStr "a1"] (JStr "internal");
              SocketWrite 2
                (PushFrame "c:cam:x" "activity" [JStr "transformed"] (JStr "internal") None)]
        /\ todo st !! 0%nat = Some 1
        /\ pendingCalls st = ∅).
Proof.
  split; eexists; (split; [vm_compute; reflexivity|]); vm_compute; auto.
Qed.

(** ** A bind that fails *)

Lemma bindCallback_failure E sid message stream e st :
  connections (bindCallback E sid message stream (Some e) st) = connections st
  /\ connectionInfosPerStream (bindCallback E sid message stream (Some e) st) =
       connectionInfosPerStream st.
Proof. by split. Qed.

(** C7, at the failing input. The stream is pushed on [streams] before the
    bind; when the bind fails the error is relayed and the stream stays
    recorded. A second subscribe to the same stream then finds it recorded,
    answers with success without any bind, and the connection is in no
    per-stream array: a message for the stream is pushed to nobody. *)
Theorem failed_bind_leaves_stream_recorded :
  exists st st2 st3,
    run sampleCollaborators idle
      (authenticatedEvents 1 0 ++
       [SocketData 1 (Some (subscribeFrame (JNum 2) "c:cam:x" "activity" JUndefined));
        AuthzReturns 1 None;
        BrokerBinds 2 (Some (Error 500 "bind failed"));
        BindReturns 2]) = Some st
    /\ effectsFrom 3 st =
         [AuthzHandler 1 (Some sampleContext) (JStr "c:cam:x") JUndefined;
          BindQueueToExchange "c:cam:x#activity";
          SocketWrite 1 (Response (JNum 2) (Some (Error 500 "bind failed")))]
    /\ streamsOf st 1 = ["c:cam:x#activity"]
    /\ connectionInfosPerStream st !! "c:cam:x#activity" = None
    /\ run sampleCollaborators st
         [SocketData 1 (Some (subscribeFrame (JNum 3) "c:cam:x" "activity" JUndefined));
          AuthzReturns 3 None] = Some st2
    /\ effectsFrom (length (effects st)) st2 =
         [AuthzHandler 1 (Some sampleContext) (JStr "c:cam:x") JUndefined;
          SocketWrite 1 (Response (JNum 3) None)]
    /\ transformersOf st2 1 "c:cam:x#activity" = [JStr "internal"]
    /\ connectionInfosPerStream st2 !! "c:cam:x#activity" = None
    /\ step sampleCollaborators st2 (BrokerDelivers sampleActivity) = Some st3
    /\ effects st3 = effects st2.
Proof.
  do 3 eexists.
  split; [vm_compute; reflexivity|].
  do 3 (split; [vm_compute; reflexivity|]).
  split; [vm_compute; reflexivity|].
  do 3 (split; [vm_compute; reflexivity|]).
  split; [vm_compute; reflexivity|].
  vm_compute; reflexivity.
Qed.

(** The stream that a failed bind left recorded also misleads the ['close']
    handler. Socket 1 records the stream through a bind that fails; socket 2
    subscribes to it with success; socket 1 closes. The array of the stream
    holds one connection, socket 2, so the handler unbinds the stream, and the
    callback of the unbind deletes the array that socket 2 is in. *)
Example stale_stream_unbinds_other_subscriber :
  exists st st',
    run sampleCollaborators idle
      (authenticatedEvents 1 0 ++ authenticatedEvents 2 1 ++
       [SocketData 1 (Some (subscribeFrame (JNum 2) "c:cam:x" "activity" JUndefined));
        AuthzReturns 2 None; BrokerBinds 3 (Some (Error 500 "bind failed")); BindReturns 3;
        SocketData 2 (Some (subscribeFrame (JNum 2) "c:cam:x" "activity" JUndefined));
        AuthzReturns 4 None; BrokerBinds 5 None; BindReturns 5]) = Some st
    /\ connectionInfosPerStream st !! "c:cam:x#activity" = Some [2%nat]
    /\ run sampleCollaborators st [SocketCloses 1; BrokerUnbinds 6 None; UnbindReturns 6]
         = Some st'
    /\ effectsFrom (length (effects st)) st' = [UnbindQueueFromExchange "c:cam:x#activity"]
    /\ connectionInfosPerStream st' !! "c:cam:x#activity" = None
    /\ streamsOf st' 2 = ["c:cam:x#activity"].
Proof.
  do 2 eexists.
  split; [vm_compute; reflexivity|].
  split; [vm_compute; reflexivity|].
  split; [vm_compute; reflexivity|].
  vm_compute. auto.
Qed.

(** ** The event listeners *)

Lemma isAggregation_spec phase : isAggregation phase = true <-> phase = Some "aggregation".
Proof.
  destruct phase as [p|]; cbn; [|by split].
  destruct (String.eqb_spec p "aggregation") as [->|Hne]; split; try done.
  intros [= ->]. done.
Qed.

Lemma foldl_emit {A} (g : A -> list effect) (l : list A) : forall st,
  effects (foldl (fun s a => foldl (fun s' e => emit e s') s (g a)) st l) =
    effects st ++ flat_map g l.
Proof.
  induction l as [|a l IH]; intros st; cbn [foldl flat_map].
  - by rewrite app_nil_r.
  - rewrite IH, app_assoc. f_equal.
    generalize (g a). intros es. revert st.
    induction es as [|e es IHes]; intros st; cbn [foldl].
    + by rewrite app_nil_r.
    + rewrite IHes. cbn. by rewrite <- app_assoc.
Qed.

Lemma foldl_ext' {A B} (f g : B -> A -> B) (l : list A) (b : B) :
  (forall b a, f b a = g b a) -> foldl f b l = foldl g b l.
Proof.
  intros H. revert b. induction l as [|a l IH]; intros b; cbn; [done|].
  by rewrite H, IH.
Qed.

(** What the routing listener publishes, in order. *)
Lemma onRoutedActivities_effects E routed st :
  effects (onRoutedActivities E routed st) =
    effects st ++
      flat_map (fun '(resourceId, streamTypeActivities) =>
        flat_map (fun '(streamType, activity) =>
          if isAggregation (deliveryPhase E streamType) then []
          else [Submit (createActivityStreamId E (JStr resourceId) (JStr streamType))
                  (RoutedActivity [activity] resourceId streamType None)])
          streamTypeActivities) routed.
Proof.
  unfold onRoutedActivities.
  rewrite <- (foldl_emit
    (fun '(resourceId, streamTypeActivities) =>
       flat_map (fun '(streamType, activity) =>
         if isAggregation (deliveryPhase E streamType) then []
         else [Submit (createActivityStreamId E (JStr resourceId) (JStr streamType))
                 (RoutedActivity [activity] resourceId streamType None)])
         streamTypeActivities) routed st).
  f_equal. apply foldl_ext'. intros s [r m]. clear.
  revert s. induction m as [|[t a] m IH]; intros s; cbn [foldl flat_map]; [done|].
  rewrite foldl_app, IH. f_equal.
  by destruct (isAggregation (deliveryPhase E t)).
Qed.

(** What the aggregation listener publishes, in order. *)
Lemma onDeliveredActivities_effects E delivered st :
  effects (onDeliveredActivities E delivered st) =
    effects st ++
      flat_map (fun '(resourceId, streamTypeActivities) =>
        flat_map (fun '(streamType, info) =>
          if isAggregation (deliveryPhase E streamType) then
            [Submit (createActivityStreamId E (JStr resourceId) (JStr streamType))
               (RoutedActivity (ai_activities info) resourceId streamType
                  (ai_numNewActivities info))]
          else [])
          streamTypeActivities) delivered.
Proof.
  unfold onDeliveredActivities.
  rewrite <- (foldl_emit
    (fun '(resourceId, streamTypeActivities) =>
       flat_map (fun '(streamType, info) =>
         if isAggregation (deliveryPhase E streamType) then
           [Submit (createActivityStreamId E (JStr resourceId) (JStr streamType))
              (RoutedActivity (ai_activities info) resourceId streamType
                 (ai_numNewActivities info))]
         else [])
         streamTypeActivities) delivered st).
  f_equal. apply foldl_ext'. intros s [r m]. clear.
  revert s. induction m as [|[t a] m IH]; intros s; cbn [foldl flat_map]; [done|].
  rewrite foldl_app, IH. f_equal.
  by destruct (isAggregation (deliveryPhase E t)).
Qed.

Lemma published_routed E routed r t :
  In (r, t)
    (published
       (flat_map (fun '(resourceId, streamTypeActivities) =>
          flat_map (fun '(streamType, activity) =>
            if isAggregation (deliveryPhase E streamType) then []
            else [Submit (createActivityStreamId E (JStr resourceId) (JStr streamType))
                    (RoutedActivity [activity] resourceId streamType None)])
            (streamTypeActivities : list (string * Activity))) routed))
  <-> (exists m a, In (r, m) routed /\ In (t, a) m)
      /\ deliveryPhase E t <> Some "aggregation".
Proof.
  unfold published. rewrite in_flat_map. split.
  - intros (e & He & Hin). apply in_flat_map in He as ([r' m] & Hr & He).
    apply in_flat_map in He as ([t' a] & Ht & He).
    destruct (isAggregation (deliveryPhase E t')) eqn:Hagg; [done|].
    destruct He as [<-|[]]. cbn in Hin. destruct Hin as [[= <- <-]|[]].
    split; [by exists m, a|]. intros Hp%isAggregation_spec. congruence.
  - intros ((m & a & Hr & Ht) & Hp).
    exists (Submit (createActivityStreamId E (JStr r) (JStr t)) (RoutedActivity [a] r t None)).
    split; [|by left]. apply in_flat_map. exists (r, m). split; [done|].
    apply in_flat_map. exists (t, a). split; [done|].
    destruct (isAggregation (deliveryPhase E t)) eqn:Hagg; [|by left].
    by apply isAggregation_spec in Hagg.
Qed.

Lemma published_delivered E delivered r t :
  In (r, t)
    (published
       (flat_map (fun '(resourceId, streamTypeActivities) =>
          flat_map (fun '(streamType, info) =>
            if isAggregation (deliveryPhase E streamType) then
              [Submit (createActivityStreamId E (JStr resourceId) (JStr streamType))
                 (RoutedActivity (ai_activities info) resourceId streamType
                    (ai_numNewActivities info))]
            else [])
            (streamTypeActivities : list (string * activityInfo))) delivered))
  <-> (exists m info, In (r, m) delivered /\ In (t, info) m)
      /\ deliveryPhase E t = Some "aggregation".
Proof.
  unfold published. rewrite in_flat_map. split.
  - intros (e & He & Hin). apply in_flat_map in He as ([r' m] & Hr & He).
    apply in_flat_map in He as ([t' a] & Ht & He).
    destruct (isAggregation (deliveryPhase E t')) eqn:Hagg; [|done].
    destruct He as [<-|[]]. cbn in Hin. destruct Hin as [[= <- <-]|[]].
    split; [by exists m, a|]. by apply isAggregation_spec.
  - intros ((m & a & Hr & Ht) & Hp%isAggregation_spec).
    exists (Submit (createActivityStreamId E (JStr r) (JStr t))
              (RoutedActivity (ai_activities a) r t (ai_numNewActivities a))).
    split; [|by left]. apply in_flat_map. exists (r, m). split; [done|].
    apply in_flat_map. exists (t, a). split; [done|].
    rewrite Hp. by left.
Qed.

(** One event that carries, for one resource, an activity of a stream type
    pushed in the routing phase and one of a stream type pushed in the
    aggregation phase. *)
Example listeners_share_an_event :
  published
    (effects (onRoutedActivities sampleCollaborators
                [("u:cam:abc", [("activity", JStr "a"); ("notification", JStr "n")])] idle))
    = [("u:cam:abc", "activity")]
  /\ published
       (effects (onDeliveredActivities sampleCollaborators
                   [("u:cam:abc",
                      [("activity", ActivityInfo [JStr "a"] (Some 1));
                       ("notification", ActivityInfo [JStr "n"] (Some 1))])] idle))
     = [("u:cam:abc", "notification")].
Proof. split; reflexivity. Qed.

(** The phase the listeners read is the one the registry holds for the
    stream type. *)
Lemma deliveryPhase_registered E t :
  deliveryPhase E t = Some "aggregation" <->
  exists streamOptions,
    getRegisteredActivityStreamType E (JStr t) = Some streamOptions
    /\ pushDeliveryPhase streamOptions = Some "aggregation".
Proof.
  unfold deliveryPhase. destruct (getRegisteredActivityStreamType E (JStr t)) as [o|].
  - split; [by exists o|]. by intros (o' & [= <-] & H).
  - split; [done|]. by intros (o' & [=] & _).
Qed.

Lemma published_routed_list E routed st :
  published (effectsFrom (length (effects st)) (onRoutedActivities E routed st)) =
    flat_map (fun '(resourceId, streamTypeActivities) =>
      flat_map (fun '(streamType, _) =>
        if isAggregation (deliveryPhase E streamType) then []
        else [(resourceId, streamType)])
        (streamTypeActivities : list (string * Activity))) routed.
Proof.
  unfold effectsFrom. rewrite onRoutedActivities_effects, drop_app_length. unfold published.
  induction routed as [|[r m] routed IH]; cbn [flat_map]; [done|].
  rewrite flat_map_app, IH. f_equal.
  induction m as [|[t a] m IHm]; cbn [flat_map]; [done|].
  rewrite flat_map_app, IHm. f_equal. by destruct (isAggregation (deliveryPhase E t)).
Qed.

Lemma published_delivered_list E delivered st :
  published (effectsFrom (length (effects st)) (onDeliveredActivities E delivered st)) =
    flat_map (fun '(resourceId, streamTypeActivities) =>
      flat_map (fun '(streamType, _) =>
        if isAggregation (deliveryPhase E streamType) then [(resourceId, streamType)]
        else [])
        (streamTypeActivities : list (string * activityInfo))) delivered.
Proof.
  unfold effectsFrom. rewrite onDeliveredActivities_effects, drop_app_length. unfold published.
  induction delivered as [|[r m] delivered IH]; cbn [flat_map]; [done|].
  rewrite flat_map_app, IH. f_equal.
  induction m as [|[t a] m IHm]; cbn [flat_map]; [done|].
  rewrite flat_map_app, IHm. f_equal. by destruct (isAggregation (deliveryPhase E t)).
Qed.

(** Two deployments whose registries hold the aggregation phase for the
    same stream types take the same decisions. *)
Lemma isAggregation_agree E E' :
  (forall t,
      (exists o, getRegisteredActivityStreamType E' (JStr t) = Some o
                 /\ pushDeliveryPhase o = Some "aggregation") <->
      (exists o, getRegisteredActivityStreamType E (JStr t) = Some o
                 /\ pushDeliveryPhase o = Some "aggregation")) ->
  forall t, isAggregation (deliveryPhase E' t) = isAggregation (deliveryPhase E t).
Proof.
  intros H t. specialize (H t). rewrite <- !deliveryPhase_registered in H.
  destruct (isAggregation (deliveryPhase E' t)) eqn:H', (isAggregation (deliveryPhase E t)) eqn:H0;
    try done.
  - apply isAggregation_spec, H, isAggregation_spec in H'. congruence.
  - apply isAggregation_spec, H, isAggregation_spec in H0. congruence.
Qed.

(** C8. Whether a listener publishes for a stream type is read off the
    activity registry and nothing else. For a resource id and a stream type,
    the routing listener publishes exactly when the pair is in the routed
    activities and the registry does not hold [push.delivery.phase]
    "aggregation" for the stream type (it holds another phase, none, or the
    stream type is not registered); the aggregation listener publishes
    exactly when the pair is in the delivered activities and the registry
    holds the phase "aggregation" for the stream type. So the two never
    both publish for one stream type, and of a pair that both events carry
    exactly one publishes. Two deployments whose registries hold the phase
    "aggregation" for the same stream types publish the same pairs in the
    same order, whatever else differs between them. *)
Theorem one_listener_publishes_per_stream_type E routed delivered st r t :
  let byRouting :=
    published (effectsFrom (length (effects st)) (onRoutedActivities E routed st)) in
  let byAggregation :=
    published (effectsFrom (length (effects st)) (onDeliveredActivities E delivered st)) in
  let aggregated :=
    exists streamOptions,
      getRegisteredActivityStreamType E (JStr t) = Some streamOptions
      /\ pushDeliveryPhase streamOptions = Some "aggregation" in
  (In (r, t) byRouting <->
     (exists m a, In (r, m) routed /\ In (t, a) m) /\ ~ aggregated)
  /\ (In (r, t) byAggregation <->
       (exists m info, In (r, m) delivered /\ In (t, info) m) /\ aggregated)
  /\ ~ (In (r, t) byRouting /\ In (r, t) byAggregation)
  /\ ((exists m a, In (r, m) routed /\ In (t, a) m) ->
      (exists m info, In (r, m) delivered /\ In (t, info) m) ->
      In (r, t) byRouting \/ In (r, t) byAggregation)
  /\ (forall E' st',
        (forall t',
            (exists o, getRegisteredActivityStreamType E' (JStr t') = Some o
                       /\ pushDeliveryPhase o = Some "aggregation") <->
            (exists o, getRegisteredActivityStreamType E (JStr t') = Some o
                       /\ pushDeliveryPhase o = Some "aggregation")) ->
        published (effectsFrom (length (effects st')) (onRoutedActivities E' routed st'))
          = byRouting
        /\ published (effectsFrom (length (effects st'))
                        (onDeliveredActivities E' delivered st'))
           = byAggregation).
Proof.
  cbn zeta.
  assert (Hr : In (r, t)
            (published (effectsFrom (length (effects st)) (onRoutedActivities E routed st)))
          <-> (exists m a, In (r, m) routed /\ In (t, a) m)
              /\ deliveryPhase E t <> Some "aggregation").
  { unfold effectsFrom. rewrite onRoutedActivities_effects, drop_app_length.
    apply published_routed. }
  assert (Hd : In (r, t)
            (published (effectsFrom (length (effects st))
                          (onDeliveredActivities E delivered st)))
          <-> (exists m info, In (r, m) delivered /\ In (t, info) m)
              /\ deliveryPhase E t = Some "aggregation").
  { unfold effectsFrom. rewrite onDeliveredActivities_effects, drop_app_length.
    apply published_delivered. }
  rewrite (deliveryPhase_registered E t) in Hr, Hd.
  split; [exact Hr|]. split; [exact Hd|]. split; [|split].
  - intros [H1 H2]. apply Hr in H1 as [_ H1]. apply Hd in H2 as [_ H2]. done.
  - intros H1 H2.
    destruct (decide (deliveryPhase E t = Some "aggregation")) as [Hp|Hp].
    + right. apply Hd. split; [done|]. by apply deliveryPhase_registered.
    + left. apply Hr. split; [done|]. by rewrite <- deliveryPhase_registered.
  - intros E' st' Hsame. pose proof (isAggregation_agree E E' Hsame) as Hagg.
    rewrite !published_routed_list, !published_delivered_list. split.
    + apply flat_map_ext. intros [r' m]. apply flat_map_ext. intros [t' a]. by rewrite Hagg.
    + apply flat_map_ext. intros [r' m]. apply flat_map_ext. intros [t' a]. by rewrite Hagg.
Qed.

Lemma one_listener_publishes_per_stream_type_witness :
  getRegisteredActivityStreamType sampleCollaborators (JStr "notification")
    = Some (mkStreamOptions true (Some "aggregation"))
  /\ In ("u:cam:abc", "notification")
       (published
          (effectsFrom 0
             (onDeliveredActivities sampleCollaborators
                [("u:cam:abc",
                   [("activity", ActivityInfo [JStr "a"] (Some 1));
                    ("notification", ActivityInfo [JStr "n"] (Some 1))])] idle)))
  /\ ~ In ("u:cam:abc", "notification")
         (published
            (effectsFrom 0
               (onRoutedActivities sampleCollaborators
                  [("u:cam:abc", [("activity", JStr "a"); ("notification", JStr "n")])]
                  idle)))
  /\ getRegisteredActivityStreamType sampleCollaborators (JStr "activity")
     = Some (mkStreamOptions true None)
  /\ In ("u:cam:abc", "activity")
       (published
          (effectsFrom 0
             (onRoutedActivities sampleCollaborators
                [("u:cam:abc", [("activity", JStr "a"); ("notification", JStr "n")])]
                idle)))
  /\ ~ In ("u:cam:abc", "activity")
         (published
            (effectsFrom 0
               (onDeliveredActivities sampleCollaborators
                  [("u:cam:abc",
                     [("activity", ActivityInfo [JStr "a"] (Some 1));
                      ("notification", ActivityInfo [JStr "n"] (Some 1))])] idle))).
Proof.
  pose proof (one_listener_publishes_per_stream_type sampleCollaborators
                [("u:cam:abc", [("activity", JStr "a"); ("notification", JStr "n")])]
                [("u:cam:abc",
                   [("activity", ActivityInfo [JStr "a"] (Some 1));
                    ("notification", ActivityInfo [JStr "n"] (Some 1))])]
                idle "u:cam:abc" "notification") as (Hr & Hd & _).
  pose proof (one_listener_publishes_per_stream_type sampleCollaborators
                [("u:cam:abc", [("activity", JStr "a"); ("notification", JStr "n")])]
                [("u:cam:abc",
                   [("activity", ActivityInfo [JStr "a"] (Some 1));
                    ("notification", ActivityInfo [JStr "n"] (Some 1))])]
                idle "u:cam:abc" "activity") as (Hr' & Hd' & _).
  split; [reflexivity|]. split.
  { apply Hd. split.
    - eexists _, _. split; [left; reflexivity|right; left; reflexivity].
    - eexists. split; reflexivity. }
  split.
  { intros H. apply Hr in H as [_ H]. apply H. eexists. split; reflexivity. }
  split; [reflexivity|]. split.
  { apply Hr'. split.
    - eexists _, _. split; [left; reflexivity|left; reflexivity].
    - intros (o & [= <-] & Hp). discriminate Hp. }
  intros H. apply Hd' in H as [_ (o & [= <-] & Hp)]. discriminate Hp.
Defined.

(** ** Subscribing *)

Lemma truthy_prop_not_null message k : truthy (prop message k) = true -> isNull message = false.
Proof. by destruct message. Qed.

Lemma subscribe_valid E sid ci message st :
  connections st !! sid = Some ci ->
  passesValidation E message = true ->
  _subscribe E sid message st =
    await (PAuthz sid message) (emit (authzCallOf message sid (ctx ci)) st).
Proof.
  intros Hci Hv. unfold passesValidation in Hv. cbn zeta in Hv.
  apply andb_true_iff in Hv as [Hv Hh]. apply andb_true_iff in Hv as [Hv Hf].
  apply andb_true_iff in Hv as [Hv Ht]. apply andb_true_iff in Hv as [Hv Hr].
  apply andb_true_iff in Hv as [Hd Hs].
  unfold _subscribe. cbn zeta.
  rewrite Hd, Hs, Hr, Ht, Hh. cbn [negb orb].
  apply orb_true_iff in Hf as [Hf|Hf].
  - apply negb_true_iff in Hf. rewrite Hf. cbn [andb]. by rewrite Hci.
  - rewrite Hf. cbn [negb]. rewrite andb_false_r. by rewrite Hci.
Qed.

Lemma data_subscribe E sid ci message st :
  connections st !! sid = Some ci ->
  socketClosed ci = false ->
  is_Some (ctx ci) ->
  isSubscribeRequest E message = true ->
  step E st (SocketData sid (Some message)) =
    Some (await (PAuthz sid message) (emit (authzCallOf message sid (ctx ci)) st)).
Proof.
  intros Hci Hopen Hctx Hreq. unfold isSubscribeRequest in Hreq.
  apply andb_true_iff in Hreq as [Hreq Hv]. apply andb_true_iff in Hreq as [Hid Hname].
  cbn [step]. rewrite Hci, Hopen.
  rewrite (onData_parsed E sid message st ci (truthy_prop_not_null _ _ Hid) Hci).
  rewrite Hid. cbn [negb]. rewrite (bool_decide_eq_true_2 _ Hctx). cbn [negb andb].
  assert (Hna : strictEqStr (prop message "name") "authentication" = false).
  { destruct (prop message "name"); try done. cbn in *.
    apply String.eqb_eq in Hname as ->. done. }
  rewrite Hna, Hname. by rewrite (subscribe_valid E sid ci message st Hci Hv).
Qed.

Lemma authz_returns E k sid message err st :
  pendingCalls st !! k = Some (PAuthz sid message) ->
  step E st (AuthzReturns k err) = Some (authzCallback E sid message err (answered k st)).
Proof. intros Hk. cbn [step]. by rewrite Hk. Qed.

Lemma authzCallback_recorded E sid ci message st :
  connections st !! sid = Some ci ->
  streamOfRequest E message ∈ streams ci ->
  authzCallback E sid message None st = finish E sid message (streamOfRequest E message) st.
Proof.
  intros Hci Hin. unfold authzCallback. cbn zeta. rewrite Hci.
  fold (streamOfRequest E message). by rewrite (bool_decide_eq_true_2 _ Hin).
Qed.

Lemma authzCallback_new_stream E sid ci message st :
  connections st !! sid = Some ci ->
  streamOfRequest E message ∉ streams ci ->
  authzCallback E sid message None st =
    _bindQueue E sid message (streamOfRequest E message)
      (updConn sid (withStreams (streams ci ++ [streamOfRequest E message])) st).
Proof.
  intros Hci Hin. unfold authzCallback. cbn zeta. rewrite Hci.
  fold (streamOfRequest E message). by rewrite (bool_decide_eq_false_2 _ Hin).
Qed.

Lemma finish_effects E sid message stream st :
  effects (finish E sid message stream st) =
    effects st ++ [SocketWrite sid (Response (prop message "id") None)].
Proof. reflexivity. Qed.

Lemma finish_transformers E sid ci message stream st :
  connections st !! sid = Some ci ->
  transformersOf (finish E sid message stream st) sid stream =
    transformersOf st sid stream ++ [transformerOfRequest E message].
Proof.
  intros Hci. unfold transformersOf, finish. nsimpl.
  rewrite lookup_alter_eq, Hci. cbn. by rewrite lookup_insert_eq.
Qed.

(** C9, as the code has it. A subscribe request for a stream the connection
    has recorded starts the authorization handler again, with the context,
    the resource id and the token of the request; the format is not among
    its arguments. When the handler accepts, the transformer of the request
    is appended to those of the stream and the success response is written,
    with no broker call and no change to the per-stream arrays. When the
    handler rejects, its error is the response and nothing is recorded. *)
Theorem resubscribe_runs_authorization E st sid ci message :
  connections st !! sid = Some ci ->
  socketClosed ci = false ->
  is_Some (ctx ci) ->
  isSubscribeRequest E message = true ->
  streamOfRequest E message ∈ streams ci ->
  (exists st1,
      step E st (SocketData sid (Some message)) = Some st1
      /\ effects st1 = effects st ++ [authzCallOf message sid (ctx ci)]
      /\ pendingCalls st1 !! nextCall st = Some (PAuthz sid message)
      /\ connections st1 = connections st)
  /\ (exists st2,
        run E st [SocketData sid (Some message); AuthzReturns (nextCall st) None] = Some st2
        /\ effects st2 = effects st ++
             [authzCallOf message sid (ctx ci);
              SocketWrite sid (Response (prop message "id") None)]
        /\ transformersOf st2 sid (streamOfRequest E message) =
             transformersOf st sid (streamOfRequest E message) ++ [transformerOfRequest E message]
        /\ List.filter isBrokerCall (effectsFrom (length (effects st)) st2) = []
        /\ connectionInfosPerStream st2 = connectionInfosPerStream st)
  /\ (forall e, exists st2,
        run E st [SocketData sid (Some message); AuthzReturns (nextCall st) (Some e)] = Some st2
        /\ effects st2 = effects st ++
             [authzCallOf message sid (ctx ci);
              SocketWrite sid (Response (prop message "id") (Some e))]
        /\ connections st2 = connections st
        /\ connectionInfosPerStream st2 = connectionInfosPerStream st).
Proof.
  intros Hci Hopen Hctx Hreq Hin.
  pose proof (data_subscribe E sid ci message st Hci Hopen Hctx Hreq) as Hstep.
  set (st1 := await (PAuthz sid message) (emit (authzCallOf message sid (ctx ci)) st)) in *.
  assert (Hk : pendingCalls st1 !! nextCall st = Some (PAuthz sid message))
    by apply lookup_insert_eq.
  split; [|split].
  - exists st1. by repeat split.
  - eexists. split.
    { cbn [run]. rewrite Hstep. rewrite (authz_returns E _ sid message None st1 Hk). reflexivity. }
    rewrite (authzCallback_recorded E sid ci message (answered (nextCall st) st1)) by done.
    subst st1. split; [|split; [|split]].
    + rewrite finish_effects. nsimpl. by rewrite <- app_assoc.
    + by rewrite (finish_transformers E sid ci).
    + unfold effectsFrom. rewrite finish_effects. nsimpl.
      by rewrite <- app_assoc, drop_app_length.
    + reflexivity.
  - intros e. eexists. split.
    { cbn [run]. rewrite Hstep. rewrite (authz_returns E _ sid message (Some e) st1 Hk).
      reflexivity. }
    subst st1. unfold authzCallback. nsimpl. by rewrite <- app_assoc.
Qed.

Lemma resubscribe_runs_authorization_witness :
  exists st2,
    run sampleCollaborators twoSubscribers
      [SocketData 1 (Some (subscribeFrame (JNum 9) "c:cam:x" "activity" (JStr "activitystreams")));
       AuthzReturns 7 (Some (Error 401 "Unauthorized"))] = Some st2
    /\ effects st2 = effects twoSubscribers ++
         [AuthzHandler 1 (Some sampleContext) (JStr "c:cam:x") JUndefined;
          SocketWrite 1 (Response (JNum 9) (Some (Error 401 "Unauthorized")))]
    /\ connections st2 = connections twoSubscribers
    /\ connectionInfosPerStream st2 = connectionInfosPerStream twoSubscribers.
Proof.
  destruct (resubscribe_runs_authorization sampleCollaborators twoSubscribers 1
              (connectionOf twoSubscribers 1)
              (subscribeFrame (JNum 9) "c:cam:x" "activity" (JStr "activitystreams")))
    as (_ & _ & H).
  - vm_compute. reflexivity.
  - vm_compute. reflexivity.
  - vm_compute. by eexists.
  - vm_compute. reflexivity.
  - vm_compute. apply list_elem_of_here.
  - exact (H (Error 401 "Unauthorized")).
Defined.

(** C9 as stated fails: the request is not accepted on arrival;
    the ['data'] handler calls the authorization handler and writes nothing
    until it answers. *)
Lemma resubscribe_is_not_accepted_unchecked :
  ~ (forall st sid ci message,
        connections st !! sid = Some ci ->
        socketClosed ci = false ->
        is_Some (ctx ci) ->
        isSubscribeRequest sampleCollaborators message = true ->
        streamOfRequest sampleCollaborators message ∈ streams ci ->
        exists st',
          step sampleCollaborators st (SocketData sid (Some message)) = Some st'
          /\ effects st' = effects st ++ [SocketWrite sid (Response (prop message "id") None)]
          /\ transformersOf st' sid (streamOfRequest sampleCollaborators message) =
               transformersOf st sid (streamOfRequest sampleCollaborators message)
               ++ [transformerOfRequest sampleCollaborators message]).
Proof.
  intros H.
  destruct (H twoSubscribers 1%nat (connectionOf twoSubscribers 1)
              (subscribeFrame (JNum 9) "c:cam:x" "activity" (JStr "activitystreams")))
    as (st' & Hstep & Heff & _).
  - vm_compute. reflexivity.
  - vm_compute. reflexivity.
  - vm_compute. by eexists.
  - vm_compute. reflexivity.
  - vm_compute. apply list_elem_of_here.
  - vm_compute in Hstep. injection Hstep as <-. vm_compute in Heff. discriminate Heff.
Qed.

Lemma pending_insert_eq (m : gmap nat pending) k p : <[k:=p]> m !! k = Some p.
Proof. apply lookup_insert_eq. Qed.


(** A first subscribe to a stream that no local connection holds: the
    authorization, the bind and the success response. *)
Lemma subscribe_fresh E st sid ci message :
  connections st !! sid = Some ci ->
  socketClosed ci = false ->
  is_Some (ctx ci) ->
  isSubscribeRequest E message = true ->
  streamOfRequest E message ∉ streams ci ->
  connectionInfosPerStream st !! streamOfRequest E message = None ->
  transformersOf st sid (streamOfRequest E message) = [] ->
  exists st4,
    run E st [SocketData sid (Some message); AuthzReturns (nextCall st) None;
              BrokerBinds (S (nextCall st)) None; BindReturns (S (nextCall st))] = Some st4
    /\ effects st4 = effects st ++
         [authzCallOf message sid (ctx ci);
          BindQueueToExchange (streamOfRequest E message);
          SocketWrite sid (Response (prop message "id") None)]
    /\ connections st4 !! sid =
         Some (withTransformerTypes
                 (Some (<[streamOfRequest E message := [transformerOfRequest E message]]>
                          (default ∅ (transformerTypes ci))))
                 (withStreams (streams ci ++ [streamOfRequest E message]) ci))
    /\ connectionInfosPerStream st4 =
         <[streamOfRequest E message := [sid]]> (connectionInfosPerStream st)
    /\ bindings st4 = {[streamOfRequest E message]} ∪ bindings st
    /\ nextCall st4 = S (S (nextCall st))
    /\ nextJob st4 = nextJob st.
Proof.
  intros Hci Hopen Hctx Hreq Hnew Hlist Htt.
  cbn [run]. rewrite (data_subscribe E sid ci message st Hci Hopen Hctx Hreq).
  rewrite (authz_returns E _ sid message None) by apply lookup_insert_eq.
  rewrite (authzCallback_new_stream E sid ci message) by done.
  unfold _bindQueue. nsimpl. rewrite Hlist.
  cbn [step]. nsimpl. rewrite pending_insert_eq. nsimpl. rewrite pending_insert_eq.
  eexists. split; [reflexivity|].
  unfold bindCallback, finish. nsimpl. rewrite Hlist. cbn [default].
  rewrite !alter_alter_eq, lookup_alter_eq, Hci. cbn.
  unfold transformersOf in Htt. rewrite Hci in Htt. rewrite Htt.
  rewrite <- !app_assoc. repeat split.
Qed.

(** ** Dispatching a message *)

(** A transformation that is answered later is recorded with its
    continuation. *)
Lemma startTransform_later job sid c data st t :
  startTransform later job sid c data st t =
    await (PTransform job sid data t)
      (emit (TransformActivities job sid c (ra_activities data) t)
         (setTodo (fun m => <[job := default 0 (m !! job) + 1]> m) st)).
Proof. reflexivity. Qed.

Lemma startTransforms_fold job sid c data kinds : forall st,
  let st' := foldl (startTransform later job sid c data) st kinds in
  effects st' = effects st ++ map (TransformActivities job sid c (ra_activities data)) kinds
  /\ (forall i, (i < length kinds)%nat ->
        pendingCalls st' !! (nextCall st + i)%nat = PTransform job sid data <$> kinds !! i)
  /\ (forall k, (k < nextCall st)%nat -> pendingCalls st' !! k = pendingCalls st !! k)
  /\ nextCall st' = (nextCall st + length kinds)%nat
  /\ default 0 (todo st' !! job) = default 0 (todo st !! job) + Z.of_nat (length kinds)
  /\ same_registry st st'
  /\ nextJob st' = nextJob st /\ bindings st' = bindings st.
Proof.
  induction kinds as [|t kinds IH]; intros st; cbn zeta.
  - cbn. split_and!; try done; try lia; by rewrite app_nil_r.
  - cbn [foldl].
    destruct (IH (startTransform later job sid c data st t))
      as (He & Hp & Hold & Hn & Ht & Hs & Hj & Hb).
    split_and!.
    + rewrite He. cbn. by rewrite <- app_assoc.
    + intros i Hi. destruct i as [|i].
      * rewrite Hold by (cbn; lia). cbn. rewrite Nat.add_0_r. apply lookup_insert_eq.
      * cbn in Hi. change ((t :: kinds) !! S i) with (kinds !! i).
        rewrite <- (Hp i) by lia. cbn. f_equal. lia.
    + intros k Hk. rewrite Hold by (cbn; lia). cbn.
      rewrite lookup_insert_ne by lia. done.
    + rewrite Hn. cbn. lia.
    + rewrite Ht. cbn. rewrite lookup_insert_eq. cbn. lia.
    + done.
    + rewrite Hj. done.
    + rewrite Hb. done.
Qed.

Lemma pushJobs_same st st' stream l :
  connections st' = connections st -> pushJobs st' stream l = pushJobs st stream l.
Proof. intros H. unfold pushJobs, transformersOf. by rewrite H. Qed.

Lemma callOfJob_same st st' job data :
  connections st' = connections st -> callOfJob st' job data = callOfJob st job data.
Proof. intros H. unfold callOfJob, ctxOf. by rewrite H. Qed.

Lemma pushToConnections_fold job data stream l : forall acc,
  (forall sid, sid ∈ l ->
     exists ci, connections acc !! sid = Some ci /\ is_Some (transformerTypes ci)) ->
  exists st',
    foldl (pushToConnection later job data stream) (Some acc) l = Some st'
    /\ effects st' = effects acc ++ map (callOfJob acc job data) (pushJobs acc stream l)
    /\ (forall i, (i < length (pushJobs acc stream l))%nat ->
          pendingCalls st' !! (nextCall acc + i)%nat =
            transformOfJob job data <$> pushJobs acc stream l !! i)
    /\ (forall k, (k < nextCall acc)%nat -> pendingCalls st' !! k = pendingCalls acc !! k)
    /\ nextCall st' = (nextCall acc + length (pushJobs acc stream l))%nat
    /\ default 0 (todo st' !! job) =
         default 0 (todo acc !! job) + Z.of_nat (length (pushJobs acc stream l))
    /\ same_registry acc st'
    /\ nextJob st' = nextJob acc /\ bindings st' = bindings acc.
Proof.
  induction l as [|sid l IH]; intros acc Hl.
  - exists acc. cbn. split_and!; try done; try lia; by rewrite app_nil_r.
  - destruct (Hl sid) as (ci & Hci & [tts Htts]); [apply list_elem_of_here|].
    cbn [foldl]. unfold pushToConnection at 2. rewrite Hci, Htts.
    pose proof (startTransforms_fold job sid (ctx ci) data (default [] (tts !! stream)) acc)
      as (He & Hp & Hold & Hn & Ht & Hs & Hj & Hb).
    set (acc1 := foldl (startTransform later job sid (ctx ci) data) acc
                   (default [] (tts !! stream))) in *.
    destruct Hs as [Hsc Hsp].
    destruct (IH acc1) as (st' & Hrun & He' & Hp' & Hold' & Hn' & Ht' & Hs' & Hj' & Hb').
    { intros sid' Hin. rewrite Hsc. apply Hl. by apply list_elem_of_further. }
    rewrite (pushJobs_same acc acc1) in * by done.
    rewrite (callOfJob_same acc acc1) in * by done.
    assert (Hkinds : transformersOf acc sid stream = default [] (tts !! stream)).
    { unfold transformersOf. by rewrite Hci, Htts. }
    assert (Hjobs : pushJobs acc stream (sid :: l) =
                    map (pair sid) (default [] (tts !! stream)) ++ pushJobs acc stream l).
    { unfold pushJobs at 1. cbn [flat_map]. by rewrite Hkinds. }
    exists st'. split; [done|]. rewrite Hjobs. rewrite length_app, length_map.
    split_and!.
    + rewrite He', He, map_app, <- app_assoc. do 2 f_equal.
      rewrite map_map. apply map_ext. intros t. unfold callOfJob, ctxOf. cbn. by rewrite Hci.
    + intros i Hi. destruct (decide (i < length (default [] (tts !! stream)))%nat) as [Hlt|Hge].
      * rewrite lookup_app_l by (by rewrite length_map).
        rewrite Hold' by lia. rewrite Hp by done.
        rewrite list_lookup_fmap. by destruct (default [] (tts !! stream) !! i).
      * rewrite lookup_app_r by (rewrite length_map; lia). rewrite length_map.
        rewrite <- Hp' by lia. f_equal. lia.
    + intros k Hk. rewrite Hold' by lia. by apply Hold.
    + lia.
    + lia.
    + eapply same_registry_trans; [by split|done].
    + congruence.
    + congruence.
Qed.

Lemma handlePushActivity_started E data st :
  let stream := createActivityStreamId E (JStr (ra_resourceId data)) (JStr (ra_streamType data)) in
  let l := default [] (connectionInfosPerStream st !! stream) in
  (forall sid, sid ∈ l ->
     exists ci, connections st !! sid = Some ci /\ is_Some (transformerTypes ci)) ->
  exists st',
    _handlePushActivity E later data st = Some st'
    /\ effects st' = effects st ++ map (callOfJob st (nextJob st) data) (pushJobs st stream l)
    /\ (forall i, (i < length (pushJobs st stream l))%nat ->
          pendingCalls st' !! (nextCall st + i)%nat =
            transformOfJob (nextJob st) data <$> pushJobs st stream l !! i)
    /\ (forall k, (k < nextCall st)%nat -> pendingCalls st' !! k = pendingCalls st !! k)
    /\ todo st' !! nextJob st = Some (Z.of_nat (length (pushJobs st stream l)))
    /\ same_registry st st'.
Proof.
  intros stream l Hl. unfold _handlePushActivity. fold stream. fold l.
  set (st0 := Node (connections st) (connectionInfosPerStream st) (pendingCalls st)
                (nextCall st) (<[nextJob st := 0]> (todo st)) (S (nextJob st))
                (bindings st) (effects st)).
  destruct (pushToConnections_fold (nextJob st) data stream l st0 Hl)
    as (st' & Hrun & He & Hp & Hold & Hn & Ht & Hs & Hj & Hb).
  exists st'. split; [done|].
  rewrite (pushJobs_same st st0) in * by done.
  rewrite (callOfJob_same st st0) in * by done.
  split_and!; try done.
  - destruct (todo st' !! nextJob st) as [z|] eqn:Hz.
    + cbn in Ht. rewrite lookup_insert_eq in Ht. cbn in Ht. f_equal. lia.
    + exfalso.
      assert (Hdom : forall acc ls st2,
                 foldl (pushToConnection later (nextJob st) data stream) (Some acc) ls
                   = Some st2 ->
                 is_Some (todo acc !! nextJob st) -> is_Some (todo st2 !! nextJob st)).
      { clear. intros acc ls. revert acc. induction ls as [|x ls IH]; intros acc st2; cbn [foldl].
        - by intros [= <-].
        - unfold pushToConnection at 2.
          destruct (connections acc !! x) as [ci|];
            [|intros H; exfalso; clear -H; induction ls; cbn in H; [done|auto]].
          destruct (transformerTypes ci) as [tts|];
            [|intros H; exfalso; clear -H; induction ls; cbn in H; [done|auto]].
          intros Hrun Hsome. eapply IH; [done|].
          clear -Hsome. revert acc Hsome.
          induction (default [] (tts !! stream)) as [|t ts IHt]; intros acc Hsome; cbn [foldl];
            [done|].
          apply IHt. cbn. destruct (decide (nextJob st = nextJob st)); [|done].
          rewrite lookup_insert_eq. by eexists. }
      destruct (Hdom st0 l st' Hrun) as [z Hz']; [cbn; rewrite lookup_insert_eq; by eexists|].
      congruence.
Qed.

Lemma transform_returns E st k job sid data t res :
  pendingCalls st !! k = Some (PTransform job sid data t) ->
  exists st',
    step E st (TransformReturns k res) = Some st'
    /\ effects st' = effects st ++
         match res with
         | inl _ => []
         | inr activities =>
             SocketWrite sid
               (PushFrame (ra_resourceId data) (ra_streamType data) activities t
                  (ra_numNewActivities data))
             :: (if Z.eqb (default 0 (todo st !! job) - 1) 0 then [PushCallback job] else [])
         end
    /\ (forall k', k' <> k -> pendingCalls st' !! k' = pendingCalls st !! k')
    /\ todo st' !! job =
         match res with
         | inl _ => todo st !! job
         | inr _ => Some (default 0 (todo st !! job) - 1)
         end.
Proof.
  intros Hk. cbn [step]. rewrite Hk. eexists. split; [reflexivity|].
  destruct res as [e|activities]; cbn.
  - rewrite app_nil_r. split_and!; try done.
    intros k' Hne. by rewrite lookup_delete_ne.
  - rewrite lookup_insert_eq. cbn.
    destruct (Z.eqb (default 0 (todo st !! job) - 1) 0); cbn.
    + rewrite <- app_assoc. split_and!; try done.
      * intros k' Hne. by rewrite lookup_delete_ne.
      * by rewrite lookup_insert_eq.
    + split_and!; try done.
      * intros k' Hne. by rewrite lookup_delete_ne.
      * by rewrite lookup_insert_eq.
Qed.

(** ** Two formats of one stream *)

Lemma subscribe_recorded E st sid ci message :
  connections st !! sid = Some ci ->
  socketClosed ci = false ->
  is_Some (ctx ci) ->
  isSubscribeRequest E message = true ->
  streamOfRequest E message ∈ streams ci ->
  exists st2,
    run E st [SocketData sid (Some message); AuthzReturns (nextCall st) None] = Some st2
    /\ effects st2 = effects st ++
         [authzCallOf message sid (ctx ci);
          SocketWrite sid (Response (prop message "id") None)]
    /\ connections st2 !! sid =
         Some (withTransformerTypes
                 (Some (<[streamOfRequest E message :=
                            default [] (default ∅ (transformerTypes ci)
                                          !! streamOfRequest E message)
                            ++ [transformerOfRequest E message]]>
                          (default ∅ (transformerTypes ci))))
                 ci)
    /\ connectionInfosPerStream st2 = connectionInfosPerStream st
    /\ nextCall st2 = S (nextCall st)
    /\ nextJob st2 = nextJob st.
Proof.
  intros Hci Hopen Hctx Hreq Hin.
  cbn [run]. rewrite (data_subscribe E sid ci message st Hci Hopen Hctx Hreq).
  rewrite (authz_returns E _ sid message None) by apply lookup_insert_eq.
  rewrite (authzCallback_recorded E sid ci message) by done.
  eexists. split; [reflexivity|].
  unfold finish. nsimpl. rewrite lookup_alter_eq, Hci. cbn.
  rewrite <- !app_assoc. by split_and!.
Qed.


(** ** The registry stays consistent *)

Lemma silent_refl st : silent st st.
Proof.
  split_and!; [done|by eauto|]. intros sid. by destruct (connections st !! sid).
Qed.

Lemma silent_trans a b c : silent a b -> silent b c -> silent a c.
Proof.
  intros (Hl & Hp & Hc) (Hl' & Hp' & Hc'). split_and!.
  - congruence.
  - intros k sid m s ans H. destruct (Hp' _ _ _ _ _ H) as [ans' H']. eauto.
  - intros sid. specialize (Hc sid). specialize (Hc' sid).
    destruct (connections c !! sid), (connections b !! sid), (connections a !! sid);
      try done. destruct Hc, Hc'. split; congruence.
Qed.

Lemma silent_inv st st' : silent st st' -> registry_inv st -> registry_inv st'.
Proof.
  intros (Hl & Hp & Hc) (HR & HP & HT). split_and!.
  - intros stream l sid Hs Hin. rewrite Hl in Hs.
    destruct (HR _ _ _ Hs Hin) as (ci & Hci & Htt & Hst).
    specialize (Hc sid). rewrite Hci in Hc.
    destruct (connections st' !! sid) as [ci'|]; [|done]. destruct Hc as [Hc1 Hc2].
    exists ci'. by rewrite Hc1, Hc2.
  - intros k sid m s ans Hk. destruct (Hp _ _ _ _ _ Hk) as [ans' Hk'].
    destruct (HP _ _ _ _ _ Hk') as (ci & Hci & Hst).
    specialize (Hc sid). rewrite Hci in Hc.
    destruct (connections st' !! sid) as [ci'|]; [|done]. destruct Hc as [Hc1 Hc2].
    exists ci'. by rewrite Hc1.
  - intros sid ci' s Hci' Hs. specialize (Hc sid). rewrite Hci' in Hc.
    destruct (connections st !! sid) as [ci|] eqn:Hci; [|done]. destruct Hc as [Hc1 Hc2].
    rewrite Hc1 in Hs. specialize (HT sid ci s Hci Hs).
    unfold transformersOf in *. rewrite Hci in HT. by rewrite Hci', Hc2.
Qed.

Lemma silent_same st st' :
  connections st' = connections st ->
  connectionInfosPerStream st' = connectionInfosPerStream st ->
  (forall k sid message stream answer,
      pendingCalls st' !! k = Some (PBind sid message stream answer) ->
      exists answer', pendingCalls st !! k = Some (PBind sid message stream answer')) ->
  silent st st'.
Proof.
  intros Hc Hl Hp. split_and!; [done|done|]. intros sid. rewrite Hc.
  by destruct (connections st !! sid).
Qed.

Lemma silent_alter st st' sid F :
  connections st' = alter F sid (connections st) ->
  (forall ci, streams (F ci) = streams ci /\ transformerTypes (F ci) = transformerTypes ci) ->
  connectionInfosPerStream st' = connectionInfosPerStream st ->
  (forall k sid message stream answer,
      pendingCalls st' !! k = Some (PBind sid message stream answer) ->
      exists answer', pendingCalls st !! k = Some (PBind sid message stream answer')) ->
  silent st st'.
Proof.
  intros Hc HF Hl Hp. split_and!; [done|done|]. intros sid'. rewrite Hc.
  destruct (decide (sid = sid')) as [<-|Hne].
  - rewrite lookup_alter_eq. destruct (connections st !! sid); cbn; [apply HF|done].
  - rewrite lookup_alter_ne by done. by destruct (connections st !! sid').
Qed.

(** A call that is not a bind, recorded under any key, adds no bind. *)
Lemma binds_insert (m : gmap nat pending) k p :
  (forall sid message stream answer, p <> PBind sid message stream answer) ->
  forall k' sid message stream answer,
    <[k := p]> m !! k' = Some (PBind sid message stream answer) ->
    exists answer', m !! k' = Some (PBind sid message stream answer').
Proof.
  intros Hp k' sid m' s ans. destruct (decide (k = k')) as [<-|Hne].
  - rewrite lookup_insert_eq. intros [= ->]. by destruct (Hp sid m' s ans).
  - rewrite lookup_insert_ne by done. eauto.
Qed.

Lemma binds_delete (m : gmap nat pending) k :
  forall k' sid message stream answer,
    delete k m !! k' = Some (PBind sid message stream answer) ->
    exists answer', m !! k' = Some (PBind sid message stream answer').
Proof.
  intros k' sid m' s ans. destruct (decide (k = k')) as [<-|Hne].
  - by rewrite lookup_delete_eq.
  - rewrite lookup_delete_ne by done. eauto.
Qed.

Lemma close_write_silent sid id err st :
  silent st (socketClose sid (_writeResponse sid id err st)).
Proof. apply (silent_alter _ _ sid withSocketClosed); by eauto. Qed.

Lemma authenticate_silent E sid message st st' :
  _authenticate E sid message st = Some st' -> silent st st'.
Proof.
  unfold _authenticate. intros Ha.
  repeat case_match; simplify_eq; try apply close_write_silent.
  apply silent_same; [done|done|]. nsimpl. by apply binds_insert.
Qed.

Lemma subscribe_silent E sid message st : silent st (_subscribe E sid message st).
Proof.
  unfold _subscribe. repeat case_match; try (apply silent_same; by eauto).
  apply silent_same; [done|done|]. nsimpl. by apply binds_insert.
Qed.

Lemma onData_silent E sid msg st st' : onData E sid msg st = Some st' -> silent st st'.
Proof.
  unfold onData. intros H.
  repeat case_match; simplify_eq;
    first [ by apply close_write_silent
          | by eapply authenticate_silent
          | by apply subscribe_silent
          | by apply silent_refl ].
Qed.

Lemma getPrincipalCallback_silent E sid message res st :
  silent st (getPrincipalCallback E sid message res st).
Proof.
  unfold getPrincipalCallback. destruct res as [err|u]; [apply close_write_silent|].
  case_match.
  - eapply (silent_alter _ _ sid); [nsimpl; by rewrite alter_alter_eq| |done|by eauto].
    by intros ci.
  - eapply (silent_alter _ _ sid); [nsimpl; by rewrite alter_alter_eq| |done|by eauto].
    intros ci. cbn. by destruct (authenticationTimeout ci).
Qed.

Lemma foldl_silent {A} (f : node -> A -> node) (l : list A) st :
  (forall s a, silent s (f s a)) -> silent st (foldl f st l).
Proof.
  intros Hf. revert st. induction l as [|a l IH]; intros st; cbn.
  - apply silent_refl.
  - eapply silent_trans; [apply Hf|apply IH].
Qed.

Lemma transformCallback_silent job sid data t res st :
  silent st (transformCallback job sid data t res st).
Proof.
  unfold transformCallback. destruct res; [apply silent_refl|].
  destruct (Z.eqb _ _); apply silent_same; by eauto.
Qed.

Lemma startTransform_silent immediate job sid c data st t :
  silent st (startTransform immediate job sid c data st t).
Proof.
  unfold startTransform. destruct (immediate _).
  - eapply silent_trans; [|apply transformCallback_silent]. apply silent_same; by eauto.
  - apply silent_same; [done|done|]. cbn. by apply binds_insert.
Qed.

Lemma pushToConnection_silent immediate job data stream l : forall acc st',
  foldl (pushToConnection immediate job data stream) (Some acc) l = Some st' -> silent acc st'.
Proof.
  induction l as [|sid l IH]; intros acc st'; cbn [foldl].
  - intros [= <-]. apply silent_refl.
  - unfold pushToConnection at 2.
    destruct (connections acc !! sid) as [ci|];
      [|intros H; exfalso; clear -H; induction l; cbn in H; [done|auto]].
    destruct (transformerTypes ci) as [tts|];
      [|intros H; exfalso; clear -H; induction l; cbn in H; [done|auto]].
    intros H. eapply silent_trans; [|by apply IH].
    apply foldl_silent. intros; apply startTransform_silent.
Qed.

Lemma handlePushActivity_silent E immediate data st st' :
  _handlePushActivity E immediate data st = Some st' -> silent st st'.
Proof.
  unfold _handlePushActivity. intros H. apply pushToConnection_silent in H.
  eapply silent_trans; [|exact H]. apply silent_same; by eauto.
Qed.

Lemma onRoutedActivities_silent E routed st : silent st (onRoutedActivities E routed st).
Proof.
  unfold onRoutedActivities. apply foldl_silent. intros s [r m].
  apply foldl_silent. intros s' [t a].
  destruct (negb _); [apply silent_same; by eauto|apply silent_refl].
Qed.

Lemma onDeliveredActivities_silent E delivered st :
  silent st (onDeliveredActivities E delivered st).
Proof.
  unfold onDeliveredActivities. apply foldl_silent. intros s [r m].
  apply foldl_silent. intros s' [t a].
  destruct (isAggregation _); [apply silent_same; by eauto|apply silent_refl].
Qed.

Lemma alter_absent (m : gmap nat connectionInfo) sid F : m !! sid = None -> alter F sid m = m.
Proof.
  intros H. apply map_eq. intros i. destruct (decide (sid = i)) as [<-|Hne].
  - by rewrite lookup_alter_eq, H.
  - by rewrite lookup_alter_ne.
Qed.

Lemma finish_registry E sid message stream st :
  registry_inv st ->
  (forall ci, connections st !! sid = Some ci -> stream ∈ streams ci) ->
  registry_inv (finish E sid message stream st).
Proof.
  intros Hinv Hrec. destruct (connections st !! sid) as [ci|] eqn:Hci.
  - specialize (Hrec ci eq_refl). destruct Hinv as (HR & HP & HT).
    unfold finish. split_and!; nsimpl.
    + intros s l sid' Hs Hin. destruct (HR _ _ _ Hs Hin) as (ci' & Hci' & Htt & Hst).
      destruct (decide (sid = sid')) as [<-|Hne].
      * rewrite lookup_alter_eq, Hci. cbn. eexists. split; [done|]. cbn.
        rewrite Hci in Hci'. injection Hci' as <-. split; [by eexists|done].
      * rewrite lookup_alter_ne by done. eauto.
    + intros k sid' m s ans Hk. destruct (HP _ _ _ _ _ Hk) as (ci' & Hci' & Hst).
      destruct (decide (sid = sid')) as [<-|Hne].
      * rewrite lookup_alter_eq, Hci. cbn. eexists. split; [done|]. cbn. congruence.
      * rewrite lookup_alter_ne by done. eauto.
    + intros sid' ci' s. unfold transformersOf. nsimpl.
      destruct (decide (sid = sid')) as [<-|Hne].
      * rewrite lookup_alter_eq, Hci. cbn. intros [= <-]. cbn. intros Hs.
        rewrite lookup_insert_ne by (intros ->; done).
        specialize (HT sid ci s Hci Hs). unfold transformersOf in HT. by rewrite Hci in HT.
      * rewrite lookup_alter_ne by done. intros Hci' Hs.
        specialize (HT sid' ci' s Hci' Hs). unfold transformersOf in HT. rewrite Hci' in HT. by rewrite Hci'.
  - revert Hinv. apply silent_inv. apply silent_same; [|done|by eauto].
    unfold finish. nsimpl. by apply alter_absent.
Qed.

Lemma bindCallback_registry E sid message stream err st ci :
  registry_inv st ->
  connections st !! sid = Some ci ->
  stream ∈ streams ci ->
  registry_inv (bindCallback E sid message stream err st).
Proof.
  intros Hinv Hci Hrec. unfold bindCallback. destruct err as [e|].
  { revert Hinv. apply silent_inv, silent_same; by eauto. }
  destruct Hinv as (HR & HP & HT). unfold finish. split_and!; nsimpl.
  - intros s l sid' Hs Hin.
    assert (Hold : sid' = sid /\ s = stream
                   \/ exists l0, connectionInfosPerStream st !! s = Some l0 /\ sid' ∈ l0).
    { destruct (decide (stream = s)) as [<-|Hne].
      - rewrite lookup_insert_eq in Hs. injection Hs as <-.
        apply elem_of_app in Hin as [Hin|Hin%list_elem_of_singleton]; [|by left].
        right. destruct (connectionInfosPerStream st !! stream) as [l0|]; cbn in Hin.
        + by exists l0.
        + by apply elem_of_nil in Hin.
      - rewrite lookup_insert_ne in Hs by done. right. by exists l. }
    destruct Hold as [[-> ->]|(l0 & Hs0 & Hin0)].
    + rewrite lookup_alter_eq, Hci. cbn. eexists. split; [done|]. cbn. split; [by eexists|done].
    + destruct (HR _ _ _ Hs0 Hin0) as (ci' & Hci' & Htt & Hst).
      destruct (decide (sid = sid')) as [<-|Hne].
      * rewrite lookup_alter_eq, Hci. cbn. eexists. split; [done|]. cbn.
        rewrite Hci in Hci'. injection Hci' as <-. split; [by eexists|done].
      * rewrite lookup_alter_ne by done. eauto.
  - intros k sid' m s ans Hk. destruct (HP _ _ _ _ _ Hk) as (ci' & Hci' & Hst).
    destruct (decide (sid = sid')) as [<-|Hne].
    + rewrite lookup_alter_eq, Hci. cbn. eexists. split; [done|]. cbn. congruence.
    + rewrite lookup_alter_ne by done. eauto.
  - intros sid' ci' s. unfold transformersOf. nsimpl.
    destruct (decide (sid = sid')) as [<-|Hne].
    + rewrite lookup_alter_eq, Hci. cbn. intros [= <-]. cbn. intros Hs.
      rewrite lookup_insert_ne by (intros ->; done).
      specialize (HT sid ci s Hci Hs). unfold transformersOf in HT. by rewrite Hci in HT.
    + rewrite lookup_alter_ne by done. intros Hci' Hs.
      specialize (HT sid' ci' s Hci' Hs). unfold transformersOf in HT. rewrite Hci' in HT. by rewrite Hci'.
Qed.

Lemma recordStream_registry sid ci stream st :
  registry_inv st ->
  connections st !! sid = Some ci ->
  registry_inv (updConn sid (withStreams (streams ci ++ [stream])) st).
Proof.
  intros (HR & HP & HT) Hci. split_and!; nsimpl.
  - intros s l sid' Hs Hin. destruct (HR _ _ _ Hs Hin) as (ci' & Hci' & Htt & Hst).
    destruct (decide (sid = sid')) as [<-|Hne].
    + rewrite lookup_alter_eq, Hci. cbn. eexists. split; [done|]. cbn.
      rewrite Hci in Hci'. injection Hci' as <-. split; [done|]. apply elem_of_app. by left.
    + rewrite lookup_alter_ne by done. eauto.
  - intros k sid' m s ans Hk. destruct (HP _ _ _ _ _ Hk) as (ci' & Hci' & Hst).
    destruct (decide (sid = sid')) as [<-|Hne].
    + rewrite lookup_alter_eq, Hci. cbn. eexists. split; [done|]. cbn.
      rewrite Hci in Hci'. injection Hci' as <-. apply elem_of_app. by left.
    + rewrite lookup_alter_ne by done. eauto.
  - intros sid' ci' s. unfold transformersOf. nsimpl.
    destruct (decide (sid = sid')) as [<-|Hne].
    + rewrite lookup_alter_eq, Hci. cbn. intros [= <-]. cbn.
      intros [Hs _]%not_elem_of_app.
      specialize (HT sid ci s Hci Hs). unfold transformersOf in HT. by rewrite Hci in HT.
    + rewrite lookup_alter_ne by done. intros Hci' Hs.
      specialize (HT sid' ci' s Hci' Hs). unfold transformersOf in HT. rewrite Hci' in HT. by rewrite Hci'.
Qed.

Lemma authzCallback_registry E sid message err st :
  registry_inv st -> registry_inv (authzCallback E sid message err st).
Proof.
  intros Hinv. unfold authzCallback. cbn zeta. destruct err as [e|].
  { revert Hinv. apply silent_inv, silent_same; by eauto. }
  destruct (connections st !! sid) as [ci|] eqn:Hci; [|done].
  case_bool_decide as Hin.
  - apply finish_registry; [done|]. intros ci' Hci'. congruence.
  - pose proof (recordStream_registry sid ci
                  (createActivityStreamId E
                     (prop (prop (prop message "payload") "stream") "resourceId")
                     (prop (prop (prop message "payload") "stream") "streamType"))
                  st Hinv Hci) as Hinv1.
    set (stream := createActivityStreamId E _ _) in *.
    set (st1 := updConn sid (withStreams (streams ci ++ [stream])) st) in *.
    assert (Hci1 : connections st1 !! sid = Some (withStreams (streams ci ++ [stream]) ci)).
    { subst st1. nsimpl. by rewrite lookup_alter_eq, Hci. }
    assert (Hrec : stream ∈ streams (withStreams (streams ci ++ [stream]) ci)).
    { cbn. apply elem_of_app. right. apply list_elem_of_here. }
    unfold _bindQueue. destruct (connectionInfosPerStream st1 !! stream).
    + by eapply bindCallback_registry.
    + destruct Hinv1 as (HR & HP & HT). split_and!; nsimpl.
      * exact HR.
      * intros k sid' m s ans. destruct (decide (nextCall st = k)) as [<-|Hne].
        -- rewrite lookup_insert_eq. intros [= <- <- <- <-]. eauto.
        -- rewrite lookup_insert_ne by done. apply HP.
      * exact HT.
Qed.

Lemma closeStream_registry sid st stream :
  registry_inv st -> registry_inv (closeStream sid st stream).
Proof.
  intros Hinv. unfold closeStream.
  destruct (connectionInfosPerStream st !! stream) as [l|] eqn:Hl; [|done].
  destruct (Nat.eqb (length l) 1).
  - revert Hinv. apply silent_inv, silent_same; [done|done|]. nsimpl. by apply binds_insert.
  - destruct Hinv as (HR & HP & HT). split_and!; nsimpl; [|done|done].
    intros s l' sid' Hs Hin. destruct (decide (stream = s)) as [<-|Hne].
    + rewrite lookup_insert_eq in Hs. injection Hs as <-.
      apply spliceSocket_subset in Hin. by eapply HR.
    + rewrite lookup_insert_ne in Hs by done. by eapply HR.
Qed.

Lemma onClose_registry sid st : registry_inv st -> registry_inv (onClose sid st).
Proof.
  unfold onClose. destruct (connections st !! sid) as [ci|]; [|done].
  generalize (streams ci). intros l. revert st.
  induction l as [|s l IH]; intros st Hinv; cbn; [done|].
  by apply IH, closeStream_registry.
Qed.

Lemma step_registry E st ev st' :
  registry_inv st -> step E st ev = Some st' -> registry_inv st'.
Proof.
  intros Hinv Hstep. destruct ev; cbn in Hstep.
  - destruct (connections st !! sid) eqn:Hsid; [done|]. injection Hstep as <-.
    destruct Hinv as (HR & HP & HT). split_and!; nsimpl.
    + intros s l sid' Hs Hin. destruct (HR _ _ _ Hs Hin) as (ci' & Hci' & Htt & Hst).
      exists ci'. rewrite lookup_insert_ne by (intros ->; congruence). done.
    + intros k sid' m s ans Hk. destruct (HP _ _ _ _ _ Hk) as (ci' & Hci' & Hst).
      exists ci'. rewrite lookup_insert_ne by (intros ->; congruence). done.
    + intros sid' ci' s. unfold transformersOf. nsimpl.
      destruct (decide (sid = sid')) as [<-|Hne].
      * rewrite lookup_insert_eq. by intros [= <-].
      * rewrite lookup_insert_ne by done. intros Hci' Hs.
        specialize (HT sid' ci' s Hci' Hs). unfold transformersOf in HT. rewrite Hci' in HT. by rewrite Hci'.
  - destruct (connections st !! sid) as [ci|]; [|done].
    destruct (socketClosed ci); [done|]. revert Hinv. by eapply silent_inv, onData_silent.
  - destruct (connections st !! sid) as [ci|]; [|done].
    destruct (closeEmitted ci); [done|]. injection Hstep as <-.
    apply onClose_registry. revert Hinv.
    apply silent_inv, (silent_alter _ _ sid withCloseEmitted); by eauto.
  - destruct (connections st !! sid) as [ci|] eqn:Hci; [|done].
    destruct (authenticationTimeout ci) eqn:Ht; try done. injection Hstep as <-.
    destruct (timeoutFires_conns sid st ci Hci) as [Hc Hp].
    revert Hinv. apply silent_inv. eapply (silent_alter _ _ sid); [apply Hc| |apply Hp|].
    + intros ci'. cbn beta. by destruct (ctx ci').
    + unfold authenticationTimeoutCallback. nsimpl. rewrite lookup_alter_eq, Hci. cbn.
      destruct (ctx ci); by eauto.
  - repeat case_match; try done. injection Hstep as <-.
    revert Hinv. apply silent_inv.
    eapply silent_trans; [|apply getPrincipalCallback_silent].
    apply silent_same; [done|done|]. nsimpl. apply binds_delete.
  - repeat case_match; try done. injection Hstep as <-.
    apply authzCallback_registry. revert Hinv. apply silent_inv.
    apply silent_same; [done|done|]. nsimpl. apply binds_delete.
  - destruct (pendingCalls st !! k) as [[| |sid m s [a|]| |]|] eqn:Hk; try done.
    injection Hstep as <-. revert Hinv. apply silent_inv.
    apply silent_same; [by destruct err|by destruct err|].
    intros k' sid' m' s' ans. destruct (decide (k = k')) as [<-|Hne].
    + destruct err; nsimpl; rewrite lookup_insert_eq; intros [= <- <- <- <-]; eauto.
    + destruct err; nsimpl; rewrite lookup_insert_ne by done; eauto.
  - destruct (pendingCalls st !! k) as [[| |sid m s [a|]| |]|] eqn:Hk; try done.
    injection Hstep as <-.
    destruct Hinv as (HR & HP & HT). destruct (HP _ _ _ _ _ Hk) as (ci & Hci & Hst).
    eapply bindCallback_registry; [|exact Hci|exact Hst].
    assert (Hinv : registry_inv st) by done. revert Hinv. apply silent_inv.
    apply silent_same; [done|done|]. nsimpl. apply binds_delete.
  - destruct (pendingCalls st !! k) as [[| | |s [a|]|]|] eqn:Hk; try done.
    injection Hstep as <-. revert Hinv. apply silent_inv.
    apply silent_same; [by destruct err|by destruct err|].
    destruct err; nsimpl; by apply binds_insert.
  - destruct (pendingCalls st !! k) as [[| | |s [a|]|]|] eqn:Hk; try done.
    injection Hstep as <-. destruct Hinv as (HR & HP & HT). split_and!; nsimpl.
    + intros s' l sid' Hs Hin. destruct (decide (s = s')) as [<-|Hne].
      * by rewrite lookup_delete_eq in Hs.
      * rewrite lookup_delete_ne in Hs by done. by eapply HR.
    + intros k' sid' m s' ans Hk'. apply binds_delete in Hk' as [ans' Hk'']. by eapply HP.
    + done.
  - repeat case_match; try done. injection Hstep as <-.
    revert Hinv. apply silent_inv.
    eapply silent_trans; [|apply transformCallback_silent].
    apply silent_same; [done|done|]. nsimpl. apply binds_delete.
  - revert Hinv. by eapply silent_inv, handlePushActivity_silent.
  - injection Hstep as <-. revert Hinv. apply silent_inv, onRoutedActivities_silent.
  - injection Hstep as <-. revert Hinv. apply silent_inv, onDeliveredActivities_silent.
  - revert Hinv. by eapply silent_inv, handlePushActivity_silent.
Qed.

Lemma run_registry E evs st st' : registry_inv st -> run E st evs = Some st' -> registry_inv st'.
Proof.
  revert st. induction evs as [|ev evs IH]; intros st Hinv; cbn.
  - by intros [= <-].
  - destruct (step E st ev) as [st1|] eqn:Hstep; [|done].
    apply IH. by eapply step_registry.
Qed.

Lemma idle_registry : registry_inv idle.
Proof.
  unfold idle. split_and!; nsimpl.
  - intros s l sid H. by rewrite lookup_empty in H.
  - intros k sid m s a H. by rewrite lookup_empty in H.
  - intros sid ci s H. by rewrite lookup_empty in H.
Qed.

Lemma reachable_registry E st : reachable E st -> registry_inv st.
Proof. intros [evs H]. eapply run_registry; [apply idle_registry|done]. Qed.

(** ** A first subscribe whose bind fails *)

(** A first subscribe whose bind fails: the error is relayed, the stream
    stays recorded on the connection and nothing else changes. *)
Lemma subscribe_bind_fails E st sid ci message e :
  connections st !! sid = Some ci ->
  socketClosed ci = false ->
  is_Some (ctx ci) ->
  isSubscribeRequest E message = true ->
  streamOfRequest E message ∉ streams ci ->
  connectionInfosPerStream st !! streamOfRequest E message = None ->
  exists st4,
    run E st [SocketData sid (Some message); AuthzReturns (nextCall st) None;
              BrokerBinds (S (nextCall st)) (Some e); BindReturns (S (nextCall st))] = Some st4
    /\ effects st4 = effects st ++
         [authzCallOf message sid (ctx ci);
          BindQueueToExchange (streamOfRequest E message);
          SocketWrite sid (Response (prop message "id") (Some e))]
    /\ connections st4 !! sid =
         Some (withStreams (streams ci ++ [streamOfRequest E message]) ci)
    /\ connectionInfosPerStream st4 = connectionInfosPerStream st
    /\ bindings st4 = bindings st.
Proof.
  intros Hci Hopen Hctx Hreq Hnew Hlist.
  cbn [run]. rewrite (data_subscribe E sid ci message st Hci Hopen Hctx Hreq).
  rewrite (authz_returns E _ sid message None) by apply lookup_insert_eq.
  rewrite (authzCallback_new_stream E sid ci message) by done.
  unfold _bindQueue. nsimpl. rewrite Hlist.
  cbn [step]. nsimpl. rewrite pending_insert_eq. nsimpl. rewrite pending_insert_eq.
  eexists. split; [reflexivity|].
  unfold bindCallback. nsimpl.
  rewrite lookup_alter_eq, Hci. cbn.
  rewrite <- !app_assoc. by split_and!.
Qed.

Lemma transformerOfRequest_default E message :
  truthy (prop (prop message "payload") "format") = false ->
  transformerOfRequest E message = JStr (INTERNAL E).
Proof. intros H. unfold transformerOfRequest. by rewrite H. Qed.

(** A first subscribe to a stream that a local connection holds already:
    [_bindQueue] calls back at once. *)
Lemma subscribe_held E st sid ci message l :
  connections st !! sid = Some ci ->
  socketClosed ci = false ->
  is_Some (ctx ci) ->
  isSubscribeRequest E message = true ->
  streamOfRequest E message ∉ streams ci ->
  connectionInfosPerStream st !! streamOfRequest E message = Some l ->
  transformersOf st sid (streamOfRequest E message) = [] ->
  exists st2,
    run E st [SocketData sid (Some message); AuthzReturns (nextCall st) None] = Some st2
    /\ effects st2 = effects st ++
         [authzCallOf message sid (ctx ci);
          SocketWrite sid (Response (prop message "id") None)]
    /\ connections st2 !! sid =
         Some (withTransformerTypes
                 (Some (<[streamOfRequest E message := [transformerOfRequest E message]]>
                          (default ∅ (transformerTypes ci))))
                 (withStreams (streams ci ++ [streamOfRequest E message]) ci))
    /\ connectionInfosPerStream st2 =
         <[streamOfRequest E message := l ++ [sid]]> (connectionInfosPerStream st)
    /\ nextCall st2 = S (nextCall st)
    /\ nextJob st2 = nextJob st.
Proof.
  intros Hci Hopen Hctx Hreq Hnew Hlist Htt.
  cbn [run]. rewrite (data_subscribe E sid ci message st Hci Hopen Hctx Hreq).
  rewrite (authz_returns E _ sid message None) by apply lookup_insert_eq.
  rewrite (authzCallback_new_stream E sid ci message) by done.
  unfold _bindQueue. nsimpl. rewrite Hlist.
  eexists. split; [reflexivity|].
  unfold bindCallback, finish. nsimpl. rewrite Hlist. cbn [default].
  rewrite !alter_alter_eq, lookup_alter_eq, Hci. cbn.
  unfold transformersOf in Htt. rewrite Hci in Htt. rewrite Htt.
  rewrite <- !app_assoc. by split_and!.
Qed.

(** What a message for a stream starts when the last connection of the
    array of the stream holds exactly two transformers for it. *)
Lemma dispatch_two E st sid ci l t1 t2 data :
  registry_inv st ->
  connectionInfosPerStream st
    !! createActivityStreamId E (JStr (ra_resourceId data)) (JStr (ra_streamType data))
    = Some (l ++ [sid]) ->
  connections st !! sid = Some ci ->
  transformersOf st sid
    (createActivityStreamId E (JStr (ra_resourceId data)) (JStr (ra_streamType data)))
    = [t1; t2] ->
  exists st',
    step E st (BrokerDelivers data) = Some st'
    /\ effects st' = effects st ++
         map (callOfJob st (nextJob st) data)
           (pushJobs st
              (createActivityStreamId E (JStr (ra_resourceId data)) (JStr (ra_streamType data)))
              l)
         ++ [TransformActivities (nextJob st) sid (ctx ci) (ra_activities data) t1;
             TransformActivities (nextJob st) sid (ctx ci) (ra_activities data) t2]
    /\ exists k,
         pendingCalls st' !! k = Some (PTransform (nextJob st) sid data t1)
         /\ pendingCalls st' !! S k = Some (PTransform (nextJob st) sid data t2).
Proof.
  intros (HR & _ & _) Hl Hci Hkinds.
  set (stream := createActivityStreamId E _ _) in *.
  destruct (handlePushActivity_started E data st) as (st' & Hrun & He & Hp & _).
  { cbn zeta. fold stream. rewrite Hl. cbn. intros sid' Hin.
    destruct (HR _ _ _ Hl Hin) as (ci' & Hci' & Htt & _). eauto. }
  cbn zeta in He, Hp. fold stream in He, Hp. rewrite Hl in He, Hp.
  change (default [] (Some (l ++ [sid]))) with (l ++ [sid]) in He, Hp.
  assert (Hjobs : pushJobs st stream (l ++ [sid]) =
                  pushJobs st stream l ++ [(sid, t1); (sid, t2)]).
  { unfold pushJobs. rewrite flat_map_app. cbn. by rewrite Hkinds. }
  rewrite Hjobs in He, Hp.
  exists st'. split; [done|]. split.
  - rewrite He, map_app. cbn. unfold callOfJob at 2 3, ctxOf. cbn. by rewrite Hci.
  - exists (nextCall st + length (pushJobs st stream l))%nat. split.
    + rewrite (Hp (length (pushJobs st stream l))) by (rewrite length_app; cbn; lia).
      rewrite lookup_app_r by lia. by rewrite Nat.sub_diag.
    + replace (S (nextCall st + length (pushJobs st stream l)))
        with (nextCall st + S (length (pushJobs st stream l)))%nat by lia.
      rewrite (Hp (S (length (pushJobs st stream l)))) by (rewrite length_app; cbn; lia).
      rewrite lookup_app_r by lia.
      by replace (S (length (pushJobs st stream l)) - length (pushJobs st stream l))%nat
        with 1%nat by lia.
Qed.

(** Two formats of one stream, up to the state in which the second
    subscribe has been answered. In a reachable state, a connection that is
    open and holds a context subscribes twice to a stream it had not
    recorded; both requests pass the validation and the authorization, and
    the bind, when one is issued, succeeds. Then both transformers are
    recorded for the stream, in the order of the requests. The two
    subscribes make exactly one broker call, the bind of the first, when the
    stream had no array, and none when it had one; the second subscribe
    never makes one. The connection is appended once to the array of the
    stream. A message of the broker for the stream that arrives in that
    state starts, after the transformations for the connections that were in
    the array before, one transformation per transformer for this
    connection; and a transformation that succeeds writes one push frame
    with its own transformer as format, whatever becomes of the others. *)
Lemma two_formats_one_bind E st sid ci message1 message2 :
  reachable E st ->
  connections st !! sid = Some ci ->
  socketClosed ci = false ->
  is_Some (ctx ci) ->
  isSubscribeRequest E message1 = true ->
  isSubscribeRequest E message2 = true ->
  streamOfRequest E message2 = streamOfRequest E message1 ->
  streamOfRequest E message1 ∉ streams ci ->
  let stream := streamOfRequest E message1 in
  let held := connectionInfosPerStream st !! stream in
  let subscribes :=
    match held with
    | None =>
        [SocketData sid (Some message1); AuthzReturns (nextCall st) None;
         BrokerBinds (S (nextCall st)) None; BindReturns (S (nextCall st));
         SocketData sid (Some message2); AuthzReturns (S (S (nextCall st))) None]
    | Some _ =>
        [SocketData sid (Some message1); AuthzReturns (nextCall st) None;
         SocketData sid (Some message2); AuthzReturns (S (nextCall st)) None]
    end in
  exists st5,
    run E st subscribes = Some st5
    /\ transformersOf st5 sid stream =
         [transformerOfRequest E message1; transformerOfRequest E message2]
    /\ List.filter isBrokerCall (effectsFrom (length (effects st)) st5) =
         match held with
         | None => [BindQueueToExchange stream]
         | Some _ => []
         end
    /\ connectionInfosPerStream st5 !! stream = Some (default [] held ++ [sid])
    /\ (forall data,
          createActivityStreamId E (JStr (ra_resourceId data)) (JStr (ra_streamType data)) =
            stream ->
          exists st6,
            step E st5 (BrokerDelivers data) = Some st6
            /\ effects st6 = effects st5 ++
                 map (callOfJob st5 (nextJob st) data)
                   (pushJobs st5 stream (default [] held))
                 ++ [TransformActivities (nextJob st) sid (ctx ci) (ra_activities data)
                       (transformerOfRequest E message1);
                     TransformActivities (nextJob st) sid (ctx ci) (ra_activities data)
                       (transformerOfRequest E message2)]
            /\ exists k,
                 pendingCalls st6 !! k =
                   Some (PTransform (nextJob st) sid data (transformerOfRequest E message1))
                 /\ pendingCalls st6 !! S k =
                      Some (PTransform (nextJob st) sid data (transformerOfRequest E message2)))
    /\ (forall st6 k job data transformerType res,
          pendingCalls st6 !! k = Some (PTransform job sid data transformerType) ->
          exists st7,
            step E st6 (TransformReturns k res) = Some st7
            /\ (forall k', k' <> k -> pendingCalls st7 !! k' = pendingCalls st6 !! k')
            /\ match res with
               | inl _ => effects st7 = effects st6
               | inr activities =>
                   exists rest,
                     effects st7 = effects st6 ++
                       SocketWrite sid
                         (PushFrame (ra_resourceId data) (ra_streamType data) activities
                            transformerType (ra_numNewActivities data)) :: rest
               end).
Proof.
  intros Hreach Hci Hopen Hctx Hreq1 Hreq2 Hsame Hnew stream held subscribes.
  destruct (reachable_registry E st Hreach) as (_ & _ & HT).
  pose proof (HT sid ci stream Hci Hnew) as Htt.
  set (ci4 := withTransformerTypes
                (Some (<[stream := [transformerOfRequest E message1]]>
                         (default ∅ (transformerTypes ci))))
                (withStreams (streams ci ++ [stream]) ci)).
  assert (Hrec : streamOfRequest E message2 ∈ streams ci4).
  { rewrite Hsame. cbn. apply elem_of_app. right. apply list_elem_of_here. }
  (* the state after the two subscribes, in both cases *)
  assert (Hst5 : exists st5,
    run E st subscribes = Some st5
    /\ effectsFrom (length (effects st)) st5 =
         [authzCallOf message1 sid (ctx ci)]
         ++ match held with None => [BindQueueToExchange stream] | Some _ => [] end
         ++ [SocketWrite sid (Response (prop message1 "id") None);
             authzCallOf message2 sid (ctx ci);
             SocketWrite sid (Response (prop message2 "id") None)]
    /\ connections st5 !! sid =
         Some (withTransformerTypes
                 (Some (<[stream := [transformerOfRequest E message1;
                                     transformerOfRequest E message2]]>
                          (default ∅ (transformerTypes ci))))
                 ci4)
    /\ connectionInfosPerStream st5 !! stream = Some (default [] held ++ [sid])
    /\ nextJob st5 = nextJob st).
  { subst subscribes. destruct held as [l|] eqn:Hheld; subst held.
    - destruct (subscribe_held E st sid ci message1 l Hci Hopen Hctx Hreq1 Hnew Hheld Htt)
        as (st2 & Hrun2 & He2 & Hc2 & Hp2 & Hn2 & Hj2).
      destruct (subscribe_recorded E st2 sid ci4 message2 Hc2 Hopen Hctx Hreq2 Hrec)
        as (st5 & Hrun5 & He5 & Hc5 & Hp5 & Hn5 & Hj5).
      rewrite Hsame in Hc5. fold stream in Hc5. cbn in Hc5. rewrite lookup_insert_eq in Hc5.
      cbn in Hc5. rewrite insert_insert_eq in Hc5.
      exists st5. split_and!.
      + change [SocketData sid (Some message1); AuthzReturns (nextCall st) None;
                SocketData sid (Some message2); AuthzReturns (S (nextCall st)) None]
          with ([SocketData sid (Some message1); AuthzReturns (nextCall st) None] ++
                [SocketData sid (Some message2); AuthzReturns (S (nextCall st)) None]).
        rewrite run_app, Hrun2. by rewrite <- Hn2.
      + unfold effectsFrom. rewrite He5, He2, <- app_assoc, drop_app_length. done.
      + done.
      + rewrite Hp5, Hp2. apply lookup_insert_eq.
      + congruence.
    - destruct (subscribe_fresh E st sid ci message1 Hci Hopen Hctx Hreq1 Hnew Hheld Htt)
        as (st4 & Hrun4 & He4 & Hc4 & Hp4 & _ & Hn4 & Hj4).
      destruct (subscribe_recorded E st4 sid ci4 message2 Hc4 Hopen Hctx Hreq2 Hrec)
        as (st5 & Hrun5 & He5 & Hc5 & Hp5 & Hn5 & Hj5).
      rewrite Hsame in Hc5. fold stream in Hc5. cbn in Hc5. rewrite lookup_insert_eq in Hc5.
      cbn in Hc5. rewrite insert_insert_eq in Hc5.
      exists st5. split_and!.
      + change [SocketData sid (Some message1); AuthzReturns (nextCall st) None;
                BrokerBinds (S (nextCall st)) None; BindReturns (S (nextCall st));
                SocketData sid (Some message2); AuthzReturns (S (S (nextCall st))) None]
          with ([SocketData sid (Some message1); AuthzReturns (nextCall st) None;
                 BrokerBinds (S (nextCall st)) None; BindReturns (S (nextCall st))] ++
                [SocketData sid (Some message2); AuthzReturns (S (S (nextCall st))) None]).
        rewrite run_app, Hrun4. by rewrite <- Hn4.
      + unfold effectsFrom. rewrite He5, He4, <- app_assoc, drop_app_length. done.
      + done.
      + rewrite Hp5, Hp4. apply lookup_insert_eq.
      + congruence. }
  destruct Hst5 as (st5 & Hrun & Heff & Hc5 & Hl5 & Hj5).
  assert (Hkinds : transformersOf st5 sid stream =
                   [transformerOfRequest E message1; transformerOfRequest E message2]).
  { unfold transformersOf. rewrite Hc5. cbn. by rewrite lookup_insert_eq. }
  assert (Hinv5 : registry_inv st5).
  { apply (reachable_registry E). by eapply reachable_run. }
  exists st5. split; [done|]. split; [done|]. split.
  { rewrite Heff. by destruct held. }
  split; [done|]. split.
  - intros data Hdata.
    destruct (dispatch_two E st5 sid
                (withTransformerTypes
                   (Some (<[stream := [transformerOfRequest E message1;
                                       transformerOfRequest E message2]]>
                            (default ∅ (transformerTypes ci))))
                   ci4)
                (default [] held)
                (transformerOfRequest E message1) (transformerOfRequest E message2) data)
      as (st6 & Hstep & He & Hp).
    { done. }
    { by rewrite Hdata. }
    { done. }
    { by rewrite Hdata. }
    rewrite Hdata, Hj5 in He. rewrite Hj5 in Hp. cbn in He. by exists st6.
  - intros st6 k job data transformerType res Hk.
    destruct (transform_returns E st6 k job sid data transformerType res Hk)
      as (st7 & Hstep & He & Hp & _).
    exists st7. split; [done|]. split; [done|].
    destruct res as [e|activities]; [by rewrite He, app_nil_r|by eexists].
Qed.

Lemma two_formats_one_bind_fresh :
  exists st5,
    run sampleCollaborators oneAuthenticated
      [SocketData 1 (Some (subscribeFrame (JNum 2) "c:cam:x" "activity" (JStr "internal")));
       AuthzReturns 1 None; BrokerBinds 2 None; BindReturns 2;
       SocketData 1 (Some (subscribeFrame (JNum 3) "c:cam:x" "activity"
                             (JStr "activitystreams")));
       AuthzReturns 3 None] = Some st5
    /\ transformersOf st5 1 "c:cam:x#activity" = [JStr "internal"; JStr "activitystreams"]
    /\ List.filter isBrokerCall (effectsFrom (length (effects oneAuthenticated)) st5) =
         [BindQueueToExchange "c:cam:x#activity"]
    /\ connectionInfosPerStream st5 !! "c:cam:x#activity" = Some [1%nat].
Proof.
  destruct (two_formats_one_bind sampleCollaborators oneAuthenticated 1
              (connectionOf oneAuthenticated 1)
              (subscribeFrame (JNum 2) "c:cam:x" "activity" (JStr "internal"))
              (subscribeFrame (JNum 3) "c:cam:x" "activity" (JStr "activitystreams")))
    as (st5 & Hrun & Hk & Hb & Hl & _).
  - exists (authenticatedEvents 1 0). vm_compute. reflexivity.
  - vm_compute. reflexivity.
  - vm_compute. reflexivity.
  - vm_compute. by eexists.
  - vm_compute. reflexivity.
  - vm_compute. reflexivity.
  - vm_compute. reflexivity.
  - vm_compute. apply not_elem_of_nil.
  - exists st5. split; [exact Hrun|]. split; [exact Hk|]. split; [exact Hb|exact Hl].
Qed.

(** C5, at the failing input. [_bindQueue] takes the array of a stream
    as the sign that the topic is bound, and the callback of an unbind
    deletes the array of its stream whatever it holds by then. Socket 1 is
    the only subscriber of a stream and closes: its unbind is in flight and
    the array is still there. Socket 2, open and authenticated, now
    subscribes to the stream twice, with two formats. Both requests are
    answered with success and both transformers are recorded, but the two
    subscribes issue no bind at all, where the claim has exactly one. The
    broker then drops the binding and the callback of the unbind deletes the
    array with socket 2 in it: a message for the stream starts no
    transformation and nothing is pushed to socket 2, where the claim has
    two deliveries per message. No call has failed in this run. *)
Theorem two_formats_lost_to_unbind_in_flight :
  exists st st2 st3 st4,
    run sampleCollaborators idle
      (authenticatedEvents 1 0 ++ authenticatedEvents 2 1 ++
       [SocketData 1 (Some (subscribeFrame (JNum 2) "c:cam:x" "activity" JUndefined));
        AuthzReturns 2 None; BrokerBinds 3 None; BindReturns 3;
        SocketCloses 1]) = Some st
    /\ pendingCalls st !! 4%nat = Some (PUnbind "c:cam:x#activity" None)
    /\ connectionInfosPerStream st !! "c:cam:x#activity" = Some [1%nat]
    /\ (socketClosed <$> connections st !! 2%nat) = Some false
    /\ ctxOf st 2 = Some sampleContext
    /\ streamsOf st 2 = []
    /\ isSubscribeRequest sampleCollaborators
         (subscribeFrame (JNum 2) "c:cam:x" "activity" (JStr "internal")) = true
    /\ isSubscribeRequest sampleCollaborators
         (subscribeFrame (JNum 3) "c:cam:x" "activity" (JStr "activitystreams")) = true
    /\ run sampleCollaborators st
         [SocketData 2 (Some (subscribeFrame (JNum 2) "c:cam:x" "activity" (JStr "internal")));
          AuthzReturns 5 None;
          SocketData 2 (Some (subscribeFrame (JNum 3) "c:cam:x" "activity"
                                (JStr "activitystreams")));
          AuthzReturns 6 None] = Some st2
    /\ effectsFrom (length (effects st)) st2 =
         [AuthzHandler 2 (Some sampleContext) (JStr "c:cam:x") JUndefined;
          SocketWrite 2 (Response (JNum 2) None);
          AuthzHandler 2 (Some sampleContext) (JStr "c:cam:x") JUndefined;
          SocketWrite 2 (Response (JNum 3) None)]
    /\ transformersOf st2 2 "c:cam:x#activity" = [JStr "internal"; JStr "activitystreams"]
    /\ connectionInfosPerStream st2 !! "c:cam:x#activity" = Some [1%nat; 2%nat]
    /\ run sampleCollaborators st2 [BrokerUnbinds 4 None; UnbindReturns 4] = Some st3
    /\ effects st3 = effects st2
    /\ (socketClosed <$> connections st3 !! 2%nat) = Some false
    /\ transformersOf st3 2 "c:cam:x#activity" = [JStr "internal"; JStr "activitystreams"]
    /\ connectionInfosPerStream st3 !! "c:cam:x#activity" = None
    /\ bool_decide ("c:cam:x#activity" ∈ bindings st3) = false
    /\ step sampleCollaborators st3 (BrokerDelivers sampleActivity) = Some st4
    /\ effects st4 = effects st3.
Proof.
  do 4 eexists.
  split; [vm_compute; reflexivity|].
  do 7 (split; [vm_compute; reflexivity|]).
  split; [vm_compute; reflexivity|].
  do 3 (split; [vm_compute; reflexivity|]).
  split; [vm_compute; reflexivity|].
  do 5 (split; [vm_compute; reflexivity|]).
  split; [vm_compute; reflexivity|].
  vm_compute; reflexivity.
Qed.

(** ** The default format *)

(** C10, as the code has it. In a reachable state, an open connection that
    holds a context sends a subscribe request without a format that passes
    the validation, and the authorization handler accepts it. If the
    connection has recorded the stream, or another local connection holds
    it, the request is answered with success at once and the internal
    transformer is recorded for the stream. Otherwise a bind is issued: when
    it succeeds the request is answered with success and the internal
    transformer is the one recorded for the stream, and a message of the
    broker for the stream is pushed to the socket in a frame whose format is
    the internal transformer; when it fails its error is the response and no
    transformer is recorded. A transformation that was started with the
    internal transformer and succeeds always writes a frame with that
    format. *)
Theorem omitted_format_is_internal E st sid ci message :
  reachable E st ->
  connections st !! sid = Some ci ->
  socketClosed ci = false ->
  is_Some (ctx ci) ->
  isSubscribeRequest E message = true ->
  truthy (prop (prop message "payload") "format") = false ->
  let stream := streamOfRequest E message in
  let accepted :=
    [authzCallOf message sid (ctx ci); SocketWrite sid (Response (prop message "id") None)] in
  (stream ∈ streams ci ->
   exists st2,
     run E st [SocketData sid (Some message); AuthzReturns (nextCall st) None] = Some st2
     /\ transformersOf st2 sid stream = transformersOf st sid stream ++ [JStr (INTERNAL E)]
     /\ effectsFrom (length (effects st)) st2 = accepted)
  /\ (stream ∉ streams ci ->
      is_Some (connectionInfosPerStream st !! stream) ->
      exists st2,
        run E st [SocketData sid (Some message); AuthzReturns (nextCall st) None] = Some st2
        /\ transformersOf st2 sid stream = [JStr (INTERNAL E)]
        /\ effectsFrom (length (effects st)) st2 = accepted)
  /\ (stream ∉ streams ci ->
      connectionInfosPerStream st !! stream = None ->
      (exists st4,
          run E st [SocketData sid (Some message); AuthzReturns (nextCall st) None;
                    BrokerBinds (S (nextCall st)) None; BindReturns (S (nextCall st))]
            = Some st4
          /\ transformersOf st4 sid stream = [JStr (INTERNAL E)]
          /\ effectsFrom (length (effects st)) st4 =
               [authzCallOf message sid (ctx ci);
                BindQueueToExchange stream;
                SocketWrite sid (Response (prop message "id") None)]
          /\ (forall data activities,
                createActivityStreamId E (JStr (ra_resourceId data))
                  (JStr (ra_streamType data)) = stream ->
                exists st6,
                  run E st4 [BrokerDelivers data;
                             TransformReturns (nextCall st4) (inr activities)] = Some st6
                  /\ effects st6 = effects st4 ++
                       [TransformActivities (nextJob st) sid (ctx ci) (ra_activities data)
                          (JStr (INTERNAL E));
                        SocketWrite sid
                          (PushFrame (ra_resourceId data) (ra_streamType data) activities
                             (JStr (INTERNAL E)) (ra_numNewActivities data));
                        PushCallback (nextJob st)]))
      /\ (forall e, exists st4,
            run E st [SocketData sid (Some message); AuthzReturns (nextCall st) None;
                      BrokerBinds (S (nextCall st)) (Some e); BindReturns (S (nextCall st))]
              = Some st4
            /\ transformersOf st4 sid stream = []
            /\ effectsFrom (length (effects st)) st4 =
                 [authzCallOf message sid (ctx ci);
                  BindQueueToExchange stream;
                  SocketWrite sid (Response (prop message "id") (Some e))]))
  /\ (forall st' k job data activities,
        pendingCalls st' !! k = Some (PTransform job sid data (JStr (INTERNAL E))) ->
        exists st'' rest,
          step E st' (TransformReturns k (inr activities)) = Some st''
          /\ effects st'' = effects st' ++
               SocketWrite sid
                 (PushFrame (ra_resourceId data) (ra_streamType data) activities
                    (JStr (INTERNAL E)) (ra_numNewActivities data)) :: rest).
Proof.
  intros Hreach Hci Hopen Hctx Hreq Hfmt stream accepted.
  destruct (reachable_registry E st Hreach) as (_ & _ & HT).
  pose proof (transformerOfRequest_default E message Hfmt) as Hdef.
  split; [|split; [|split]].
  - intros Hrec.
    destruct (subscribe_recorded E st sid ci message Hci Hopen Hctx Hreq Hrec)
      as (st2 & Hrun & He & Hc & _).
    exists st2. split; [done|]. split.
    + unfold transformersOf. rewrite Hc, Hci. cbn. fold stream.
      by rewrite lookup_insert_eq, Hdef.
    + unfold effectsFrom. by rewrite He, drop_app_length.
  - intros Hnew [l Hl].
    pose proof (HT sid ci stream Hci Hnew) as Htt.
    destruct (subscribe_held E st sid ci message l Hci Hopen Hctx Hreq Hnew Hl Htt)
      as (st2 & Hrun & He & Hc & _).
    exists st2. split; [done|]. split.
    + unfold transformersOf. rewrite Hc. cbn. fold stream.
      by rewrite lookup_insert_eq, Hdef.
    + unfold effectsFrom. by rewrite He, drop_app_length.
  - intros Hnew Hlist.
    pose proof (HT sid ci stream Hci Hnew) as Htt. split.
    + destruct (subscribe_fresh E st sid ci message Hci Hopen Hctx Hreq Hnew Hlist Htt)
        as (st4 & Hrun4 & He4 & Hc4 & Hp4 & _ & Hn4 & Hj4).
      rewrite Hdef in Hc4. fold stream in Hc4, Hp4, He4.
      assert (Hkinds : transformersOf st4 sid stream = [JStr (INTERNAL E)]).
      { unfold transformersOf. rewrite Hc4. cbn. by rewrite lookup_insert_eq. }
      exists st4. split; [done|]. split; [done|]. split.
      { unfold effectsFrom. by rewrite He4, drop_app_length. }
      intros data activities Hdata.
      destruct (handlePushActivity_started E data st4) as (st5 & Hrun & He & Hp & _ & Ht & _).
      { cbn zeta. rewrite Hdata, Hp4, lookup_insert_eq. cbn.
        intros sid' ->%list_elem_of_singleton. eexists. split; [done|]. by eexists. }
      cbn zeta in *. rewrite Hdata in *.
      rewrite Hp4, lookup_insert_eq in He, Hp, Ht.
      unfold pushJobs in He, Hp, Ht. cbn in He, Hp, Ht. rewrite Hkinds in He, Hp, Ht.
      cbn in He, Hp, Ht. unfold callOfJob, ctxOf in He. cbn in He. rewrite Hc4 in He.
      cbn in He. rewrite Hj4 in He, Hp, Ht.
      specialize (Hp 0%nat). rewrite Nat.add_0_r in Hp. specialize (Hp ltac:(lia)).
      cbn in Hp.
      destruct (transform_returns E st5 (nextCall st4) (nextJob st) sid data
                  (JStr (INTERNAL E)) (inr activities) Hp) as (st6 & Hrun6 & He6 & _).
      exists st6. split.
      { cbn [run]. cbn [step]. rewrite Hrun. cbn [step] in Hrun6. by rewrite Hrun6. }
      rewrite He6, He, Ht. cbn. by rewrite <- app_assoc.
    + intros e.
      destruct (subscribe_bind_fails E st sid ci message e Hci Hopen Hctx Hreq Hnew Hlist)
        as (st4 & Hrun4 & He4 & Hc4 & _).
      exists st4. split; [done|]. split.
      * unfold transformersOf in *. rewrite Hc4. rewrite Hci in Htt. done.
      * unfold effectsFrom. by rewrite He4, drop_app_length.
  - intros st' k job data activities Hk.
    destruct (transform_returns E st' k job sid data (JStr (INTERNAL E)) (inr activities) Hk)
      as (st'' & Hstep & He & _).
    exists st''. eexists. split; [done|exact He].
Qed.

Lemma omitted_format_is_internal_witness :
  exists st4,
    run sampleCollaborators oneAuthenticated
      [SocketData 1 (Some (subscribeFrame (JNum 2) "c:cam:x" "activity" JUndefined));
       AuthzReturns 1 None; BrokerBinds 2 None; BindReturns 2] = Some st4
    /\ transformersOf st4 1 "c:cam:x#activity" = [JStr "internal"]
    /\ effectsFrom (length (effects oneAuthenticated)) st4 =
         [AuthzHandler 1 (Some sampleContext) (JStr "c:cam:x") JUndefined;
          BindQueueToExchange "c:cam:x#activity";
          SocketWrite 1 (Response (JNum 2) None)].
Proof.
  destruct (omitted_format_is_internal sampleCollaborators oneAuthenticated 1
              (connectionOf oneAuthenticated 1)
              (subscribeFrame (JNum 2) "c:cam:x" "activity" JUndefined))
    as (_ & _ & H & _).
  - exists (authenticatedEvents 1 0). vm_compute. reflexivity.
  - vm_compute. reflexivity.
  - vm_compute. reflexivity.
  - vm_compute. by eexists.
  - vm_compute. reflexivity.
  - vm_compute. reflexivity.
  - destruct H as [(st4 & Hrun & Hk & He & _) _].
    + vm_compute. apply not_elem_of_nil.
    + vm_compute. reflexivity.
    + exists st4. split; [exact Hrun|]. split; [exact Hk|exact He].
Defined.

(** C10 as stated fails when the bind fails: the request passed
    the validation and the authorization, and no transformer is recorded. *)
Lemma omitted_format_not_recorded_when_bind_fails :
  ~ (forall st sid ci message answer,
        reachable sampleCollaborators st ->
        connections st !! sid = Some ci ->
        socketClosed ci = false ->
        is_Some (ctx ci) ->
        isSubscribeRequest sampleCollaborators message = true ->
        truthy (prop (prop message "payload") "format") = false ->
        streamOfRequest sampleCollaborators message ∉ streams ci ->
        connectionInfosPerStream st !! streamOfRequest sampleCollaborators message = None ->
        exists st4,
          run sampleCollaborators st
            [SocketData sid (Some message); AuthzReturns (nextCall st) None;
             BrokerBinds (S (nextCall st)) answer; BindReturns (S (nextCall st))] = Some st4
          /\ transformersOf st4 sid (streamOfRequest sampleCollaborators message) =
               [JStr (INTERNAL sampleCollaborators)]).
Proof.
  intros H.
  destruct (H oneAuthenticated 1%nat (connectionOf oneAuthenticated 1)
              (subscribeFrame (JNum 2) "c:cam:x" "activity" JUndefined)
              (Some (Error 500 "bind failed")))
    as (st4 & Hrun & Hk).
  - exists (authenticatedEvents 1 0). vm_compute. reflexivity.
  - vm_compute. reflexivity.
  - vm_compute. reflexivity.
  - vm_compute. by eexists.
  - vm_compute. reflexivity.
  - vm_compute. reflexivity.
  - vm_compute. apply not_elem_of_nil.
  - vm_compute. reflexivity.
  - vm_compute in Hrun. injection Hrun as <-. vm_compute in Hk. discriminate Hk.
Qed.

(** * Further properties *)

(** ** The sample states are reachable *)

Lemma stateAfter_reachable evs :
  is_Some (run sampleCollaborators idle evs) -> reachable sampleCollaborators (stateAfter evs).
Proof. intros [st H]. exists evs. unfold stateAfter. by rewrite H. Qed.

Lemma twoSubscribers_reachable : reachable sampleCollaborators twoSubscribers.
Proof. apply stateAfter_reachable. vm_compute. by eexists. Qed.

Lemma twoInFlight_reachable : reachable sampleCollaborators twoInFlight.
Proof.
  apply (reachable_run sampleCollaborators twoSubscribers [BrokerDelivers sampleActivity]).
  - exact twoSubscribers_reachable.
  - vm_compute. reflexivity.
Qed.

(** ** Which handler makes which call *)

Lemma appends_same P st st' : effects st' = effects st -> appends P st st'.
Proof. intros H. exists []. by rewrite app_nil_r. Qed.

Lemma appends_refl P st : appends P st st.
Proof. by apply appends_same. Qed.

Lemma appends_trans P a b c : appends P a b -> appends P b c -> appends P a c.
Proof.
  intros (es1 & H1 & F1) (es2 & H2 & F2). exists (es1 ++ es2).
  rewrite H2, H1, app_assoc. split; [done|]. by apply Forall_app.
Qed.

Lemma appends_weaken (P Q : effect -> Prop) st st' :
  (forall e, P e -> Q e) -> appends P st st' -> appends Q st st'.
Proof.
  intros HPQ (es & H & F). exists es. split; [done|]. eapply Forall_impl; eauto.
Qed.

Lemma appends_emit (P : effect -> Prop) e st st' :
  P e -> appends P st st' -> appends P st (emit e st').
Proof.
  intros He (es & H & F). exists (es ++ [e]). nsimpl. rewrite H, app_assoc. split; [done|].
  apply Forall_app. split; [done|]. by apply Forall_singleton.
Qed.

Lemma foldl_appends {A} P (f : node -> A -> node) (l : list A) st :
  (forall s a, appends P s (f s a)) -> appends P st (foldl f st l).
Proof.
  intros Hf. revert st. induction l as [|a l IH]; intros st; cbn [foldl].
  - apply appends_refl.
  - eapply appends_trans; [apply Hf|apply IH].
Qed.

Lemma appends_silent P st st' st'' :
  effects st'' = effects st' -> appends P st st' -> appends P st st''.
Proof. intros Heq (es & H & F). exists es. by rewrite Heq. Qed.

Lemma appends_updConn P sid F st st' : appends P st st' -> appends P st (updConn sid F st').
Proof. by apply appends_silent. Qed.

Lemma appends_await P p st st' : appends P st st' -> appends P st (await p st').
Proof. by apply appends_silent. Qed.

Lemma appends_setPerStream P F st st' : appends P st st' -> appends P st (setPerStream F st').
Proof. by apply appends_silent. Qed.

Lemma appends_setTodo P F st st' : appends P st st' -> appends P st (setTodo F st').
Proof. by apply appends_silent. Qed.

Lemma appends_setPending P F st st' : appends P st st' -> appends P st (setPending F st').
Proof. by apply appends_silent. Qed.

Lemma appends_setBindings P F st st' : appends P st st' -> appends P st (setBindings F st').
Proof. by apply appends_silent. Qed.

(** The cases of an event, with the names of its arguments. *)
Ltac events ev :=
  destruct ev as [sid|sid frm|sid|sid|k res|k err|k err|k|k err|k|k res|data|routed|delivered
                 |data immediate].

(** Peel the state updates of a handler off, the last one first. *)
Ltac calls :=
  unfold finish, clearTimeout, socketClose, _writeResponse, _push, answered, unbindCallback,
    registerConnection, setConnections;
  repeat first
    [ assumption
    | apply appends_refl
    | apply appends_emit; [unfold ofKinds; cbn; tauto|]
    | apply appends_updConn
    | apply appends_await
    | apply appends_setPerStream
    | apply appends_setTodo
    | apply appends_setPending
    | apply appends_setBindings
    | apply appends_same; reflexivity ].

Lemma authenticate_calls E sid message st st' :
  _authenticate E sid message st = Some st' ->
  appends (ofKinds [KResponse; KClose; KGetPrincipal]) st st'.
Proof. unfold _authenticate. cbn zeta. intros H. repeat case_match; simplify_eq; calls. Qed.

Lemma subscribe_calls E sid message st :
  appends (ofKinds [KResponse; KAuthz]) st (_subscribe E sid message st).
Proof.
  unfold _subscribe. cbn zeta.
  destruct (_ || _); [calls|].
  destruct (_ && _); [calls|].
  destruct (negb _); [calls|].
  destruct (connections st !! sid) as [ci|]; calls.
Qed.

Lemma onData_calls E sid msg st st' :
  onData E sid msg st = Some st' ->
  appends (ofKinds [KResponse; KClose; KGetPrincipal; KAuthz]) st st'.
Proof.
  unfold onData. intros H.
  destruct msg as [message|]; [|injection H as <-; calls].
  destruct (connections st !! sid) as [ci|]; [|by destruct message].
  assert (Hm : (if negb (truthy (prop message "id")) then
            Some (socketClose sid
                    (_writeResponse sid (JNum 0)
                       (Some (Error 400 "Missing id on the message")) st))
          else if negb (bool_decide (is_Some (ctx ci)))
                  && negb (strictEqStr (prop message "name") "authentication") then
            Some (socketClose sid
                    (_writeResponse sid (prop message "id")
                       (Some (Error 401 "The first frame should be an authentication frame"))
                       st))
          else if strictEqStr (prop message "name") "authentication" then
            _authenticate E sid message st
          else if strictEqStr (prop message "name") "subscribe" then
            Some (_subscribe E sid message st)
          else Some st) = Some st') by (destruct message; done).
  clear H.
  destruct (negb (truthy _)); [injection Hm as <-; calls|].
  destruct (_ && _); [injection Hm as <-; calls|].
  destruct (strictEqStr _ "authentication").
  { eapply appends_weaken; [|by eapply authenticate_calls].
    unfold ofKinds. cbn. tauto. }
  destruct (strictEqStr _ "subscribe"); injection Hm as <-.
  - eapply appends_weaken; [|apply subscribe_calls]. unfold ofKinds. cbn. tauto.
  - apply appends_refl.
Qed.

Lemma timeout_calls sid st0 st :
  appends (ofKinds [KResponse; KClose]) st0 st ->
  appends (ofKinds [KResponse; KClose]) st0 (authenticationTimeoutCallback sid st).
Proof.
  intros H. unfold authenticationTimeoutCallback. repeat case_match; calls.
Qed.

Lemma getPrincipalCallback_calls E sid message res st0 st :
  appends (ofKinds [KResponse; KClose; KClearTimeout]) st0 st ->
  appends (ofKinds [KResponse; KClose; KClearTimeout]) st0
    (getPrincipalCallback E sid message res st).
Proof.
  intros H. unfold getPrincipalCallback. cbn zeta. destruct res as [e|u]; [calls|].
  destruct (negb _); calls.
Qed.

Lemma bindCallback_calls E ks sid message stream err st0 st :
  In KResponse ks ->
  appends (ofKinds ks) st0 st ->
  appends (ofKinds ks) st0 (bindCallback E sid message stream err st).
Proof.
  intros Hk H. unfold bindCallback. destruct err.
  - unfold _writeResponse. apply appends_emit; [done|done].
  - unfold finish, _writeResponse. cbn zeta. apply appends_emit; [done|]. calls.
Qed.

Lemma authzCallback_calls E sid message err st0 st :
  appends (ofKinds [KResponse; KBind]) st0 st ->
  appends (ofKinds [KResponse; KBind]) st0 (authzCallback E sid message err st).
Proof.
  intros H. unfold authzCallback. cbn zeta. destruct err; [calls|].
  destruct (connections st !! sid) as [ci|]; [|calls].
  case_bool_decide; [calls|].
  unfold _bindQueue. set (st1 := updConn sid _ st).
  assert (H1 : appends (ofKinds [KResponse; KBind]) st0 st1) by (subst st1; calls).
  clearbody st1. destruct (connectionInfosPerStream st1 !! _).
  - apply bindCallback_calls; [cbn; tauto|done].
  - calls.
Qed.

Lemma onClose_calls sid st0 st :
  appends (ofKinds [KUnbind]) st0 st -> appends (ofKinds [KUnbind]) st0 (onClose sid st).
Proof.
  intros H. unfold onClose. destruct (connections st !! sid) as [ci|]; [|done].
  eapply appends_trans; [exact H|]. apply foldl_appends. intros s stream.
  unfold closeStream. repeat case_match; calls.
Qed.

Lemma transformCallback_calls ks job sid data t res st0 st :
  In KPushFrame ks -> In KCallback ks ->
  appends (ofKinds ks) st0 st ->
  appends (ofKinds ks) st0 (transformCallback job sid data t res st).
Proof.
  intros H1 H2 H. unfold transformCallback. destruct res; [done|]. cbn zeta.
  destruct (Z.eqb _ 0).
  - apply appends_emit; [done|]. apply appends_setTodo. by apply appends_emit.
  - apply appends_setTodo. by apply appends_emit.
Qed.

(** The calls of a dispatch are of the kinds [ks] when [ks] holds the
    transformations and, unless every transformation is answered later, what
    the callback of a transformation calls. *)
Lemma handlePushActivity_calls E ks immediate data st st' :
  In KTransform ks ->
  (immediate = later \/ (In KPushFrame ks /\ In KCallback ks)) ->
  _handlePushActivity E immediate data st = Some st' -> appends (ofKinds ks) st st'.
Proof.
  intros Hk Hks. unfold _handlePushActivity. cbn zeta.
  set (st0 := Node _ _ _ _ _ _ _ _).
  assert (H0 : appends (ofKinds ks) st st0) by (by apply appends_same).
  clearbody st0.
  match goal with |- foldl _ _ ?l = _ -> _ => generalize l end. intros l.
  revert st0 H0. induction l as [|sid l IH]; intros st0 H0 H; cbn [foldl] in H.
  - by injection H as <-.
  - unfold pushToConnection at 2 in H.
    destruct (connections st0 !! sid) as [ci|].
    2:{ clear -H. exfalso. induction l; cbn in H; [done|auto]. }
    destruct (transformerTypes ci) as [tts|].
    2:{ clear -H. exfalso. induction l; cbn in H; [done|auto]. }
    eapply IH; [|exact H]. eapply appends_trans; [exact H0|].
    apply foldl_appends. intros s t. unfold startTransform. cbn zeta.
    destruct Hks as [->|[H1 H2]].
    + cbn. apply appends_await, appends_emit; [done|]. apply appends_setTodo, appends_refl.
    + destruct (immediate _).
      * apply transformCallback_calls; [done|done|].
        apply appends_emit; [done|]. apply appends_setTodo, appends_refl.
      * apply appends_await, appends_emit; [done|]. apply appends_setTodo, appends_refl.
Qed.

Lemma listeners_calls E routed delivered st :
  appends (ofKinds [KSubmit]) st (onRoutedActivities E routed st)
  /\ appends (ofKinds [KSubmit]) st (onDeliveredActivities E delivered st).
Proof.
  split.
  - unfold onRoutedActivities. apply foldl_appends. intros s [r m].
    apply foldl_appends. intros s' [t a]. destruct (negb _); calls.
  - unfold onDeliveredActivities. apply foldl_appends. intros s [r m].
    apply foldl_appends. intros s' [t a]. destruct (isAggregation _); calls.
Qed.

(** One event appends calls of the kinds of its handler. *)
Lemma step_calls E st ev st' :
  step E st ev = Some st' -> appends (ofKinds (kindsOf ev)) st st'.
Proof.
  events ev; cbn [step kindsOf]; intros H.
  - destruct (connections st !! sid); [done|]. injection H as <-. calls.
  - destruct (connections st !! sid) as [ci|]; [|done].
    destruct (socketClosed ci); [done|]. by apply onData_calls in H.
  - destruct (connections st !! sid) as [ci|]; [|done].
    destruct (closeEmitted ci); [done|]. injection H as <-. apply onClose_calls. calls.
  - destruct (connections st !! sid) as [ci|]; [|done].
    destruct (authenticationTimeout ci); try done. injection H as <-.
    apply timeout_calls. calls.
  - destruct (pendingCalls st !! k) as [[]|]; try done. injection H as <-.
    apply getPrincipalCallback_calls. calls.
  - destruct (pendingCalls st !! k) as [[]|]; try done. injection H as <-.
    apply authzCallback_calls. calls.
  - destruct (pendingCalls st !! k) as [[]|]; try done. destruct answer; try done.
    injection H as <-. destruct err; calls.
  - destruct (pendingCalls st !! k) as [[]|]; try done. destruct answer; try done.
    injection H as <-.
    apply bindCallback_calls; [cbn; tauto|]. calls.
  - destruct (pendingCalls st !! k) as [[]|]; try done. destruct answer; try done.
    injection H as <-. destruct err; calls.
  - destruct (pendingCalls st !! k) as [[]|]; try done. destruct answer; try done.
    injection H as <-. calls.
  - destruct (pendingCalls st !! k) as [[]|]; try done. injection H as <-.
    apply transformCallback_calls; [cbn; tauto|cbn; tauto|]. calls.
  - apply (handlePushActivity_calls E [KTransform]) in H; [done|cbn; tauto|by left].
  - injection H as <-. apply listeners_calls. exact [].
  - injection H as <-. apply (listeners_calls E []).
  - apply (handlePushActivity_calls E [KTransform; KPushFrame; KCallback]) in H;
      [done|cbn; tauto|right; cbn; tauto].
Qed.

(** X1. Which handler makes which call. One event makes the node append
    calls to those it has made, and only calls of the kinds its handler
    contains: only a frame of a socket, the authentication timer and the
    answer of the principal lookup close a socket, only the callback of an
    authorization binds, only the ['close'] handler unbinds, only a listener
    publishes, only a message of the broker starts transformations, and only
    the callback of a transformation writes a push frame or calls the
    completion callback. Opening a socket and the callback of an unbind make
    no call at all, and the callback of a bind only writes a response. *)
Theorem calls_of_each_handler E st ev st' :
  step E st ev = Some st' -> appends (ofKinds (kindsOf ev)) st st'.
Proof. apply step_calls. Qed.

Lemma calls_of_each_handler_witness :
  appends (ofKinds [KTransform]) twoSubscribers
    (default idle (step sampleCollaborators twoSubscribers (BrokerDelivers sampleActivity))).
Proof.
  apply (calls_of_each_handler sampleCollaborators twoSubscribers (BrokerDelivers sampleActivity)).
  vm_compute. reflexivity.
Defined.

(** ** Frames outside the protocol *)

(** X2. What the ['data'] handler does with frames outside the protocol,
    on an open connection. Among the frames that are not authentication
    frames it throws on exactly one, the JSON value [null], whose [id] it
    reads without a guard. An authentication frame with an id is handed to
    [_authenticate], so the handler throws on it exactly when a check of the
    validator does. A frame that is not JSON is answered with the error 400
    "Malformed message" under id 0 and the socket is closed, and nothing
    else changes. On a connection that holds a context, a frame with an id
    whose name is neither [authentication] nor [subscribe] is dropped: no
    response is written and nothing changes. *)
Theorem frames_outside_the_protocol E st sid ci :
  connections st !! sid = Some ci ->
  socketClosed ci = false ->
  (forall message,
      strictEqStr (prop message "name") "authentication" = false ->
      (step E st (SocketData sid (Some message)) = None <-> message = JNull))
  /\ (forall message,
        truthy (prop message "id") = true ->
        strictEqStr (prop message "name") "authentication" = true ->
        step E st (SocketData sid (Some message)) = _authenticate E sid message st)
  /\ step E st (SocketData sid None) =
       Some (socketClose sid
               (_writeResponse sid (JNum 0) (Some (Error 400 "Malformed message")) st))
  /\ (forall st', step E st (SocketData sid None) = Some st' ->
        effects st' = effects st ++
          [SocketWrite sid (Response (JNum 0) (Some (Error 400 "Malformed message")));
           SocketClose sid]
        /\ connections st' = alter withSocketClosed sid (connections st)
        /\ connectionInfosPerStream st' = connectionInfosPerStream st
        /\ pendingCalls st' = pendingCalls st
        /\ bindings st' = bindings st)
  /\ (forall message,
        is_Some (ctx ci) ->
        truthy (prop message "id") = true ->
        strictEqStr (prop message "name") "authentication" = false ->
        strictEqStr (prop message "name") "subscribe" = false ->
        step E st (SocketData sid (Some message)) = Some st).
Proof.
  intros Hci Hopen. split_and!.
  - intros message Hname. cbn [step]. rewrite Hci, Hopen.
    destruct (isNull message) eqn:Hnull.
    { by destruct message. }
    rewrite (onData_parsed E sid message st ci Hnull Hci), Hname.
    split; [|by intros ->]. repeat case_match; done.
  - intros message Hid Hname. cbn [step]. rewrite Hci, Hopen.
    rewrite (onData_parsed E sid message st ci (truthy_prop_not_null _ _ Hid) Hci).
    rewrite Hid, Hname. cbn [negb]. by rewrite andb_false_r.
  - cbn [step]. by rewrite Hci, Hopen.
  - intros st'. cbn [step]. rewrite Hci, Hopen. cbn [onData]. intros [= <-].
    split_and!; try done. cbn. by rewrite <- app_assoc.
  - intros message Hctx Hid Hauth Hsub. cbn [step]. rewrite Hci, Hopen.
    rewrite (onData_parsed E sid message st ci (truthy_prop_not_null _ _ Hid) Hci).
    rewrite Hid, Hauth, Hsub. cbn [negb]. rewrite (bool_decide_eq_true_2 _ Hctx). done.
Qed.

Lemma frames_outside_the_protocol_witness :
  step sampleCollaborators oneAuthenticated (SocketData 1 (Some JNull)) = None
  /\ step sampleCollaborators oneAuthenticated
       (SocketData 1 (Some (JObj [("id", JNum 7); ("name", JStr "unsubscribe")])))
     = Some oneAuthenticated
  /\ step sampleCollaborators oneAuthenticated
       (SocketData 1
          (Some (JObj [("id", JNum 8); ("name", JStr "authentication");
                       ("payload", JObj [("tenantAlias", JBool true)])])))
     = None.
Proof.
  destruct (frames_outside_the_protocol sampleCollaborators oneAuthenticated 1
              (connectionOf oneAuthenticated 1)) as (H1 & H2 & _ & _ & H5).
  - vm_compute. reflexivity.
  - vm_compute. reflexivity.
  - split; [by apply H1|]. split.
    + apply H5.
      * vm_compute. by eexists.
      * reflexivity.
      * reflexivity.
      * reflexivity.
    + rewrite H2; reflexivity.
Defined.

(** ** The tests of an authentication frame *)

Lemma authenticate_cascade E sid message st :
  _authenticate E sid message st =
    match authenticationOutcome E message with
    | None => None
    | Some (Some e) =>
        Some (socketClose sid (_writeResponse sid (prop message "id") (Some e) st))
    | Some None =>
        Some (await (PPrincipal sid message)
                (emit (GetPrincipal sid (prop (prop message "payload") "userId")) st))
    end.
Proof.
  unfold _authenticate, authenticationOutcome. cbn zeta.
  destruct (truthy (prop message "payload")); cbn [negb]; [|done].
  destruct (notEmpty E _) as [[]|]; [| |done];
    (destruct (isUserId E _) as [[]|]; [| |done]);
    destruct (isObject _); cbn; try done.
  destruct (isInt E _) as [[]|]; [| |done]; by destruct (notNull E _) as [[]|].
Qed.

(** X3. [_authenticate] collects the errors of its tests in a validator and
    reports the first one: when no test throws, the frame is answered with
    the error of the first test it fails, in the order payload, tenant
    alias, user id, signature object, expires, signature. That error has
    code 400, the socket is closed and no principal is looked up. A frame
    that passes every test starts exactly one principal lookup, for its user
    id, and writes nothing. The handler throws, having written nothing and
    with the socket left open, exactly when the frame has a payload and a
    test that is run throws: the test of the tenant alias or of the user id,
    which both run whatever the other finds, or, once those two and the test
    of the signature object have passed, one of the two tests of the
    signature. *)
Theorem authenticate_reports_first_failed_test E sid message st :
  _authenticate E sid message st =
    match authenticationOutcome E message with
    | None => None
    | Some (Some e) =>
        Some (socketClose sid (_writeResponse sid (prop message "id") (Some e) st))
    | Some None =>
        Some (await (PPrincipal sid message)
                (emit (GetPrincipal sid (prop (prop message "payload") "userId")) st))
    end
  /\ (forall e, authenticationOutcome E message = Some (Some e) -> code e = 400)
  /\ (_authenticate E sid message st = None <->
      truthy (prop message "payload") = true
      /\ (notEmpty E (prop (prop message "payload") "tenantAlias") = None
          \/ isUserId E (prop (prop message "payload") "userId") = None
          \/ (notEmpty E (prop (prop message "payload") "tenantAlias") = Some true
              /\ isUserId E (prop (prop message "payload") "userId") = Some true
              /\ isObject (prop (prop message "payload") "signature") = true
              /\ (isInt E (prop (prop (prop message "payload") "signature") "expires") = None
                  \/ notNull E (prop (prop (prop message "payload") "signature") "signature")
                     = None)))).
Proof.
  split_and!.
  - apply authenticate_cascade.
  - unfold authenticationOutcome. cbn zeta. intros e.
    repeat case_match; intros [= <-]; done.
  - unfold _authenticate. cbn zeta.
    destruct (truthy (prop message "payload")); cbn [negb]; [|by split; [|intros [? _]]].
    destruct (notEmpty E _) as [[]|] eqn:H1;
      [| |by split; [intros _; split; [done|by left]|done]];
      (destruct (isUserId E _) as [[]|] eqn:H2;
         [| |by split; [intros _; split; [done|right; by left]|done]]);
      destruct (isObject _) eqn:H3; cbn;
      try (split; [done|]; intros [_ [?|[?|(?&?&?&?)]]]; done).
    destruct (isInt E _) as [[]|] eqn:H4;
      [| |by split; [intros _; split; [done|]; right; right; split_and!; auto|done]];
      (destruct (notNull E _) as [[]|] eqn:H5;
         [| |by split; [intros _; split; [done|]; right; right; split_and!; auto|done]]);
      cbn; split; try done; intros [_ [?|[?|(_&_&_&[?|?])]]]; done.
Qed.

Lemma authenticate_reports_first_failed_test_witness :
  _authenticate sampleCollaborators 1
    (JObj [("id", JNum 1);
           ("payload", JObj [("tenantAlias", JStr ""); ("userId", JStr "nobody")])]) idle
    = Some (socketClose 1
              (_writeResponse 1 (JNum 1) (Some (Error 400 "A tenant needs to be provided"))
                 idle))
  /\ _authenticate sampleCollaborators 1
       (JObj [("id", JNum 1);
              ("payload", JObj [("tenantAlias", JStr ""); ("userId", JBool true)])]) idle
     = None.
Proof.
  split.
  - destruct (authenticate_reports_first_failed_test sampleCollaborators 1
                (JObj [("id", JNum 1);
                       ("payload", JObj [("tenantAlias", JStr ""); ("userId", JStr "nobody")])])
                idle) as (H & _).
    rewrite H. reflexivity.
  - apply (authenticate_reports_first_failed_test sampleCollaborators 1
             (JObj [("id", JNum 1);
                    ("payload", JObj [("tenantAlias", JStr ""); ("userId", JBool true)])])
             idle).
    split; [reflexivity|]. right. left. reflexivity.
Defined.

(** ** Closing a socket *)

Lemma closesExplained_app a b :
  closesExplained a -> closesExplained b -> closesExplained (a ++ b).
Proof.
  intros Ha Hb i sid Hi. destruct (decide (i < length a)%nat) as [Hlt|Hge].
  - rewrite lookup_app_l in Hi by done. destruct (Ha i sid Hi) as (j & id & err & -> & Hj).
    exists j, id, err. split; [done|]. rewrite lookup_app_l by lia. done.
  - rewrite lookup_app_r in Hi by lia. destruct (Hb _ sid Hi) as (j & id & err & Hij & Hj).
    exists (length a + j)%nat, id, err. split; [lia|].
    rewrite lookup_app_r by lia. by replace (length a + j - length a)%nat with j by lia.
Qed.

Lemma closesExplained_none es :
  Forall (fun e => kindOf e <> KClose) es -> closesExplained es.
Proof.
  intros HF i sid Hi. rewrite Forall_forall in HF.
  apply list_elem_of_lookup_2, HF in Hi. done.
Qed.

Lemma closesExplained_kinds ks es :
  ~ In KClose ks -> Forall (ofKinds ks) es -> closesExplained es.
Proof.
  intros Hk HF. apply closesExplained_none. eapply Forall_impl; [exact HF|].
  intros e He Hc. unfold ofKinds in He. by rewrite Hc in He.
Qed.

Lemma closesExplained_close sid id err :
  closesExplained [SocketWrite sid (Response id (Some err)); SocketClose sid].
Proof.
  intros [|[|i]] sid' Hi; try done. injection Hi as <-. by exists 0%nat, id, err.
Qed.

(** The handlers that close a socket do it right after they have written the
    error. *)
Lemma closeWrite_effects sid id err st :
  effects (socketClose sid (_writeResponse sid id (Some err) st)) =
    effects st ++ [SocketWrite sid (Response id (Some err)); SocketClose sid].
Proof. cbn. by rewrite <- app_assoc. Qed.

Lemma step_closesExplained E st ev st' :
  step E st ev = Some st' ->
  exists es, effects st' = effects st ++ es /\ closesExplained es.
Proof.
  intros H.
  assert (Hother : ~ In KClose (kindsOf ev) ->
            exists es, effects st' = effects st ++ es /\ closesExplained es).
  { intros Hk. destruct (step_calls E st ev st' H) as (es & He & HF).
    exists es. split; [done|]. by eapply closesExplained_kinds. }
  events ev; try (apply Hother; cbn; intuition discriminate); clear Hother; cbn [step] in H.
  - (* a frame *)
    destruct (connections st !! sid) as [ci|] eqn:Hci; [|done].
    destruct (socketClosed ci); [done|]. unfold onData in H.
    destruct frm as [message|].
    2:{ injection H as <-. eexists. split; [rewrite closeWrite_effects; reflexivity|].
        apply closesExplained_close. }
    rewrite Hci in H.
    assert (Hm : (if negb (truthy (prop message "id")) then
            Some (socketClose sid
                    (_writeResponse sid (JNum 0)
                       (Some (Error 400 "Missing id on the message")) st))
          else if negb (bool_decide (is_Some (ctx ci)))
                  && negb (strictEqStr (prop message "name") "authentication") then
            Some (socketClose sid
                    (_writeResponse sid (prop message "id")
                       (Some (Error 401 "The first frame should be an authentication frame"))
                       st))
          else if strictEqStr (prop message "name") "authentication" then
            _authenticate E sid message st
          else if strictEqStr (prop message "name") "subscribe" then
            Some (_subscribe E sid message st)
          else Some st) = Some st') by (destruct message; done).
    clear H.
    destruct (negb (truthy _)).
    { injection Hm as <-. eexists. split; [rewrite closeWrite_effects; reflexivity|].
      apply closesExplained_close. }
    destruct (_ && _).
    { injection Hm as <-. eexists. split; [rewrite closeWrite_effects; reflexivity|].
      apply closesExplained_close. }
    destruct (strictEqStr _ "authentication").
    { rewrite authenticate_cascade in Hm.
      destruct (authenticationOutcome E message) as [[e|]|]; [| |done]; injection Hm as <-.
      - eexists. split; [rewrite closeWrite_effects; reflexivity|]. apply closesExplained_close.
      - eexists. split; [reflexivity|]. apply closesExplained_none.
        apply Forall_singleton. done. }
    destruct (strictEqStr _ "subscribe"); injection Hm as <-.
    + destruct (subscribe_calls E sid message st) as (es & He & HF).
      exists es. split; [done|]. eapply closesExplained_kinds; [|exact HF].
      cbn. intuition discriminate.
    + exists []. split; [by rewrite app_nil_r|]. by apply closesExplained_none.
  - (* the timer *)
    destruct (connections st !! sid) as [ci|] eqn:Hci; [|done].
    destruct (authenticationTimeout ci); try done. injection H as <-.
    unfold authenticationTimeoutCallback. nsimpl. rewrite lookup_alter_eq, Hci. cbn.
    destruct (ctx ci).
    + exists []. split; [by rewrite app_nil_r|]. by apply closesExplained_none.
    + eexists. split; [rewrite closeWrite_effects; reflexivity|]. apply closesExplained_close.
  - (* the principal *)
    destruct (pendingCalls st !! k) as [[]|]; try done. injection H as <-.
    unfold getPrincipalCallback. cbn zeta. destruct res as [e|u].
    + eexists. split; [rewrite closeWrite_effects; reflexivity|]. apply closesExplained_close.
    + destruct (negb _).
      * eexists. split; [rewrite closeWrite_effects; reflexivity|]. apply closesExplained_close.
      * eexists. split; [cbn; rewrite <- app_assoc; reflexivity|]. apply closesExplained_none.
        repeat constructor; done.
Qed.

Lemma run_closesExplained E evs : forall st st',
  run E st evs = Some st' -> closesExplained (effects st) -> closesExplained (effects st').
Proof.
  induction evs as [|ev evs IH]; intros st st' H Hst; cbn in H.
  - by injection H as <-.
  - destruct (step E st ev) as [st1|] eqn:Hstep; [|done].
    apply (IH st1 st' H). destruct (step_closesExplained E st ev st1 Hstep) as (es & -> & Hes).
    by apply closesExplained_app.
Qed.

(** X4. A socket is never closed without a reason given. In every
    reachable state, each [socket.close()] the node has called comes
    immediately after an error response it wrote on that very socket. *)
Theorem close_follows_error_response E st i sid :
  reachable E st ->
  effects st !! i = Some (SocketClose sid) ->
  exists j id err,
    i = S j /\ effects st !! j = Some (SocketWrite sid (Response id (Some err))).
Proof.
  intros [evs Hrun] Hi. revert i sid Hi.
  apply (run_closesExplained E evs idle st Hrun). by intros i sid H.
Qed.

Lemma close_follows_error_response_witness :
  exists id err,
    effects (stateAfter [SocketOpens 1; SocketData 1 None]) !! 0%nat =
      Some (SocketWrite 1 (Response id (Some err))).
Proof.
  destruct (close_follows_error_response sampleCollaborators
              (stateAfter [SocketOpens 1; SocketData 1 None]) 1 1)
    as (j & id & err & Hj & H).
  - apply stateAfter_reachable. vm_compute. by eexists.
  - vm_compute. reflexivity.
  - injection Hj as <-. by exists id, err.
Defined.

(** ** Subscribing *)

(** X5. A subscribe request that fails the validation of [_subscribe] is
    answered with a 400 whose text names the test that failed, and nothing
    else happens: no authorization is asked, nothing is recorded, and the
    socket is not closed. *)
Theorem subscribe_validation_failure E sid message st :
  passesValidation E message = false ->
  exists text,
    _subscribe E sid message st =
      _writeResponse sid (prop message "id") (Some (Error 400 text)) st
    /\ (text = "Missing stream properties"
        \/ text = "The specified stream format is unknown"
        \/ text = "Unknown stream")
    /\ (text = "Unknown stream" ->
        _getAuthorizationHandler E (prop (prop (prop message "payload") "stream") "streamType")
          = false).
Proof.
  unfold passesValidation, _subscribe. cbn zeta. intros Hv.
  destruct (truthy (prop message "payload")); cbn [negb orb andb] in *;
    [|eexists; split; [done|]; split; [by left|done]].
  destruct (truthy (prop (prop message "payload") "stream")); cbn [negb orb andb] in *;
    [|eexists; split; [done|]; split; [by left|done]].
  destruct (truthy (prop (prop (prop message "payload") "stream") "resourceId"));
    cbn [negb orb andb] in *; [|eexists; split; [done|]; split; [by left|done]].
  destruct (truthy (prop (prop (prop message "payload") "stream") "streamType"));
    cbn [negb orb andb] in *; [|eexists; split; [done|]; split; [by left|done]].
  destruct (truthy (prop (prop message "payload") "format")); cbn [negb orb andb] in *.
  - destruct (knownFormat E _); cbn [negb orb andb] in *;
      [|eexists; split; [done|]; split; [by right; left|done]].
    rewrite Hv. cbn [negb]. eexists; split; [done|]. split; [by right; right|done].
  - rewrite Hv. cbn [negb]. eexists; split; [done|]. split; [by right; right|done].
Qed.

Lemma subscribe_validation_failure_witness :
  exists text,
    _subscribe sampleCollaborators 1
      (subscribeFrame (JNum 2) "c:cam:x" "activity" (JStr "xml")) oneAuthenticated =
      _writeResponse 1 (JNum 2) (Some (Error 400 text)) oneAuthenticated
    /\ text = "The specified stream format is unknown".
Proof.
  destruct (subscribe_validation_failure sampleCollaborators 1
              (subscribeFrame (JNum 2) "c:cam:x" "activity" (JStr "xml")) oneAuthenticated)
    as (text & H1 & H2 & H3).
  - vm_compute. reflexivity.
  - exists text. split; [exact H1|].
    vm_compute in H1. by injection H1 as <-.
Defined.

Lemma keepsSockets_refl st : keepsSockets st st.
Proof.
  split.
  - intros sid. by destruct (connections st !! sid).
  - exists []. rewrite app_nil_r. split; [done|]. by intros e H%not_elem_of_nil.
Qed.

Lemma keepsSockets_trans a b c : keepsSockets a b -> keepsSockets b c -> keepsSockets a c.
Proof.
  intros [H1 (es1 & He1 & Hn1)] [H2 (es2 & He2 & Hn2)]. split.
  - intros sid. specialize (H1 sid). specialize (H2 sid).
    destruct (connections c !! sid), (connections b !! sid), (connections a !! sid);
      try done; destruct H1 as (?&?&?&?), H2 as (?&?&?&?); split_and!; congruence.
  - exists (es1 ++ es2). rewrite He2, He1, app_assoc. split; [done|].
    intros e [?|?]%elem_of_app; [by apply Hn1|by apply Hn2].
Qed.

Lemma keepsSockets_emit e st :
  match e with SocketClose _ | ClearTimeout _ => False | _ => True end ->
  keepsSockets st (emit e st).
Proof.
  intros He. split.
  - intros sid. nsimpl. by destruct (connections st !! sid).
  - exists [e]. split; [done|]. by intros e' ->%list_elem_of_singleton.
Qed.

Lemma keepsSockets_await p st : keepsSockets st (await p st).
Proof.
  split.
  - intros sid. nsimpl. by destruct (connections st !! sid).
  - exists []. nsimpl. rewrite app_nil_r. split; [done|]. by intros e H%not_elem_of_nil.
Qed.

Lemma keepsSockets_updConn sid F st :
  (forall ci, socketClosed (F ci) = socketClosed ci /\ closeEmitted (F ci) = closeEmitted ci
              /\ ctx (F ci) = ctx ci /\ authenticationTimeout (F ci) = authenticationTimeout ci) ->
  keepsSockets st (updConn sid F st).
Proof.
  intros HF. split.
  - intros sid'. nsimpl. destruct (decide (sid = sid')) as [<-|Hne].
    + rewrite lookup_alter_eq. destruct (connections st !! sid); cbn; [apply HF|done].
    + rewrite lookup_alter_ne by done. by destruct (connections st !! sid').
  - exists []. nsimpl. rewrite app_nil_r. split; [done|]. by intros e H%not_elem_of_nil.
Qed.

Lemma keepsSockets_setPerStream F st : keepsSockets st (setPerStream F st).
Proof.
  split.
  - intros sid. nsimpl. by destruct (connections st !! sid).
  - exists []. nsimpl. rewrite app_nil_r. split; [done|]. by intros e H%not_elem_of_nil.
Qed.

Lemma finish_keepsSockets E sid message stream st :
  keepsSockets st (finish E sid message stream st).
Proof.
  unfold finish. cbn zeta. unfold _writeResponse.
  eapply keepsSockets_trans; [|by apply keepsSockets_emit].
  by apply keepsSockets_updConn.
Qed.

Lemma bindCallback_keepsSockets E sid message stream err st :
  keepsSockets st (bindCallback E sid message stream err st).
Proof.
  unfold bindCallback. destruct err.
  - by apply keepsSockets_emit.
  - eapply keepsSockets_trans; [|apply finish_keepsSockets]. apply keepsSockets_setPerStream.
Qed.

(** X6. Subscribing is never fatal for a connection. Whatever the request
    and whatever the authorization handler and the broker answer,
    [_subscribe] and its two callbacks close no socket, clear no timer, and
    leave the socket state, the context and the timer of every connection as
    they were. *)
Theorem subscription_keeps_socket_open E sid message stream authzErr bindErr st :
  keepsSockets st (_subscribe E sid message st)
  /\ keepsSockets st (authzCallback E sid message authzErr st)
  /\ keepsSockets st (bindCallback E sid message stream bindErr st).
Proof.
  split_and!.
  - unfold _subscribe. cbn zeta.
    destruct (_ || _); [by apply keepsSockets_emit|].
    destruct (_ && _); [by apply keepsSockets_emit|].
    destruct (negb _); [by apply keepsSockets_emit|].
    destruct (connections st !! sid) as [ci|]; [|apply keepsSockets_refl].
    eapply keepsSockets_trans; [|apply keepsSockets_await]. by apply keepsSockets_emit.
  - unfold authzCallback. cbn zeta. destruct authzErr; [by apply keepsSockets_emit|].
    destruct (connections st !! sid) as [ci|]; [|apply keepsSockets_refl].
    case_bool_decide; [apply finish_keepsSockets|].
    set (st1 := updConn sid _ st).
    apply (keepsSockets_trans _ st1); [by apply keepsSockets_updConn|]. clearbody st1.
    unfold _bindQueue. destruct (connectionInfosPerStream st1 !! _);
      [apply bindCallback_keepsSockets|].
    eapply keepsSockets_trans; [|apply keepsSockets_await]. by apply keepsSockets_emit.
  - apply bindCallback_keepsSockets.
Qed.

(** ** Binds and unbinds in the log of calls *)

Lemma step_quiet E st ev st' :
  step E st ev = Some st' ->
  touchesRegistry ev = false ->
  connectionInfosPerStream st' = connectionInfosPerStream st
  /\ (forall k sid message stream answer,
        pendingCalls st' !! k = Some (PBind sid message stream answer) ->
        exists answer', pendingCalls st !! k = Some (PBind sid message stream answer')).
Proof.
  intros H Hev.
  assert (Hs : forall s, silent s st' ->
            connectionInfosPerStream st' = connectionInfosPerStream s
            /\ (forall k sid message stream answer,
                  pendingCalls st' !! k = Some (PBind sid message stream answer) ->
                  exists answer', pendingCalls s !! k = Some (PBind sid message stream answer'))).
  { intros s (H1 & H2 & _). by split. }
  events ev; try discriminate Hev; cbn [step] in H.
  - destruct (connections st !! sid); [done|]. injection H as <-. split; [done|]. by eauto.
  - destruct (connections st !! sid) as [ci|]; [|done].
    destruct (socketClosed ci); [done|]. by apply Hs, (onData_silent E sid frm).
  - destruct (connections st !! sid) as [ci|] eqn:Hci; [|done].
    destruct (authenticationTimeout ci); try done. injection H as <-.
    destruct (timeoutFires_conns sid st ci Hci) as [_ Hl]. split; [done|].
    unfold authenticationTimeoutCallback. nsimpl. rewrite lookup_alter_eq, Hci. cbn.
    destruct (ctx ci); by eauto.
  - destruct (pendingCalls st !! k) as [[]|]; try done. injection H as <-.
    destruct (getPrincipalCallback_silent E sid message res (answered k st)) as (H1 & H2 & _).
    split; [done|]. intros k' sid' m s a Hk. destruct (H2 _ _ _ _ _ Hk) as [a' Hk'].
    nsimpl. by apply binds_delete in Hk'.
  - destruct (pendingCalls st !! k) as [[]|] eqn:Hk; try done. destruct answer; try done.
    injection H as <-. split; [by destruct err|].
    intros k' sid' m' s' a. destruct (decide (k = k')) as [<-|Hne].
    + destruct err; nsimpl; rewrite lookup_insert_eq; intros [= <- <- <- <-]; eauto.
    + destruct err; nsimpl; rewrite lookup_insert_ne by done; eauto.
  - destruct (pendingCalls st !! k) as [[]|] eqn:Hk; try done. destruct answer; try done.
    injection H as <-. split; [by destruct err|].
    destruct err; nsimpl; by apply binds_insert.
  - destruct (pendingCalls st !! k) as [[]|]; try done. injection H as <-.
    destruct (transformCallback_silent job sid data transformerType res (answered k st))
      as (H1 & H2 & _).
    split; [done|]. intros k' sid' m s a Hk. destruct (H2 _ _ _ _ _ Hk) as [a' Hk'].
    nsimpl. by apply binds_delete in Hk'.
  - by apply Hs, (handlePushActivity_silent E later data).
  - injection H as <-. apply Hs, onRoutedActivities_silent.
  - injection H as <-. apply Hs, onDeliveredActivities_silent.
  - by apply Hs, (handlePushActivity_silent E immediate data).
Qed.

Lemma bindLog_quiet st st' es :
  effects st' = effects st ++ es ->
  Forall (fun e => kindOf e <> KUnbind) es ->
  (forall stream, is_Some (connectionInfosPerStream st' !! stream) ->
     is_Some (connectionInfosPerStream st !! stream)
     \/ BindQueueToExchange stream ∈ effects st') ->
  (forall k sid message stream answer,
      pendingCalls st' !! k = Some (PBind sid message stream answer) ->
      (exists k' sid' message' answer',
          pendingCalls st !! k' = Some (PBind sid' message' stream answer'))
      \/ BindQueueToExchange stream ∈ effects st') ->
  bindLog_inv st -> bindLog_inv st'.
Proof.
  intros He Hes Hl Hp (HL & HP & HU). split_and!.
  - intros s l Hs. destruct (Hl s) as [[l0 H0]|H0]; [by eexists| |done].
    rewrite He. apply elem_of_app. left. by eapply HL.
  - intros k sid m s a Hk. destruct (Hp _ _ _ _ _ Hk) as [(k' & sid' & m' & a' & H0)|H0]; [|done].
    rewrite He. apply elem_of_app. left. by eapply HP.
  - intros i s. rewrite He. intros Hi.
    destruct (decide (i < length (effects st))%nat) as [Hlt|Hge].
    + rewrite lookup_app_l in Hi by done. destruct (HU i s Hi) as (j & Hj & Hb).
      exists j. split; [done|]. by rewrite lookup_app_l by lia.
    + rewrite lookup_app_r in Hi by lia. rewrite Forall_forall in Hes.
      apply list_elem_of_lookup_2, Hes in Hi. done.
Qed.

Lemma bindLog_unbind st stream :
  is_Some (connectionInfosPerStream st !! stream) ->
  bindLog_inv st ->
  bindLog_inv (await (PUnbind stream None) (emit (UnbindQueueFromExchange stream) st)).
Proof.
  intros [l Hl] (HL & HP & HU). split_and!; nsimpl.
  - intros s l' Hs. apply elem_of_app. left. by eapply HL.
  - intros k sid m s a Hk. apply binds_insert in Hk as [a' Hk]; [|done].
    apply elem_of_app. left. by eapply HP.
  - intros i s Hi. destruct (decide (i < length (effects st))%nat) as [Hlt|Hge].
    + rewrite lookup_app_l in Hi by done. destruct (HU i s Hi) as (j & Hj & Hb).
      exists j. split; [done|]. by rewrite lookup_app_l by lia.
    + rewrite lookup_app_r in Hi by lia.
      destruct (i - length (effects st))%nat as [|n] eqn:Hn; [|done].
      injection Hi as <-. apply HL, list_elem_of_lookup_1 in Hl as [j Hj].
      exists j. pose proof (lookup_lt_Some _ _ _ Hj). split; [lia|].
      by rewrite lookup_app_l by lia.
Qed.

Lemma closeStream_bindLog sid st stream : bindLog_inv st -> bindLog_inv (closeStream sid st stream).
Proof.
  intros Hinv. unfold closeStream.
  destruct (connectionInfosPerStream st !! stream) as [l|] eqn:Hl; [|done].
  destruct (Nat.eqb (length l) 1); [by apply bindLog_unbind|].
  apply (bindLog_quiet st _ []); nsimpl; try done.
  - by rewrite app_nil_r.
  - intros s. destruct (decide (stream = s)) as [<-|Hne].
    + rewrite Hl. left. by eexists.
    + rewrite lookup_insert_ne by done. by left.
  - intros k sid' m s a Hk. left. by eexists k, sid', m, a.
Qed.

Lemma onClose_bindLog sid st : bindLog_inv st -> bindLog_inv (onClose sid st).
Proof.
  unfold onClose. destruct (connections st !! sid) as [ci|]; [|done].
  generalize (streams ci). intros l. revert st.
  induction l as [|s l IH]; intros st Hinv; cbn; [done|].
  by apply IH, closeStream_bindLog.
Qed.

Lemma bindCallback_bindLog E sid message stream err st st0 :
  effects st = effects st0 ->
  connectionInfosPerStream st = connectionInfosPerStream st0 ->
  (forall k sid message stream answer,
      pendingCalls st !! k = Some (PBind sid message stream answer) ->
      exists k' answer', pendingCalls st0 !! k' = Some (PBind sid message stream answer')) ->
  BindQueueToExchange stream ∈ effects st0 ->
  bindLog_inv st0 -> bindLog_inv (bindCallback E sid message stream err st).
Proof.
  intros He Hl Hp Hb. unfold bindCallback. destruct err as [e|].
  - apply (bindLog_quiet st0 _ [SocketWrite sid (Response (prop message "id") (Some e))]);
      nsimpl.
    + by rewrite He.
    + by apply Forall_singleton.
    + intros s. rewrite Hl. by left.
    + intros k sid' m s a Hk. left. destruct (Hp _ _ _ _ _ Hk) as (k' & a' & Hk').
      by exists k', sid', m, a'.
  - apply (bindLog_quiet st0 _ [SocketWrite sid (Response (prop message "id") None)]);
      unfold finish; nsimpl.
    + by rewrite He.
    + by apply Forall_singleton.
    + intros s. destruct (decide (stream = s)) as [<-|Hne].
      * intros _. right. rewrite He. apply elem_of_app. by left.
      * rewrite lookup_insert_ne, Hl by done. by left.
    + intros k sid' m s a Hk. left. destruct (Hp _ _ _ _ _ Hk) as (k' & a' & Hk').
      by exists k', sid', m, a'.
Qed.

Lemma step_bindLog E st ev st' : bindLog_inv st -> step E st ev = Some st' -> bindLog_inv st'.
Proof.
  intros Hinv H. destruct (touchesRegistry ev) eqn:Hev.
  2:{ destruct (step_quiet E st ev st' H Hev) as [Hl Hp].
      destruct (step_calls E st ev st' H) as (es & He & Hes).
      apply (bindLog_quiet st st' es); try done.
      - eapply Forall_impl; [exact Hes|]. intros e Hk Hu. unfold ofKinds in Hk.
        rewrite Hu in Hk. events ev; cbn in Hk, Hev; try discriminate Hev;
          intuition discriminate.
      - intros s. rewrite Hl. by left.
      - intros k sid m s a Hk. left. destruct (Hp _ _ _ _ _ Hk) as [a' Hk'].
        by exists k, sid, m, a'. }
  events ev; try discriminate Hev; cbn [step] in H.
  - (* close *)
    destruct (connections st !! sid) as [ci|]; [|done].
    destruct (closeEmitted ci); [done|]. injection H as <-. by apply onClose_bindLog.
  - (* the authorization answers *)
    destruct (pendingCalls st !! k) as [[]|] eqn:Hk; try done. injection H as <-.
    unfold authzCallback. cbn zeta. destruct err as [e|].
    { apply (bindLog_quiet st _ [SocketWrite sid (Response (prop message "id") (Some e))]);
        nsimpl; try done.
      - by apply Forall_singleton.
      - by left.
      - intros k' sid' m s a Hk'. left. apply binds_delete in Hk' as [a' Hk'].
        by exists k', sid', m, a'. }
    nsimpl. destruct (connections st !! sid) as [ci|] eqn:Hci.
    2:{ apply (bindLog_quiet st _ []); nsimpl; try done.
        - by rewrite app_nil_r.
        - by left.
        - intros k' sid' m s a Hk'. left. apply binds_delete in Hk' as [a' Hk'].
          by exists k', sid', m, a'. }
    case_bool_decide as Hin.
    { apply (bindLog_quiet st _ [SocketWrite sid (Response (prop message "id") None)]);
        unfold finish; nsimpl; try done.
      - by apply Forall_singleton.
      - by left.
      - intros k' sid' m s a Hk'. left. apply binds_delete in Hk' as [a' Hk'].
        by exists k', sid', m, a'. }
    set (stream := createActivityStreamId E _ _) in *.
    unfold _bindQueue. nsimpl.
    destruct (connectionInfosPerStream st !! stream) as [l|] eqn:Hl.
    + eapply (bindCallback_bindLog E sid message stream None _ st); nsimpl; try done.
      * intros k' sid' m s a Hk'. apply binds_delete in Hk' as [a' Hk']. by exists k', a'.
      * destruct Hinv as (HL & _). by eapply HL.
    + apply (bindLog_quiet st _ [BindQueueToExchange stream]); nsimpl; try done.
      * by apply Forall_singleton.
      * by left.
      * intros k' sid' m s a. destruct (decide (nextCall st = k')) as [<-|Hne].
        -- rewrite lookup_insert_eq. intros [= <- <- <- <-]. right.
           apply elem_of_app. right. apply list_elem_of_here.
        -- rewrite lookup_insert_ne by done. intros Hk'. left.
           apply binds_delete in Hk' as [a' Hk']. by exists k', sid', m, a'.
  - (* the bind answers *)
    destruct (pendingCalls st !! k) as [[]|] eqn:Hk; try done. destruct answer; try done.
    injection H as <-.
    eapply (bindCallback_bindLog E sid message activityStreamId o _ st); nsimpl; try done.
    + intros k' sid' m s a Hk'. apply binds_delete in Hk' as [a' Hk']. by exists k', a'.
    + destruct Hinv as (_ & HP & _). by eapply HP.
  - (* the unbind answers *)
    destruct (pendingCalls st !! k) as [[]|] eqn:Hk; try done. destruct answer; try done.
    injection H as <-. apply (bindLog_quiet st _ []); nsimpl; try done.
    + by rewrite app_nil_r.
    + intros s. destruct (decide (stream = s)) as [<-|Hne].
      * rewrite lookup_delete_eq. by intros [? ?].
      * rewrite lookup_delete_ne by done. by left.
    + intros k' sid' m s a Hk'. left. apply binds_delete in Hk' as [a' Hk'].
      by exists k', sid', m, a'.
Qed.

Lemma run_bindLog E evs : forall st st',
  bindLog_inv st -> run E st evs = Some st' -> bindLog_inv st'.
Proof.
  induction evs as [|ev evs IH]; intros st st' Hinv H; cbn in H.
  - by injection H as <-.
  - destruct (step E st ev) as [st1|] eqn:Hstep; [|done].
    apply (IH st1 st'); [|done]. by eapply step_bindLog.
Qed.

Lemma idle_bindLog : bindLog_inv idle.
Proof.
  unfold idle. split_and!; nsimpl.
  - intros s l H. by rewrite lookup_empty in H.
  - intros k sid m s a H. by rewrite lookup_empty in H.
  - intros i s H. by rewrite lookup_nil in H.
Qed.

(** X7. The order of binds and unbinds. In every reachable state, a bind
    has been issued for every stream that has an array of connections, and
    every unbind the node has issued for a stream comes after a bind it
    issued for that stream: the node never unbinds a routing key it did not
    bind, and never lists a connection for a stream it did not ask the
    broker for. *)
Theorem bind_precedes_array_and_unbind E st :
  reachable E st ->
  (forall stream l,
      connectionInfosPerStream st !! stream = Some l ->
      BindQueueToExchange stream ∈ effects st)
  /\ (forall i stream,
        effects st !! i = Some (UnbindQueueFromExchange stream) ->
        exists j, (j < i)%nat /\ effects st !! j = Some (BindQueueToExchange stream)).
Proof.
  intros [evs Hrun].
  destruct (run_bindLog E evs idle st idle_bindLog Hrun) as (HL & _ & HU). by split.
Qed.

Lemma bind_precedes_array_and_unbind_witness :
  BindQueueToExchange "c:cam:x#activity" ∈ effects twoSubscribers.
Proof.
  destruct (bind_precedes_array_and_unbind sampleCollaborators twoSubscribers
              twoSubscribers_reachable) as [H _].
  apply (H "c:cam:x#activity" [1; 2]%nat). vm_compute. reflexivity.
Defined.

(** ** The arrays of connections *)

Lemma spliceSocket_NoDup sid l : NoDup l -> NoDup (spliceSocket sid l).
Proof.
  induction 1 as [|x l Hx Hl IH]; cbn; [constructor|].
  destruct (Nat.eqb x sid); [done|]. constructor; [|done].
  intros Hin. by apply spliceSocket_subset in Hin.
Qed.

Lemma spliceSocket_gone sid l : NoDup l -> sid ∉ spliceSocket sid l.
Proof.
  induction 1 as [|x l Hx Hl IH]; cbn; [apply not_elem_of_nil|].
  destruct (Nat.eqb_spec x sid) as [->|Hne]; [done|].
  intros [?|?]%elem_of_cons; [congruence|done].
Qed.

Lemma step_quiet_conns E st ev st' :
  step E st ev = Some st' ->
  touchesRegistry ev = false ->
  forall sid ci, connections st !! sid = Some ci ->
    exists ci', connections st' !! sid = Some ci'
                /\ streams ci' = streams ci /\ transformerTypes ci' = transformerTypes ci.
Proof.
  intros H Hev.
  assert (Hs : forall s, silent s st' ->
            forall sid ci, connections s !! sid = Some ci ->
              exists ci', connections st' !! sid = Some ci'
                /\ streams ci' = streams ci /\ transformerTypes ci' = transformerTypes ci).
  { intros s (_ & _ & Hc) sid ci Hci. specialize (Hc sid). rewrite Hci in Hc.
    destruct (connections st' !! sid) as [ci'|]; [|done]. by exists ci'. }
  assert (Hsame : connections st' = connections st ->
            forall sid ci, connections st !! sid = Some ci ->
              exists ci', connections st' !! sid = Some ci'
                /\ streams ci' = streams ci /\ transformerTypes ci' = transformerTypes ci).
  { intros -> sid ci Hci. by exists ci. }
  events ev; try discriminate Hev; cbn [step] in H.
  - destruct (connections st !! sid) eqn:Hsid; [done|]. injection H as <-.
    intros sid' ci Hci. exists ci. nsimpl.
    rewrite lookup_insert_ne by (intros ->; congruence). done.
  - destruct (connections st !! sid) as [ci|]; [|done].
    destruct (socketClosed ci); [done|]. by apply Hs, (onData_silent E sid frm).
  - destruct (connections st !! sid) as [ci|] eqn:Hci; [|done].
    destruct (authenticationTimeout ci); try done. injection H as <-.
    destruct (timeoutFires_conns sid st ci Hci) as [Hc _]. rewrite Hc.
    intros sid' ci' Hci'. destruct (decide (sid = sid')) as [<-|Hne].
    + rewrite lookup_alter_eq, Hci'. cbn. eexists. split; [done|]. by destruct (ctx ci').
    + rewrite lookup_alter_ne by done. by exists ci'.
  - destruct (pendingCalls st !! k) as [[]|]; try done. injection H as <-.
    apply (Hs _ (getPrincipalCallback_silent E sid message res (answered k st))).
  - destruct (pendingCalls st !! k) as [[]|] eqn:Hk; try done. destruct answer; try done.
    injection H as <-. apply Hsame. by destruct err.
  - destruct (pendingCalls st !! k) as [[]|] eqn:Hk; try done. destruct answer; try done.
    injection H as <-. apply Hsame. by destruct err.
  - destruct (pendingCalls st !! k) as [[]|]; try done. injection H as <-.
    apply (Hs _ (transformCallback_silent job sid data transformerType res (answered k st))).
  - by apply Hs, (handlePushActivity_silent E later data).
  - injection H as <-. apply Hs, onRoutedActivities_silent.
  - injection H as <-. apply Hs, onDeliveredActivities_silent.
  - by apply Hs, (handlePushActivity_silent E immediate data).
Qed.

Lemma arrays_quiet st st' :
  connectionInfosPerStream st' = connectionInfosPerStream st ->
  (forall k sid message stream answer,
      pendingCalls st' !! k = Some (PBind sid message stream answer) ->
      exists answer', pendingCalls st !! k = Some (PBind sid message stream answer')) ->
  (forall stream l sid,
      connectionInfosPerStream st !! stream = Some l -> sid ∈ l ->
      transformersOf st sid stream <> [] -> transformersOf st' sid stream <> []) ->
  arrays_inv st -> arrays_inv st'.
Proof.
  intros Hl Hp Ht (A1 & A2 & A3 & A4). split_and!.
  - intros s l. rewrite Hl. apply A1.
  - intros k sid m s a Hk. rewrite Hl. destruct (Hp _ _ _ _ _ Hk) as [a' Hk']. by eapply A2.
  - intros k k' sid m m' s a a' Hk Hk'.
    destruct (Hp _ _ _ _ _ Hk) as [b Hb]. destruct (Hp _ _ _ _ _ Hk') as [b' Hb'].
    by eapply A3.
  - intros s l sid. rewrite Hl. intros Hs Hin. eapply Ht; eauto.
Qed.

Lemma transformersOf_same st st' sid stream ci ci' :
  connections st !! sid = Some ci ->
  connections st' !! sid = Some ci' ->
  transformerTypes ci' = transformerTypes ci ->
  transformersOf st' sid stream = transformersOf st sid stream.
Proof. intros H H' Heq. unfold transformersOf. by rewrite H, H', Heq. Qed.

Lemma closeStream_arrays sid st stream : arrays_inv st -> arrays_inv (closeStream sid st stream).
Proof.
  intros Hinv. unfold closeStream.
  destruct (connectionInfosPerStream st !! stream) as [l|] eqn:Hl; [|done].
  destruct (Nat.eqb (length l) 1).
  - revert Hinv. apply arrays_quiet; nsimpl; [done| |done]. by apply binds_insert.
  - destruct Hinv as (A1 & A2 & A3 & A4). split_and!; nsimpl.
    + intros s l'. destruct (decide (stream = s)) as [<-|Hne].
      * rewrite lookup_insert_eq. intros [= <-]. apply spliceSocket_NoDup. by eapply A1.
      * rewrite lookup_insert_ne by done. apply A1.
    + intros k sid' m s a Hk. specialize (A2 _ _ _ _ _ Hk).
      destruct (decide (stream = s)) as [<-|Hne].
      * rewrite lookup_insert_eq. cbn. rewrite Hl in A2. cbn in A2.
        intros Hin. by apply spliceSocket_subset in Hin.
      * by rewrite lookup_insert_ne.
    + exact A3.
    + intros s l' sid'. destruct (decide (stream = s)) as [<-|Hne].
      * rewrite lookup_insert_eq. intros [= <-] Hin. apply spliceSocket_subset in Hin.
        by eapply A4.
      * rewrite lookup_insert_ne by done. apply A4.
Qed.

Lemma onClose_arrays sid st : arrays_inv st -> arrays_inv (onClose sid st).
Proof.
  unfold onClose. destruct (connections st !! sid) as [ci|]; [|done].
  generalize (streams ci). intros l. revert st.
  induction l as [|s l IH]; intros st Hinv; cbn; [done|].
  by apply IH, closeStream_arrays.
Qed.

(** [finish] adds a format and removes none. *)
Lemma finish_keeps_formats E sid message stream st sid' s :
  transformersOf st sid' s <> [] ->
  transformersOf (finish E sid message stream st) sid' s <> [].
Proof.
  unfold transformersOf, finish. nsimpl. destruct (decide (sid = sid')) as [<-|Hne].
  - rewrite lookup_alter_eq. destruct (connections st !! sid) as [ci|]; [|done]. cbn.
    destruct (decide (stream = s)) as [<-|Hs].
    + rewrite lookup_insert_eq. cbn. intros _ H. by apply app_eq_nil in H as [_ ?].
    + by rewrite lookup_insert_ne.
  - by rewrite lookup_alter_ne.
Qed.

Lemma finish_adds_format E sid message stream st :
  is_Some (connections st !! sid) ->
  transformersOf (finish E sid message stream st) sid stream <> [].
Proof.
  intros [ci Hci]. unfold transformersOf, finish. nsimpl.
  rewrite lookup_alter_eq, Hci. cbn. rewrite lookup_insert_eq. cbn.
  intros H. by apply app_eq_nil in H as [_ ?].
Qed.

Lemma finish_arrays E sid message stream st :
  arrays_inv st -> arrays_inv (finish E sid message stream st).
Proof.
  apply arrays_quiet; [done|by eauto|].
  intros s l sid' _ _. apply finish_keeps_formats.
Qed.

(** The callback of a bind that succeeded appends the connection. *)
Lemma bindCallback_arrays E sid message stream st :
  is_Some (connections st !! sid) ->
  sid ∉ default [] (connectionInfosPerStream st !! stream) ->
  (forall k sid' message' answer,
      pendingCalls st !! k = Some (PBind sid' message' stream answer) -> sid' <> sid) ->
  arrays_inv st -> arrays_inv (bindCallback E sid message stream None st).
Proof.
  intros Hci Hnew Hother (A1 & A2 & A3 & A4). unfold bindCallback.
  set (l0 := default [] (connectionInfosPerStream st !! stream)) in *.
  set (st1 := setPerStream _ st).
  assert (Hl0 : NoDup l0).
  { subst l0. destruct (connectionInfosPerStream st !! stream) as [l|] eqn:Hl; cbn.
    - by eapply A1.
    - constructor. }
  assert (Hl1 : forall s, connectionInfosPerStream (finish E sid message stream st1) !! s =
                  if decide (stream = s) then Some (l0 ++ [sid])
                  else connectionInfosPerStream st !! s).
  { intros s. unfold finish. subst st1. nsimpl. destruct (decide (stream = s)) as [<-|Hne].
    - by rewrite lookup_insert_eq.
    - by rewrite lookup_insert_ne. }
  assert (Hkeep : forall sid' s, transformersOf st sid' s <> [] ->
            transformersOf (finish E sid message stream st1) sid' s <> []).
  { intros sid' s H. apply finish_keeps_formats. done. }
  split_and!.
  - intros s l. rewrite Hl1. destruct (decide (stream = s)) as [<-|Hne]; [|apply A1].
    intros [= <-]. apply NoDup_app. split_and!; [done| |apply NoDup_singleton].
    intros x Hx ->%list_elem_of_singleton. done.
  - intros k sid' m s a Hk. rewrite Hl1. destruct (decide (stream = s)) as [<-|Hne].
    + cbn. intros [Hin|Hin%list_elem_of_singleton]%elem_of_app.
      * by apply (A2 _ _ _ _ _ Hk).
      * by apply (Hother _ _ _ _ Hk).
    + by apply (A2 _ _ _ _ _ Hk).
  - exact A3.
  - intros s l sid'. rewrite Hl1. destruct (decide (stream = s)) as [<-|Hne].
    + intros [= <-] [Hin|Hin%list_elem_of_singleton]%elem_of_app.
      * apply Hkeep. subst l0.
        destruct (connectionInfosPerStream st !! stream) as [l|] eqn:Hl; cbn in Hin.
        -- by eapply A4.
        -- by apply not_elem_of_nil in Hin.
      * subst sid'. by apply finish_adds_format.
    + intros Hs Hin. apply Hkeep. by eapply A4.
Qed.

Lemma bindCallback_failure_arrays E sid message stream e st :
  arrays_inv st -> arrays_inv (bindCallback E sid message stream (Some e) st).
Proof. apply arrays_quiet; [done|by eauto|done]. Qed.

Lemma answered_arrays k st : arrays_inv st -> arrays_inv (answered k st).
Proof. apply arrays_quiet; [done| |done]. nsimpl. apply binds_delete. Qed.

Lemma step_arrays E st ev st' :
  registry_inv st -> arrays_inv st -> step E st ev = Some st' -> arrays_inv st'.
Proof.
  intros Hreg Hinv H. destruct (touchesRegistry ev) eqn:Hev.
  2:{ destruct (step_quiet E st ev st' H Hev) as [Hl Hp].
      revert Hinv. apply arrays_quiet; [done|done|].
      intros s l sid Hs Hin Ht. destruct Hreg as (HR & _).
      destruct (HR _ _ _ Hs Hin) as (ci & Hci & _).
      destruct (step_quiet_conns E st ev st' H Hev sid ci Hci) as (ci' & Hci' & _ & Htt).
      by rewrite (transformersOf_same st st' sid s ci ci'). }
  destruct Hreg as (HR & HP & _).
  events ev; try discriminate Hev; cbn [step] in H.
  - (* close *)
    destruct (connections st !! sid) as [ci|] eqn:Hci; [|done].
    destruct (closeEmitted ci); [done|]. injection H as <-. apply onClose_arrays.
    revert Hinv. apply arrays_quiet; [done|by eauto|].
    intros s l sid' _ _. unfold transformersOf. nsimpl.
    destruct (decide (sid = sid')) as [<-|Hne].
    + by rewrite lookup_alter_eq, Hci.
    + by rewrite lookup_alter_ne.
  - (* the authorization answers *)
    destruct (pendingCalls st !! k) as [[]|] eqn:Hk; try done. injection H as <-.
    apply (answered_arrays k) in Hinv.
    assert (HR' : forall stream l sid0,
              connectionInfosPerStream (answered k st) !! stream = Some l -> sid0 ∈ l ->
              exists ci, connections (answered k st) !! sid0 = Some ci
                         /\ is_Some (transformerTypes ci) /\ stream ∈ streams ci) by exact HR.
    assert (HP' : forall k0 sid0 m0 s0 a0,
              pendingCalls (answered k st) !! k0 = Some (PBind sid0 m0 s0 a0) ->
              exists ci, connections (answered k st) !! sid0 = Some ci /\ s0 ∈ streams ci).
    { intros k0 sid0 m0 s0 a0 H0. nsimpl. apply binds_delete in H0 as [a' H0]. by eapply HP. }
    clear HR HP Hk. generalize dependent (answered k st). clear st. intros st Hinv HR HP.
    unfold authzCallback. cbn zeta. destruct err as [e|].
    { revert Hinv. apply arrays_quiet; [done|by eauto|done]. }
    destruct (connections st !! sid) as [ci|] eqn:Hci; [|done].
    case_bool_decide as Hin; [by apply finish_arrays|].
    set (stream := createActivityStreamId E _ _) in *.
    set (st1 := updConn sid (withStreams (streams ci ++ [stream])) st).
    assert (Hinv1 : arrays_inv st1).
    { revert Hinv. apply arrays_quiet; [done|by eauto|].
      intros s l sid' _ _. unfold transformersOf. subst st1. nsimpl.
      destruct (decide (sid = sid')) as [<-|Hne].
      - by rewrite lookup_alter_eq, Hci.
      - by rewrite lookup_alter_ne. }
    assert (Hnot : sid ∉ default [] (connectionInfosPerStream st1 !! stream)).
    { subst st1. nsimpl. destruct (connectionInfosPerStream st !! stream) as [l|] eqn:Hl; cbn.
      - intros Hl'. destruct (HR _ _ _ Hl Hl') as (ci' & Hci' & _ & Hs). congruence.
      - apply not_elem_of_nil. }
    assert (Hnone : forall k sid' message' answer,
              pendingCalls st1 !! k = Some (PBind sid' message' stream answer) -> sid' <> sid).
    { subst st1. nsimpl. intros k0 sid' m' a H0 ->.
      destruct (HP _ _ _ _ _ H0) as (ci' & Hci' & Hs). congruence. }
    unfold _bindQueue. destruct (connectionInfosPerStream st1 !! stream) as [l|] eqn:Hl.
    + apply bindCallback_arrays; [|by rewrite Hl|done|done].
      subst st1. nsimpl. rewrite lookup_alter_eq, Hci. by eexists.
    + destruct Hinv1 as (A1 & A2 & A3 & A4). split_and!; nsimpl.
      * exact A1.
      * intros k0 sid' m s a. destruct (decide (nextCall st1 = k0)) as [<-|Hne].
        -- rewrite pending_insert_eq. intros [= <- <- <- <-]. by rewrite Hl.
        -- rewrite lookup_insert_ne by done. apply A2.
      * intros k0 k' sid' m m' s a a'.
        destruct (decide (nextCall st1 = k0)) as [<-|Hne];
          destruct (decide (nextCall st1 = k')) as [<-|Hne']; try done.
        -- rewrite pending_insert_eq, lookup_insert_ne by done.
           intros [= <- <- <- <-] H0. by destruct (Hnone _ _ _ _ H0).
        -- rewrite pending_insert_eq, lookup_insert_ne by done.
           intros H0 [= <- <- <- <-]. by destruct (Hnone _ _ _ _ H0).
        -- rewrite !lookup_insert_ne by done. apply A3.
      * exact A4.
  - (* the bind answers *)
    destruct (pendingCalls st !! k) as [[]|] eqn:Hk; try done. destruct answer; try done.
    injection H as <-. destruct o as [e|].
    { by apply bindCallback_failure_arrays, answered_arrays. }
    destruct (HP _ _ _ _ _ Hk) as (ci & Hci & _).
    apply bindCallback_arrays; nsimpl.
    + by eexists.
    + destruct Hinv as (_ & A2 & _). by eapply A2.
    + intros k' sid' m' a Hk' ->. destruct (decide (k = k')) as [<-|Hne].
      * by rewrite lookup_delete_eq in Hk'.
      * rewrite lookup_delete_ne in Hk' by done. destruct Hinv as (_ & _ & A3 & _).
        by specialize (A3 _ _ _ _ _ _ _ _ Hk Hk').
    + by apply answered_arrays.
  - (* the unbind answers *)
    destruct (pendingCalls st !! k) as [[]|] eqn:Hk; try done. destruct answer; try done.
    injection H as <-. destruct Hinv as (A1 & A2 & A3 & A4). split_and!; nsimpl.
    + intros s l. destruct (decide (stream = s)) as [<-|Hne].
      * by rewrite lookup_delete_eq.
      * rewrite lookup_delete_ne by done. apply A1.
    + intros k' sid m s a Hk'. apply binds_delete in Hk' as [a' Hk'].
      specialize (A2 _ _ _ _ _ Hk'). destruct (decide (stream = s)) as [<-|Hne].
      * rewrite lookup_delete_eq. apply not_elem_of_nil.
      * by rewrite lookup_delete_ne.
    + intros k0 k' sid m m' s a a' H0 H0'.
      destruct (decide (k = k0)) as [<-|Hne0]; [by rewrite lookup_delete_eq in H0|].
      destruct (decide (k = k')) as [<-|Hne']; [by rewrite lookup_delete_eq in H0'|].
      rewrite lookup_delete_ne in H0, H0' by done. by eapply A3.
    + intros s l sid. destruct (decide (stream = s)) as [<-|Hne].
      * by rewrite lookup_delete_eq.
      * rewrite lookup_delete_ne by done. apply A4.
Qed.

Lemma run_arrays E evs : forall st st',
  registry_inv st -> arrays_inv st -> run E st evs = Some st' -> arrays_inv st'.
Proof.
  induction evs as [|ev evs IH]; intros st st' Hreg Hinv H; cbn in H.
  - by injection H as <-.
  - destruct (step E st ev) as [st1|] eqn:Hstep; [|done].
    apply (IH st1 st'); [by eapply step_registry|by eapply step_arrays|done].
Qed.

Lemma idle_arrays : arrays_inv idle.
Proof.
  unfold idle. split_and!; nsimpl.
  - intros s l H. by rewrite lookup_empty in H.
  - intros k sid m s a H. by rewrite lookup_empty in H.
  - intros k k' sid m m' s a a' H. by rewrite lookup_empty in H.
  - intros s l sid H. by rewrite lookup_empty in H.
Qed.

Lemma reachable_arrays E st : reachable E st -> arrays_inv st.
Proof.
  intros [evs H]. eapply run_arrays; [apply idle_registry|apply idle_arrays|done].
Qed.

(** X8. In every reachable state no array holds a connection twice, every
    connection in the array of a stream holds at least one format for that
    stream, and a connection whose bind for a stream is in flight is not yet
    in the array of that stream. So the list of connections and formats a
    message for a stream with an array is dispatched to is never empty. *)
Theorem arrays_hold_each_connection_once E st :
  reachable E st ->
  (forall stream l,
      connectionInfosPerStream st !! stream = Some l ->
      NoDup l
      /\ (forall sid, sid ∈ l -> transformersOf st sid stream <> [])
      /\ pushJobs st stream l <> [])
  /\ (forall k sid message stream answer,
        pendingCalls st !! k = Some (PBind sid message stream answer) ->
        sid ∉ default [] (connectionInfosPerStream st !! stream)).
Proof.
  intros Hr. destruct (reachable_arrays E st Hr) as (A1 & A2 & _ & A4).
  destruct (reachable_inv E st Hr) as [_ Hne].
  split; [|exact A2]. intros s l Hl. split_and!.
  - by eapply A1.
  - intros sid Hin. by eapply A4.
  - destruct l as [|sid l]; [by destruct (Hne s [] Hl)|].
    specialize (A4 s (sid :: l) sid Hl (list_elem_of_here _ _)).
    unfold pushJobs. cbn [flat_map]. destruct (transformersOf st sid s); [done|]. done.
Qed.

Lemma arrays_hold_each_connection_once_witness :
  NoDup [1; 2]%nat
  /\ exists t rest, transformersOf twoSubscribers 2 "c:cam:x#activity" = t :: rest.
Proof.
  destruct (arrays_hold_each_connection_once sampleCollaborators twoSubscribers
              twoSubscribers_reachable) as [H _].
  destruct (H "c:cam:x#activity" [1; 2]%nat) as (Hnd & Ht & _).
  - vm_compute. reflexivity.
  - split; [exact Hnd|].
    specialize (Ht 2%nat (list_elem_of_further _ _ _ (list_elem_of_here _ _))).
    destruct (transformersOf twoSubscribers 2 "c:cam:x#activity") as [|t rest].
    + destruct (Ht eq_refl).
    + by exists t, rest.
Defined.

(** ** Splicing a socket out of an array *)

(** X9. The loop of the ['close'] handler that splices the closing socket
    out of an array removes the first entry of that socket and nothing else:
    the entries before and after it keep their order. An array without the
    socket is left as it is, and one that held the socket once no longer
    holds it. *)
Theorem spliceSocket_removes_first_entry sid l :
  (sid ∉ l -> spliceSocket sid l = l)
  /\ (sid ∈ l ->
      exists before after,
        l = before ++ sid :: after
        /\ (sid ∉ before)
        /\ spliceSocket sid l = before ++ after)
  /\ (sid ∈ l -> S (length (spliceSocket sid l)) = length l)
  /\ (NoDup l -> sid ∉ spliceSocket sid l).
Proof.
  split_and!.
  - induction l as [|x l IH]; cbn; [done|]. intros [Hne Hin]%not_elem_of_cons.
    destruct (Nat.eqb_spec x sid) as [->|_]; [done|]. by rewrite IH.
  - induction l as [|x l IH]; cbn; [by intros H%not_elem_of_nil|].
    destruct (Nat.eqb_spec x sid) as [->|Hne].
    + intros _. exists [], l. split_and!; [done|apply not_elem_of_nil|done].
    + intros [?|Hin]%elem_of_cons; [congruence|].
      destruct (IH Hin) as (before & after & -> & Hb & ->).
      exists (x :: before), after. split_and!; [done| |done].
      intros [?|?]%elem_of_cons; [congruence|done].
  - induction l as [|x l IH]; cbn; [by intros H%not_elem_of_nil|].
    destruct (Nat.eqb_spec x sid) as [->|Hne]; [done|].
    intros [?|Hin]%elem_of_cons; [congruence|]. cbn. by rewrite IH.
  - induction 1 as [|x l Hx Hl IH]; cbn; [apply not_elem_of_nil|].
    destruct (Nat.eqb_spec x sid) as [->|Hne]; [done|].
    intros [?|?]%elem_of_cons; [congruence|done].
Qed.

(** ** A closed connection *)

(** X10. A closed connection leaves no reference behind. After the
    ['close'] handler of a connection has run in a reachable state, the
    connection is in no array, except in the arrays that held it alone: for
    each of those the handler has issued the unbind whose callback deletes
    the array. *)
Theorem close_leaves_no_reference E st sid st' :
  reachable E st ->
  step E st (SocketCloses sid) = Some st' ->
  forall stream l,
    connectionInfosPerStream st' !! stream = Some l ->
    sid ∈ l ->
    l = [sid]
    /\ connectionInfosPerStream st !! stream = Some [sid]
    /\ UnbindQueueFromExchange stream ∈ effectsFrom (length (effects st)) st'.
Proof.
  intros Hr H s l' Hl' Hin. cbn [step] in H.
  destruct (connections st !! sid) as [ci|] eqn:Hci; [|done].
  destruct (closeEmitted ci); [done|]. injection H as <-.
  destruct (reachable_inv E st Hr) as [Hconn _]. destruct (Hconn sid ci Hci) as (Hnd & _).
  destruct (reachable_arrays E st Hr) as (A1 & _).
  destruct (reachable_registry E st Hr) as (HR & _).
  unfold onClose in *. nsimpl. rewrite lookup_alter_eq, Hci in *.
  cbn [fmap option_fmap option_map] in *.
  change (streams (withCloseEmitted ci)) with (streams ci) in *.
  destruct (closeStreams_fold sid (streams ci) (updConn sid withCloseEmitted st) Hnd)
    as [He Hl].
  rewrite Hl in Hl'. nsimpl.
  destruct (connectionInfosPerStream st !! s) as [l|] eqn:Hs; [|done].
  destruct (bool_decide (s ∈ streams ci) && negb (Nat.eqb (length l) 1)) eqn:Hb.
  { injection Hl' as <-. exfalso. revert Hin. apply spliceSocket_gone. by eapply A1. }
  injection Hl' as <-.
  destruct (HR s l sid Hs Hin) as (ci' & Hci' & _ & Hrec).
  assert (ci' = ci) as -> by congruence.
  rewrite (bool_decide_eq_true_2 _ Hrec) in Hb. cbn in Hb.
  apply negb_false_iff, Nat.eqb_eq in Hb.
  assert (l = [sid]) as -> by (by apply single_subscriber).
  split_and!; [done|done|].
  unfold effectsFrom. rewrite He. nsimpl. rewrite drop_app_length.
  apply list_elem_of_In, in_map, filter_In. split; [by apply list_elem_of_In|].
  by rewrite Hs.
Qed.

Lemma close_leaves_no_reference_witness :
  UnbindQueueFromExchange "c:cam:x#notification" ∈
    effectsFrom (length (effects twoSubscribers))
      (default idle (step sampleCollaborators twoSubscribers (SocketCloses 1))).
Proof.
  destruct (close_leaves_no_reference sampleCollaborators twoSubscribers 1
              (default idle (step sampleCollaborators twoSubscribers (SocketCloses 1)))
              twoSubscribers_reachable) with (stream := "c:cam:x#notification") (l := [1%nat])
    as (_ & _ & H).
  - vm_compute. reflexivity.
  - vm_compute. reflexivity.
  - apply list_elem_of_here.
  - exact H.
Defined.

(** ** What a connection keeps *)

(** X11. Nothing is ever taken back from a connection. Along every run, a
    connection stays in the store, a closed socket stays closed, a stream
    the connection has recorded stays recorded (also when its bind fails and
    after the socket has closed), and its formats object, once created,
    stays. *)
Theorem connection_state_only_grows E st evs st' sid ci :
  run E st evs = Some st' ->
  connections st !! sid = Some ci ->
  exists ci',
    connections st' !! sid = Some ci'
    /\ (socketClosed ci = true -> socketClosed ci' = true)
    /\ (forall stream, stream ∈ streams ci -> stream ∈ streams ci')
    /\ (is_Some (transformerTypes ci) -> is_Some (transformerTypes ci')).
Proof.
  intros Hrun Hci.
  destruct (run_evolves E evs st st' Hrun sid ci Hci) as (ci' & Hci' & H1 & _ & _ & H4 & H5).
  by exists ci'.
Qed.

Lemma connection_state_only_grows_witness :
  exists ci',
    connections (onClose 1 (updConn 1 withCloseEmitted twoSubscribers)) !! 1%nat = Some ci'
    /\ "c:cam:x#activity" ∈ streams ci'.
Proof.
  destruct (connection_state_only_grows sampleCollaborators twoSubscribers [SocketCloses 1]
              (onClose 1 (updConn 1 withCloseEmitted twoSubscribers)) 1
              (connectionOf twoSubscribers 1)) as (ci' & Hci' & _ & Hs & _).
  - vm_compute. reflexivity.
  - vm_compute. reflexivity.
  - exists ci'. split; [exact Hci'|]. apply Hs. vm_compute. apply list_elem_of_here.
Defined.

(** ** The dispatch of a message *)

Lemma reachable_listed E st stream sid :
  reachable E st ->
  sid ∈ default [] (connectionInfosPerStream st !! stream) ->
  exists ci, connections st !! sid = Some ci
             /\ is_Some (transformerTypes ci) /\ stream ∈ streams ci.
Proof.
  intros Hr Hin. destruct (reachable_registry E st Hr) as (HR & _ & _).
  destruct (connectionInfosPerStream st !! stream) as [l|] eqn:Hl; cbn in Hin.
  - by apply (HR stream l sid).
  - by apply not_elem_of_nil in Hin.
Qed.

Lemma elem_of_pushJobs st stream l sid t :
  (sid, t) ∈ pushJobs st stream l <-> sid ∈ l /\ t ∈ transformersOf st sid stream.
Proof.
  unfold pushJobs. rewrite list_elem_of_In, in_flat_map. split.
  - intros (x & Hx & Hin). apply in_map_iff in Hin as (t' & [= <- <-] & Ht).
    by rewrite !list_elem_of_In.
  - intros [H1 H2]. exists sid. rewrite <- list_elem_of_In. split; [done|].
    apply in_map_iff. exists t. by rewrite <- list_elem_of_In.
Qed.

Lemma transformCallback_effects job sid data t res st :
  exists es,
    effects (transformCallback job sid data t res st) = effects st ++ es
    /\ List.filter isTransformCall es = [].
Proof.
  unfold transformCallback. destruct res as [e|activities].
  - exists []. by rewrite app_nil_r.
  - cbn zeta. destruct (Z.eqb _ 0).
    + eexists [_; _]. split; [cbn; by rewrite <- app_assoc|done].
    + eexists [_]. by split.
Qed.

Lemma transformCallback_frame job sid data t res st :
  nextJob (transformCallback job sid data t res st) = nextJob st
  /\ bindings (transformCallback job sid data t res st) = bindings st.
Proof.
  unfold transformCallback. destruct res; [done|]. cbn zeta. by destruct (Z.eqb _ 0).
Qed.

(** However the transformer answers, one turn of the inner loop makes one
    call of the transformer, and calls of other kinds after it. *)
Lemma startTransform_effects immediate job sid c data st t :
  exists es,
    effects (startTransform immediate job sid c data st t) =
      effects st ++ TransformActivities job sid c (ra_activities data) t :: es
    /\ List.filter isTransformCall es = []
    /\ nextJob (startTransform immediate job sid c data st t) = nextJob st
    /\ bindings (startTransform immediate job sid c data st t) = bindings st.
Proof.
  unfold startTransform. cbn zeta. destruct (immediate _) as [res|].
  - set (st1 := emit _ _).
    destruct (transformCallback_effects job sid data t res st1) as (es & He & Hes).
    destruct (transformCallback_frame job sid data t res st1) as [Hj Hb].
    exists es. rewrite He, Hj, Hb. subst st1. cbn. by rewrite <- app_assoc.
  - by exists [].
Qed.

Lemma startTransforms_effects immediate job sid c data kinds : forall st,
  exists es,
    effects (foldl (startTransform immediate job sid c data) st kinds) = effects st ++ es
    /\ List.filter isTransformCall es =
         map (TransformActivities job sid c (ra_activities data)) kinds
    /\ nextJob (foldl (startTransform immediate job sid c data) st kinds) = nextJob st
    /\ bindings (foldl (startTransform immediate job sid c data) st kinds) = bindings st.
Proof.
  induction kinds as [|t kinds IH]; intros st; cbn [foldl].
  - exists []. by rewrite app_nil_r.
  - destruct (startTransform_effects immediate job sid c data st t) as (es1 & He1 & Hf1 & Hj1 & Hb1).
    destruct (IH (startTransform immediate job sid c data st t)) as (es2 & He2 & Hf2 & Hj2 & Hb2).
    exists (TransformActivities job sid c (ra_activities data) t :: es1 ++ es2).
    rewrite He2, He1, Hj2, Hj1, Hb2, Hb1, <- app_assoc. split_and!; try done.
    cbn. by rewrite List.filter_app, Hf1, Hf2.
Qed.

Lemma pushToConnections_effects immediate job data stream l : forall acc,
  (forall sid, sid ∈ l ->
     exists ci, connections acc !! sid = Some ci /\ is_Some (transformerTypes ci)) ->
  exists st' es,
    foldl (pushToConnection immediate job data stream) (Some acc) l = Some st'
    /\ effects st' = effects acc ++ es
    /\ List.filter isTransformCall es = map (callOfJob acc job data) (pushJobs acc stream l)
    /\ nextJob st' = nextJob acc
    /\ bindings st' = bindings acc.
Proof.
  induction l as [|sid l IH]; intros acc Hl.
  - exists acc, []. cbn. by rewrite app_nil_r.
  - destruct (Hl sid) as (ci & Hci & [tts Htts]); [apply list_elem_of_here|].
    cbn [foldl]. unfold pushToConnection at 2. rewrite Hci, Htts.
    destruct (startTransforms_effects immediate job sid (ctx ci) data
                (default [] (tts !! stream)) acc) as (es1 & He1 & Hf1 & Hj1 & Hb1).
    set (acc1 := foldl (startTransform immediate job sid (ctx ci) data) acc
                   (default [] (tts !! stream))) in *.
    assert (Hsame : connections acc1 = connections acc).
    { subst acc1. apply foldl_same_registry. intros; apply startTransform_same. }
    destruct (IH acc1) as (st' & es2 & Hrun & He2 & Hf2 & Hj2 & Hb2).
    { intros sid' Hin. rewrite Hsame. apply Hl. by apply list_elem_of_further. }
    rewrite (pushJobs_same acc acc1), (callOfJob_same acc acc1) in Hf2 by done.
    exists st', (es1 ++ es2). split; [done|].
    rewrite He2, He1, Hj2, Hj1, Hb2, Hb1, <- app_assoc. split_and!; try done.
    rewrite List.filter_app, Hf1, Hf2. unfold pushJobs at 2. cbn [flat_map].
    rewrite map_app. f_equal. rewrite map_map. unfold transformersOf. rewrite Hci, Htts. cbn.
    apply map_ext. intros t. unfold callOfJob, ctxOf. cbn. by rewrite Hci.
Qed.

Lemma handlePushActivity_frame E immediate data st st' :
  _handlePushActivity E immediate data st = Some st' ->
  nextJob st' = S (nextJob st) /\ bindings st' = bindings st.
Proof.
  unfold _handlePushActivity. cbn zeta.
  set (st0 := Node _ _ _ _ _ _ _ _).
  change (S (nextJob st)) with (nextJob st0). change (bindings st) with (bindings st0).
  clearbody st0.
  match goal with |- foldl _ _ ?l = _ -> _ => generalize l end. intros l.
  revert st0. induction l as [|sid l IH]; intros st0 H; cbn [foldl] in H.
  - by injection H as <-.
  - unfold pushToConnection at 2 in H.
    destruct (connections st0 !! sid) as [ci|].
    2:{ clear -H. exfalso. induction l; cbn in H; [done|auto]. }
    destruct (transformerTypes ci) as [tts|].
    2:{ clear -H. exfalso. induction l; cbn in H; [done|auto]. }
    apply IH in H as [-> ->].
    destruct (startTransforms_effects immediate (nextJob st) sid (ctx ci) data
                (default [] (tts !! createActivityStreamId E (JStr (ra_resourceId data))
                                       (JStr (ra_streamType data)))) st0)
      as (es & _ & _ & Hj & Hb).
    done.
Qed.

(** A message all of whose transformations are answered later is a message
    for which the transformer answers no call before it returns. *)
Lemma delivers_later E st data :
  step E st (BrokerDelivers data) = step E st (BrokerDeliversAnswered data later).
Proof. reflexivity. Qed.

(** X12. In a reachable state [_handlePushActivity] never throws, however
    the transformer answers: every connection in the array of a stream has
    its [transformerTypes] object. It starts one transformation per
    subscriber and format, in the order of the array and of the formats, and
    leaves the connections, the arrays and the bindings as they were. When
    every transformation is answered in a later event, the transformations
    are all the calls it makes: it writes on no socket, and the counter of
    the message is their number when it returns. *)
Theorem dispatch_never_throws E st data immediate :
  reachable E st ->
  let stream := createActivityStreamId E (JStr (ra_resourceId data)) (JStr (ra_streamType data)) in
  let jobs := pushJobs st stream (default [] (connectionInfosPerStream st !! stream)) in
  (exists st',
      step E st (BrokerDeliversAnswered data immediate) = Some st'
      /\ List.filter isTransformCall (effectsFrom (length (effects st)) st') =
           map (callOfJob st (nextJob st) data) jobs
      /\ nextJob st' = S (nextJob st)
      /\ connections st' = connections st
      /\ connectionInfosPerStream st' = connectionInfosPerStream st
      /\ bindings st' = bindings st)
  /\ (exists st',
        step E st (BrokerDelivers data) = Some st'
        /\ effects st' = effects st ++ map (callOfJob st (nextJob st) data) jobs
        /\ todo st' !! nextJob st = Some (Z.of_nat (length jobs))
        /\ nextJob st' = S (nextJob st)
        /\ connections st' = connections st
        /\ connectionInfosPerStream st' = connectionInfosPerStream st
        /\ bindings st' = bindings st).
Proof.
  intros Hr stream jobs.
  assert (Hl : forall sid, sid ∈ default [] (connectionInfosPerStream st !! stream) ->
            exists ci, connections st !! sid = Some ci /\ is_Some (transformerTypes ci)).
  { intros sid Hin. destruct (reachable_listed E st _ sid Hr Hin) as (ci & ? & ? & _).
    by exists ci. }
  split.
  - cbn [step]. unfold _handlePushActivity. cbn zeta. fold stream.
    set (st0 := Node _ _ _ _ _ _ _ _).
    destruct (pushToConnections_effects immediate (nextJob st) data stream
                (default [] (connectionInfosPerStream st !! stream)) st0 Hl)
      as (st' & es & Hrun & He & Hf & Hj & Hb).
    exists st'. split; [done|].
    destruct (pushToConnection_same immediate (nextJob st) data stream _ st0 st0 st'
                (same_registry_refl st0) Hrun) as [Hc Hp].
    unfold effectsFrom. rewrite He. subst st0. cbn in *. rewrite drop_app_length.
    split_and!; done.
  - destruct (handlePushActivity_started E data st) as (st' & Hs & He & _ & _ & Ht & Hc & Hp);
      [exact Hl|].
    destruct (handlePushActivity_frame E later data st st' Hs) as [Hj Hb].
    exists st'. cbn [step]. split_and!; done.
Qed.

Lemma dispatch_never_throws_witness :
  (exists st',
      step sampleCollaborators twoSubscribers
        (BrokerDeliversAnswered sampleActivity (fun _ => Some (inr [JStr "transformed"])))
        = Some st'
      /\ List.filter isTransformCall (effectsFrom (length (effects twoSubscribers)) st') =
           [TransformActivities 0 1 (Some sampleContext) [JStr "a1"] (JStr "internal");
            TransformActivities 0 2 (Some sampleContext) [JStr "a1"] (JStr "internal")])
  /\ (exists st',
        step sampleCollaborators twoSubscribers (BrokerDelivers sampleActivity) = Some st'
        /\ todo st' !! nextJob twoSubscribers = Some 2).
Proof.
  destruct (dispatch_never_throws sampleCollaborators twoSubscribers sampleActivity
              (fun _ => Some (inr [JStr "transformed"])) twoSubscribers_reachable)
    as [(st1 & Hs1 & Hf & _) (st2 & Hs2 & _ & Ht & _)].
  split.
  - exists st1. split; [exact Hs1|exact Hf].
  - exists st2. split; [exact Hs2|exact Ht].
Defined.

(** X13. Topic isolation. In a reachable state, the calls a message of the
    broker makes, its transformations being answered later, are
    transformations and nothing else, and a transformation
    is started for a connection and a format exactly when the connection is
    in the array of the stream of the message and holds the format for that
    stream; it runs with the context of that connection on the activities of
    the message. Such a connection has recorded the stream: a connection
    that has not subscribed to the stream of a message gets nothing of
    it. *)
Theorem dispatch_reaches_subscribers_only E st data st' :
  reachable E st ->
  step E st (BrokerDelivers data) = Some st' ->
  let stream := createActivityStreamId E (JStr (ra_resourceId data)) (JStr (ra_streamType data)) in
  (forall e,
      e ∈ effectsFrom (length (effects st)) st' <->
      exists sid t,
        e = TransformActivities (nextJob st) sid (ctxOf st sid) (ra_activities data) t
        /\ sid ∈ default [] (connectionInfosPerStream st !! stream)
        /\ t ∈ transformersOf st sid stream)
  /\ (forall job sid c activities t,
        TransformActivities job sid c activities t ∈ effectsFrom (length (effects st)) st' ->
        stream ∈ streamsOf st sid).
Proof.
  intros Hr Hs stream.
  destruct (handlePushActivity_started E data st) as (st1 & Hs1 & He & _).
  { intros sid Hin. destruct (reachable_listed E st _ sid Hr Hin) as (ci & ? & ? & _).
    by exists ci. }
  cbn [step] in Hs. rewrite Hs1 in Hs. injection Hs as ->.
  unfold effectsFrom. rewrite He, drop_app_length. fold stream.
  assert (Hiff : forall e,
    e ∈ map (callOfJob st (nextJob st) data)
          (pushJobs st stream (default [] (connectionInfosPerStream st !! stream))) <->
    exists sid t,
      e = TransformActivities (nextJob st) sid (ctxOf st sid) (ra_activities data) t
      /\ sid ∈ default [] (connectionInfosPerStream st !! stream)
      /\ t ∈ transformersOf st sid stream).
  { intros e. rewrite list_elem_of_In, in_map_iff. split.
    - intros ([sid t] & <- & Hin). exists sid, t.
      apply list_elem_of_In, elem_of_pushJobs in Hin. done.
    - intros (sid & t & -> & H1 & H2). exists (sid, t). split; [done|].
      apply list_elem_of_In, elem_of_pushJobs. done. }
  split; [exact Hiff|].
  intros job sid c activities t Hin. apply Hiff in Hin as (sid' & t' & [= -> -> _ _ _] & Hl & _).
  destruct (reachable_listed E st _ sid' Hr Hl) as (ci & Hci & _ & Hstream).
  unfold streamsOf. by rewrite Hci.
Qed.

Lemma dispatch_reaches_subscribers_only_witness :
  "c:cam:x#notification" ∈ streamsOf twoSubscribers 1.
Proof.
  destruct (dispatch_reaches_subscribers_only sampleCollaborators twoSubscribers
              (RoutedActivity [JStr "n1"] "c:cam:x" "notification" None)
              (default idle (step sampleCollaborators twoSubscribers
                 (BrokerDelivers (RoutedActivity [JStr "n1"] "c:cam:x" "notification" None)))))
    as [_ H].
  - exact twoSubscribers_reachable.
  - vm_compute. reflexivity.
  - apply (H 0%nat 1%nat (Some sampleContext) [JStr "n1"] (JStr "internal")).
    vm_compute. apply list_elem_of_here.
Defined.

(** ** The counter of a message *)

Lemma counted_insert_fresh job (m : gmap nat pending) k p :
  m !! k = None -> isTransformOf job p = true ->
  countTransforms job (<[k := p]> m) = S (countTransforms job m).
Proof.
  intros Hk Hp. unfold countTransforms. rewrite map_filter_insert_True by done.
  apply map_size_insert_None. apply map_lookup_filter_None. by left.
Qed.

Lemma counted_insert_other job (m : gmap nat pending) k p :
  isTransformOf job p = false ->
  (forall q, m !! k = Some q -> isTransformOf job q = false) ->
  countTransforms job (<[k := p]> m) = countTransforms job m.
Proof.
  intros Hp Hq. unfold countTransforms. rewrite map_filter_insert_not'; [done| |].
  - cbn. by rewrite Hp.
  - intros q Hk. cbn. by rewrite (Hq q Hk).
Qed.

Lemma counted_delete job (m : gmap nat pending) k p :
  m !! k = Some p -> isTransformOf job p = true ->
  countTransforms job m = S (countTransforms job (delete k m)).
Proof.
  intros Hk Hp. unfold countTransforms. rewrite map_filter_delete.
  set (m' := filter _ m).
  assert (Hm' : m' !! k = Some p) by (by apply map_lookup_filter_Some).
  rewrite <- (insert_id m' k p Hm') at 1. rewrite <- insert_delete_eq.
  apply map_size_insert_None, lookup_delete_eq.
Qed.

Lemma counted_delete_other job (m : gmap nat pending) k :
  (forall q, m !! k = Some q -> isTransformOf job q = false) ->
  countTransforms job (delete k m) = countTransforms job m.
Proof.
  intros Hq. unfold countTransforms. f_equal. apply map_filter_delete_not.
  intros q Hk. cbn. by rewrite (Hq q Hk).
Qed.

Lemma counted_same job (m m' : gmap nat pending) :
  (forall k p, isTransform p = true -> (m' !! k = Some p <-> m !! k = Some p)) ->
  countTransforms job m' = countTransforms job m.
Proof.
  intros H. unfold countTransforms. f_equal. apply map_filter_strong_ext_1. intros k p. cbn.
  split; intros [Hp Hk]; (split; [done|]); apply H; try done; by destruct p.
Qed.

Lemma counted_zero job (m : gmap nat pending) k sid data t :
  countTransforms job m = 0%nat -> m !! k <> Some (PTransform job sid data t).
Proof.
  unfold countTransforms. intros H%map_size_empty_inv Hk.
  assert (Hf : filter (fun kp : nat * pending => isTransformOf job kp.2 = true) m !! k
               = Some (PTransform job sid data t)).
  { apply map_lookup_filter_Some. split; [done|]. cbn. apply Nat.eqb_refl. }
  rewrite H in Hf. by rewrite lookup_empty in Hf.
Qed.

Lemma calm_refl st : calm st st.
Proof. by repeat split. Qed.

Lemma calm_trans a b c : calm a b -> calm b c -> calm a c.
Proof.
  intros (H1 & H2 & H3) (H1' & H2' & H3'). split_and!; [congruence|congruence|].
  intros Hf. destruct (H3 Hf) as [Hf' Hiff]. destruct (H3' Hf') as [Hf'' Hiff'].
  split; [done|]. intros k p Hp. by rewrite Hiff', Hiff.
Qed.

Lemma calm_same st0 st st' :
  todo st' = todo st -> nextJob st' = nextJob st ->
  pendingCalls st' = pendingCalls st -> nextCall st' = nextCall st ->
  calm st0 st -> calm st0 st'.
Proof.
  intros H1 H2 H3 H4 Hc. eapply calm_trans; [exact Hc|]. split_and!; [done|done|].
  intros Hf. split.
  - intros k Hk. rewrite H3. apply Hf. by rewrite <- H4.
  - intros k p _. by rewrite H3.
Qed.

Lemma calm_emit e st0 st : calm st0 st -> calm st0 (emit e st).
Proof. by apply calm_same. Qed.

Lemma calm_updConn sid F st0 st : calm st0 st -> calm st0 (updConn sid F st).
Proof. by apply calm_same. Qed.

Lemma calm_setConnections F st0 st : calm st0 st -> calm st0 (setConnections F st).
Proof. by apply calm_same. Qed.

Lemma calm_setPerStream F st0 st : calm st0 st -> calm st0 (setPerStream F st).
Proof. by apply calm_same. Qed.

Lemma calm_setBindings F st0 st : calm st0 st -> calm st0 (setBindings F st).
Proof. by apply calm_same. Qed.

Lemma calm_await p st0 st : isTransform p = false -> calm st0 st -> calm st0 (await p st).
Proof.
  intros Hp Hc. eapply calm_trans; [exact Hc|]. split_and!; [done|done|].
  intros Hf. split.
  - intros k Hk. nsimpl. rewrite lookup_insert_ne by lia. apply Hf. lia.
  - intros k q Hq. nsimpl. destruct (decide (nextCall st = k)) as [<-|Hne].
    + rewrite pending_insert_eq, (Hf (nextCall st)) by lia. split; [|done].
      intros [= ->]. congruence.
    + by rewrite lookup_insert_ne.
Qed.

Lemma calm_answered k st0 st :
  (forall p, pendingCalls st !! k = Some p -> isTransform p = false) ->
  calm st0 st -> calm st0 (answered k st).
Proof.
  intros Hk Hc. eapply calm_trans; [exact Hc|]. split_and!; [done|done|].
  intros Hf. split.
  - intros k' Hk'. nsimpl. destruct (decide (k = k')) as [<-|Hne].
    + apply lookup_delete_eq.
    + rewrite lookup_delete_ne by done. by apply Hf.
  - intros k' q Hq. nsimpl. destruct (decide (k = k')) as [<-|Hne].
    + rewrite lookup_delete_eq. split; [done|]. intros H. rewrite (Hk q H) in Hq. done.
    + by rewrite lookup_delete_ne.
Qed.

Lemma calm_replace k p st0 st :
  isTransform p = false ->
  (exists q, pendingCalls st !! k = Some q /\ isTransform q = false) ->
  calm st0 st -> calm st0 (setPending (insert k p) st).
Proof.
  intros Hp (q & Hk & Hq) Hc. eapply calm_trans; [exact Hc|]. split_and!; [done|done|].
  intros Hf. split.
  - intros k' Hk'. nsimpl. destruct (decide (k = k')) as [<-|Hne].
    + rewrite (Hf k Hk') in Hk. done.
    + rewrite lookup_insert_ne by done. by apply Hf.
  - intros k' r Hr. nsimpl. destruct (decide (k = k')) as [<-|Hne].
    + rewrite pending_insert_eq, Hk. split; intros [= ->]; congruence.
    + by rewrite lookup_insert_ne.
Qed.

Lemma foldl_calm {A} (f : node -> A -> node) (l : list A) st0 st :
  (forall s a, calm st0 s -> calm st0 (f s a)) -> calm st0 st -> calm st0 (foldl f st l).
Proof.
  intros Hf. revert st. induction l as [|a l IH]; intros st H; cbn [foldl]; [done|].
  apply IH, Hf, H.
Qed.

(** Peel the state updates of a handler off, the last one first. *)
Ltac calms :=
  unfold finish, clearTimeout, socketClose, _writeResponse, _push, unbindCallback,
    registerConnection;
  repeat first
    [ assumption
    | apply calm_refl
    | apply calm_emit
    | apply calm_updConn
    | apply calm_await; [reflexivity|]
    | apply calm_setPerStream
    | apply calm_setBindings
    | apply calm_setConnections ].

Lemma authenticate_calm E sid message st0 st st' :
  _authenticate E sid message st = Some st' -> calm st0 st -> calm st0 st'.
Proof.
  unfold _authenticate. cbn zeta. intros Ha H. repeat case_match; simplify_eq; calms.
Qed.

Lemma subscribe_calm E sid message st0 st :
  calm st0 st -> calm st0 (_subscribe E sid message st).
Proof.
  intros H. unfold _subscribe. cbn zeta.
  destruct (_ || _); [calms|].
  destruct (_ && _); [calms|].
  destruct (negb _); [calms|].
  destruct (connections st !! sid) as [ci|]; calms.
Qed.

Lemma onData_calm E sid msg st st' : onData E sid msg st = Some st' -> calm st st'.
Proof.
  unfold onData. intros H.
  repeat case_match; simplify_eq;
    first [ by eapply authenticate_calm; [|apply calm_refl]
          | by apply subscribe_calm, calm_refl
          | calms ].
Qed.

Lemma timeout_calm sid st0 st :
  calm st0 st -> calm st0 (authenticationTimeoutCallback sid st).
Proof. intros H. unfold authenticationTimeoutCallback. repeat case_match; calms. Qed.

Lemma getPrincipalCallback_calm E sid message res st0 st :
  calm st0 st -> calm st0 (getPrincipalCallback E sid message res st).
Proof.
  intros H. unfold getPrincipalCallback. cbn zeta. destruct res as [e|u]; [calms|].
  destruct (negb _); calms.
Qed.

Lemma bindCallback_calm E sid message stream err st0 st :
  calm st0 st -> calm st0 (bindCallback E sid message stream err st).
Proof. intros H. unfold bindCallback. destruct err; cbn zeta; calms. Qed.

Lemma authzCallback_calm E sid message err st0 st :
  calm st0 st -> calm st0 (authzCallback E sid message err st).
Proof.
  intros H. unfold authzCallback. cbn zeta. destruct err; [calms|].
  destruct (connections st !! sid) as [ci|]; [|calms].
  case_bool_decide; [cbn zeta; calms|].
  unfold _bindQueue. set (st1 := updConn sid _ st).
  assert (H1 : calm st0 st1) by (subst st1; calms).
  clearbody st1. destruct (connectionInfosPerStream st1 !! _).
  - by apply bindCallback_calm.
  - calms.
Qed.

Lemma onClose_calm sid st0 st : calm st0 st -> calm st0 (onClose sid st).
Proof.
  intros H. unfold onClose. destruct (connections st !! sid) as [ci|]; [|done].
  apply foldl_calm; [|done]. intros s stream Hs.
  unfold closeStream. repeat case_match; calms.
Qed.

Lemma listeners_calm E routed delivered st :
  calm st (onRoutedActivities E routed st) /\ calm st (onDeliveredActivities E delivered st).
Proof.
  split.
  - unfold onRoutedActivities. apply foldl_calm; [|apply calm_refl]. intros s [r m] Hs.
    apply foldl_calm; [|done]. intros s' [t a] Hs'. destruct (negb _); calms.
  - unfold onDeliveredActivities. apply foldl_calm; [|apply calm_refl]. intros s [r m] Hs.
    apply foldl_calm; [|done]. intros s' [t a] Hs'. destruct (isAggregation _); calms.
Qed.

Lemma step_calm E st ev st' :
  step E st ev = Some st' -> touchesCounters ev = false -> calm st st'.
Proof.
  intros H Hev. events ev; try discriminate Hev; cbn [step] in H.
  - destruct (connections st !! sid); [done|]. injection H as <-. calms.
  - destruct (connections st !! sid) as [ci|]; [|done].
    destruct (socketClosed ci); [done|]. by apply onData_calm in H.
  - destruct (connections st !! sid) as [ci|]; [|done].
    destruct (closeEmitted ci); [done|]. injection H as <-. apply onClose_calm. calms.
  - destruct (connections st !! sid) as [ci|]; [|done].
    destruct (authenticationTimeout ci); try done. injection H as <-.
    apply timeout_calm. calms.
  - destruct (pendingCalls st !! k) as [[]|] eqn:Hk; try done. injection H as <-.
    apply getPrincipalCallback_calm, calm_answered; [|apply calm_refl].
    intros p. rewrite Hk. by intros [= <-].
  - destruct (pendingCalls st !! k) as [[]|] eqn:Hk; try done. injection H as <-.
    apply authzCallback_calm, calm_answered; [|apply calm_refl].
    intros p. rewrite Hk. by intros [= <-].
  - destruct (pendingCalls st !! k) as [[]|] eqn:Hk; try done. destruct answer; try done.
    injection H as <-. apply calm_replace; [done| |destruct err; calms].
    eexists. split; [by destruct err|done].
  - destruct (pendingCalls st !! k) as [[]|] eqn:Hk; try done. destruct answer; try done.
    injection H as <-. apply bindCallback_calm, calm_answered; [|apply calm_refl].
    intros p. rewrite Hk. by intros [= <-].
  - destruct (pendingCalls st !! k) as [[]|] eqn:Hk; try done. destruct answer; try done.
    injection H as <-. apply calm_replace; [done| |destruct err; calms].
    eexists. split; [by destruct err|done].
  - destruct (pendingCalls st !! k) as [[]|] eqn:Hk; try done. destruct answer; try done.
    injection H as <-. unfold unbindCallback. apply calm_setPerStream, calm_answered;
      [|apply calm_refl]. intros p. rewrite Hk. by intros [= <-].
  - injection H as <-. apply listeners_calm. exact [].
  - injection H as <-. apply (listeners_calm E []).
Qed.

Lemma callback_in_app (es1 es2 : list effect) job :
  Forall (fun e => kindOf e <> KCallback) es2 ->
  PushCallback job ∈ es1 ++ es2 -> PushCallback job ∈ es1.
Proof.
  intros HF [H|H]%elem_of_app; [done|]. rewrite Forall_forall in HF. by destruct (HF _ H).
Qed.

Lemma callback_lookup_app (es1 es2 : list effect) i job :
  Forall (fun e => kindOf e <> KCallback) es2 ->
  (es1 ++ es2) !! i = Some (PushCallback job) -> es1 !! i = Some (PushCallback job).
Proof.
  intros HF Hi. destruct (decide (i < length es1)%nat) as [Hlt|Hge].
  - by rewrite lookup_app_l in Hi.
  - rewrite lookup_app_r in Hi by lia. rewrite Forall_forall in HF.
    apply list_elem_of_lookup_2 in Hi. by destruct (HF _ Hi).
Qed.

Lemma jobs_calm st st' es :
  calm st st' ->
  effects st' = effects st ++ es ->
  Forall (fun e => kindOf e <> KCallback) es ->
  jobs_inv st -> jobs_inv st'.
Proof.
  intros (Ht & Hj & Hc) He Hes (J0 & J1 & J2 & J3 & J4 & J5).
  destruct (Hc J0) as [J0' Hiff]. split_and!.
  - exact J0'.
  - intros k job sid data t Hk. rewrite Hj. apply Hiff in Hk; [|done]. by eapply J1.
  - intros job. rewrite He, Hj. intros H%callback_in_app; [|done]. by apply J2.
  - intros job. rewrite Ht. unfold pendingOf. rewrite (counted_same job _ _ Hiff). apply J3.
  - intros job. rewrite He, Ht. intros H%callback_in_app; [|done]. by apply J4.
  - intros i j job. rewrite He. intros Hi%callback_lookup_app Hj'%callback_lookup_app; try done.
    by eapply J5.
Qed.

Lemma counted_none job (m : gmap nat pending) :
  (forall k p, m !! k = Some p -> isTransformOf job p = false) -> countTransforms job m = 0%nat.
Proof.
  intros H. unfold countTransforms. rewrite map_empty_filter_2; [apply map_size_empty|].
  intros k p Hk. cbn. by rewrite (H k p Hk).
Qed.

Lemma startTransform_jobs job sid c data st t :
  jobs_inv st -> (job < nextJob st)%nat -> PushCallback job ∉ effects st ->
  jobs_inv (startTransform later job sid c data st t)
  /\ nextJob (startTransform later job sid c data st t) = nextJob st
  /\ PushCallback job ∉ effects (startTransform later job sid c data st t).
Proof.
  intros (J0 & J1 & J2 & J3 & J4 & J5) Hjob Hcb. rewrite startTransform_later.
  assert (Hes : Forall (fun e => kindOf e <> KCallback)
                  [TransformActivities job sid c (ra_activities data) t]).
  { by apply Forall_singleton. }
  split_and!; [split_and!| |]; nsimpl.
  - intros k Hk. nsimpl. rewrite lookup_insert_ne by lia. apply J0. lia.
  - intros k j sid' d t'. destruct (decide (nextCall st = k)) as [<-|Hne].
    + rewrite pending_insert_eq. by intros [= <- _ _ _].
    + rewrite lookup_insert_ne by done. apply J1.
  - intros j H%callback_in_app; [|done]. by apply J2.
  - intros j. unfold pendingOf. nsimpl. destruct (decide (job = j)) as [<-|Hne].
    + rewrite counted_insert_fresh; [|apply J0; lia|cbn; apply Nat.eqb_refl].
      rewrite lookup_insert_eq. cbn. specialize (J3 job). unfold pendingOf in J3. lia.
    + rewrite counted_insert_other.
      * rewrite lookup_insert_ne by done. apply J3.
      * cbn. by apply Nat.eqb_neq.
      * intros q. by rewrite (J0 (nextCall st)) by lia.
  - intros j H%callback_in_app; [|done]. destruct (decide (job = j)) as [<-|Hne]; [done|].
    rewrite lookup_insert_ne by done. by apply J4.
  - intros i j' j Hi%callback_lookup_app Hj'%callback_lookup_app; try done. by eapply J5.
  - done.
  - intros H%callback_in_app; done.
Qed.

Lemma startTransforms_jobs job sid c data kinds : forall st,
  jobs_inv st -> (job < nextJob st)%nat -> PushCallback job ∉ effects st ->
  jobs_inv (foldl (startTransform later job sid c data) st kinds)
  /\ nextJob (foldl (startTransform later job sid c data) st kinds) = nextJob st
  /\ PushCallback job ∉ effects (foldl (startTransform later job sid c data) st kinds).
Proof.
  induction kinds as [|t kinds IH]; intros st Hinv Hjob Hcb; cbn [foldl]; [done|].
  destruct (startTransform_jobs job sid c data st t Hinv Hjob Hcb) as (H1 & H2 & H3).
  destruct (IH _ H1) as (H1' & H2' & H3'); [lia|done|]. split_and!; [done|congruence|done].
Qed.

Lemma pushToConnections_jobs job data stream l : forall st st',
  jobs_inv st -> (job < nextJob st)%nat -> PushCallback job ∉ effects st ->
  foldl (pushToConnection later job data stream) (Some st) l = Some st' ->
  jobs_inv st'.
Proof.
  induction l as [|sid l IH]; intros st st' Hinv Hjob Hcb H; cbn [foldl] in H.
  - by injection H as <-.
  - unfold pushToConnection at 2 in H.
    destruct (connections st !! sid) as [ci|];
      [|exfalso; clear -H; induction l; cbn in H; [done|auto]].
    destruct (transformerTypes ci) as [tts|];
      [|exfalso; clear -H; induction l; cbn in H; [done|auto]].
    destruct (startTransforms_jobs job sid (ctx ci) data (default [] (tts !! stream)) st
                Hinv Hjob Hcb) as (H1 & H2 & H3).
    eapply IH; [exact H1| |exact H3|exact H]. lia.
Qed.

Lemma handlePushActivity_jobs E data st st' :
  jobs_inv st -> _handlePushActivity E later data st = Some st' -> jobs_inv st'.
Proof.
  intros (J0 & J1 & J2 & J3 & J4 & J5) H. unfold _handlePushActivity in H. cbn zeta in H.
  eapply pushToConnections_jobs; [| | |exact H]; nsimpl.
  - split_and!; nsimpl.
    + exact J0.
    + intros k job sid d t Hk. specialize (J1 _ _ _ _ _ Hk). lia.
    + intros job Hin. specialize (J2 _ Hin). lia.
    + intros job. unfold pendingOf. nsimpl. destruct (decide (nextJob st = job)) as [<-|Hne].
      * rewrite lookup_insert_eq. cbn. rewrite counted_none; [done|].
        intros k p Hk. destruct p; try done. cbn. apply Nat.eqb_neq.
        specialize (J1 _ _ _ _ _ Hk). lia.
      * rewrite lookup_insert_ne by done. apply J3.
    + intros job Hin. rewrite lookup_insert_ne; [by apply J4|].
      specialize (J2 _ Hin). lia.
    + exact J5.
  - lia.
  - intros Hin. specialize (J2 _ Hin). lia.
Qed.

Lemma transformCallback_jobs k job sid data t res st :
  jobs_inv st ->
  pendingCalls st !! k = Some (PTransform job sid data t) ->
  jobs_inv (transformCallback job sid data t res (answered k st)).
Proof.
  intros (J0 & J1 & J2 & J3 & J4 & J5) Hk.
  assert (Hcount : pendingOf st job = S (pendingOf (answered k st) job)).
  { unfold pendingOf. nsimpl. apply (counted_delete job _ k _ Hk). cbn. apply Nat.eqb_refl. }
  assert (Hother : forall j, j <> job -> pendingOf (answered k st) j = pendingOf st j).
  { intros j Hne. unfold pendingOf. nsimpl. apply counted_delete_other.
    intros q. rewrite Hk. intros [= <-]. cbn. by apply Nat.eqb_neq. }
  assert (Htodo : 1 <= default 0 (todo st !! job)).
  { specialize (J3 job). lia. }
  assert (Hcb : PushCallback job ∉ effects st).
  { intros Hin. specialize (J4 _ Hin). lia. }
  assert (J0' : freshCalls (answered k st)).
  { intros k' Hk'. nsimpl. destruct (decide (k = k')) as [<-|Hne].
    - apply lookup_delete_eq.
    - rewrite lookup_delete_ne by done. by apply J0. }
  assert (J1' : forall k' j sid' d t',
            pendingCalls (answered k st) !! k' = Some (PTransform j sid' d t') ->
            (j < nextJob st)%nat).
  { intros k' j sid' d t'. nsimpl. destruct (decide (k = k')) as [<-|Hne].
    - by rewrite lookup_delete_eq.
    - rewrite lookup_delete_ne by done. apply J1. }
  assert (J3' : forall j, Z.of_nat (pendingOf (answered k st) j) <= default 0 (todo st !! j)
                          - (if decide (j = job) then 1 else 0)).
  { intros j. destruct (decide (j = job)) as [->|Hne].
    - specialize (J3 job). lia.
    - rewrite (Hother j Hne). specialize (J3 j). lia. }
  unfold transformCallback. destruct res as [e|activities].
  { split_and!; try done.
    intros j. specialize (J3' j). destruct (decide (j = job)); nsimpl; lia. }
  cbn zeta.
  set (w := SocketWrite sid _).
  assert (Hw : Forall (fun e => kindOf e <> KCallback) [w]) by (by apply Forall_singleton).
  nsimpl. rewrite lookup_insert_eq. cbn [default id].
  assert (HJ3 : forall j,
            Z.of_nat (pendingOf (answered k st) j) <=
            default 0 (<[job := default 0 (todo st !! job) - 1]> (todo st) !! j)).
  { intros j. specialize (J3' j). destruct (decide (j = job)) as [->|Hne].
    - rewrite lookup_insert_eq. cbn in *. lia.
    - rewrite lookup_insert_ne by done. cbn in *. lia. }
  destruct (Z.eqb_spec (default 0 (todo st !! job) - 1) 0) as [Hz|Hz].
  - split_and!; nsimpl; try done.
    + intros j [Hin%callback_in_app|Hin%list_elem_of_singleton]%elem_of_app; try done.
      * by apply J2.
      * injection Hin as ->. by eapply J1.
    + intros j [Hin%callback_in_app|Hin%list_elem_of_singleton]%elem_of_app; try done.
      * rewrite lookup_insert_ne; [by apply J4|]. intros <-. done.
      * injection Hin as ->. by rewrite lookup_insert_eq.
    + intros i i' j Hi Hi'.
      assert (Hidx : forall n, ((effects st ++ [w]) ++ [PushCallback job]) !! n
                                 = Some (PushCallback j) ->
                Some (PushCallback j) = effects st !! n
                \/ (j = job /\ n = S (length (effects st)))).
      { intros n Hn. destruct (decide (n < length (effects st ++ [w]))%nat) as [Hlt|Hge].
        - rewrite lookup_app_l in Hn by done. left. symmetry.
          by apply (callback_lookup_app _ [w]).
        - rewrite lookup_app_r in Hn by lia. rewrite length_app in *. cbn in *.
          destruct (n - (length (effects st) + 1))%nat as [|m] eqn:Hm; [|done].
          injection Hn as ->. right. split; [done|lia]. }
      destruct (Hidx _ Hi) as [H1|[-> ->]], (Hidx _ Hi') as [H2|[Hj ->]].
      * by eapply J5.
      * subst j. exfalso. apply Hcb. symmetry in H1. by apply list_elem_of_lookup_2 in H1.
      * exfalso. apply Hcb. symmetry in H2. by apply list_elem_of_lookup_2 in H2.
      * done.
  - split_and!; nsimpl; try done.
    + intros j Hin%callback_in_app; [|done]. by apply J2.
    + intros j Hin%callback_in_app; [|done]. rewrite lookup_insert_ne; [by apply J4|].
      intros <-. done.
    + intros i i' j Hi%callback_lookup_app Hi'%callback_lookup_app; try done. by eapply J5.
Qed.

Lemma step_jobs E st ev st' :
  jobs_inv st -> callsBackLater ev = true -> step E st ev = Some st' -> jobs_inv st'.
Proof.
  intros Hinv Hlater H. destruct (touchesCounters ev) eqn:Hev.
  2:{ destruct (step_calls E st ev st' H) as (es & He & Hes).
      apply (jobs_calm st st' es); [by eapply step_calm|done| |done].
      eapply Forall_impl; [exact Hes|]. intros e Hk Hc. unfold ofKinds in Hk.
      rewrite Hc in Hk. events ev; cbn in Hk, Hev; try discriminate Hev;
        intuition discriminate. }
  events ev; try discriminate Hev; try discriminate Hlater; cbn [step] in H.
  - destruct (pendingCalls st !! k) as [[]|] eqn:Hk; try done. injection H as <-.
    by apply transformCallback_jobs.
  - by eapply handlePushActivity_jobs.
Qed.

Lemma run_jobs E evs : forall st st',
  jobs_inv st -> forallb callsBackLater evs = true -> run E st evs = Some st' -> jobs_inv st'.
Proof.
  induction evs as [|ev evs IH]; intros st st' Hinv Hlater H; cbn in H.
  - by injection H as <-.
  - cbn in Hlater. apply andb_true_iff in Hlater as [Hev Hlater].
    destruct (step E st ev) as [st1|] eqn:Hstep; [|done].
    apply (IH st1 st'); [by eapply step_jobs|done|done].
Qed.

Lemma twoInFlight_run : run sampleCollaborators idle twoInFlightEvents = Some twoInFlight.
Proof. vm_compute. reflexivity. Qed.

Lemma idle_jobs : jobs_inv idle.
Proof.
  unfold idle. split_and!; nsimpl.
  - intros k _. apply lookup_empty.
  - intros k job sid data t H. by rewrite lookup_empty in H.
  - by intros job H%not_elem_of_nil.
  - intros job. unfold pendingOf, countTransforms. nsimpl.
    by rewrite map_filter_empty, map_size_empty, lookup_empty.
  - by intros job H%not_elem_of_nil.
  - intros i j job H. by rewrite lookup_nil in H.
Qed.

(** X14. The completion callback of a message, when the transformer
    answers every call in a later event. In every state such a run reaches,
    the callback of a message has been called at most once, and only when
    none of the transformations started for that message is still in
    flight. The counter of a message is never below the number of its
    transformations in flight, so it never goes below zero. *)
Theorem completion_callback_at_most_once E evs st :
  run E idle evs = Some st ->
  forallb callsBackLater evs = true ->
  (forall i j job,
      effects st !! i = Some (PushCallback job) ->
      effects st !! j = Some (PushCallback job) -> i = j)
  /\ (forall job k sid data t,
        PushCallback job ∈ effects st ->
        pendingCalls st !! k <> Some (PTransform job sid data t))
  /\ (forall job,
        Z.of_nat (pendingOf st job) <= default 0 (todo st !! job)
        /\ 0 <= default 0 (todo st !! job)).
Proof.
  intros Hrun Hlater.
  destruct (run_jobs E evs idle st idle_jobs Hlater Hrun) as (_ & _ & _ & J3 & J4 & J5).
  split_and!.
  - exact J5.
  - intros job k sid data t Hin. apply counted_zero.
    specialize (J3 job). specialize (J4 job Hin). unfold pendingOf in J3. lia.
  - intros job. specialize (J3 job). lia.
Qed.

Lemma completion_callback_at_most_once_witness :
  Z.of_nat (pendingOf twoInFlight 0) <= default 0 (todo twoInFlight !! 0%nat)
  /\ pendingOf twoInFlight 0 = 2%nat.
Proof.
  destruct (completion_callback_at_most_once sampleCollaborators twoInFlightEvents twoInFlight
              twoInFlight_run eq_refl) as (_ & _ & H).
  split; [apply (H 0%nat)|]. vm_compute. reflexivity.
Defined.

Lemma startTransform_failedOf job sid c data st t j :
  freshCalls st ->
  freshCalls (startTransform later job sid c data st t)
  /\ failedOf (startTransform later job sid c data st t) j = failedOf st j.
Proof.
  intros Hf. rewrite startTransform_later. split.
  - intros k Hk. nsimpl. rewrite lookup_insert_ne by lia. apply Hf. lia.
  - unfold failedOf, pendingOf. nsimpl. destruct (decide (job = j)) as [<-|Hne].
    + rewrite counted_insert_fresh; [|apply Hf; lia|cbn; apply Nat.eqb_refl].
      rewrite lookup_insert_eq. cbn. lia.
    + rewrite counted_insert_other.
      * by rewrite lookup_insert_ne.
      * cbn. by apply Nat.eqb_neq.
      * intros q. by rewrite (Hf (nextCall st)) by lia.
Qed.

Lemma startTransforms_failedOf job sid c data kinds j : forall st,
  freshCalls st ->
  freshCalls (foldl (startTransform later job sid c data) st kinds)
  /\ failedOf (foldl (startTransform later job sid c data) st kinds) j = failedOf st j.
Proof.
  induction kinds as [|t kinds IH]; intros st Hf; cbn [foldl]; [done|].
  destruct (startTransform_failedOf job sid c data st t j Hf) as [Hf' <-]. by apply IH.
Qed.

Lemma pushToConnections_failedOf job data stream l j : forall st st',
  freshCalls st ->
  foldl (pushToConnection later job data stream) (Some st) l = Some st' ->
  failedOf st' j = failedOf st j.
Proof.
  induction l as [|sid l IH]; intros st st' Hf H; cbn [foldl] in H.
  - by injection H as <-.
  - unfold pushToConnection at 2 in H.
    destruct (connections st !! sid) as [ci|];
      [|exfalso; clear -H; induction l; cbn in H; [done|auto]].
    destruct (transformerTypes ci) as [tts|];
      [|exfalso; clear -H; induction l; cbn in H; [done|auto]].
    destruct (startTransforms_failedOf job sid (ctx ci) data (default [] (tts !! stream)) j st Hf)
      as [Hf' <-].
    by eapply IH.
Qed.

Lemma handlePushActivity_failedOf E data st st' j :
  jobs_inv st ->
  _handlePushActivity E later data st = Some st' ->
  failedOf st' j = if decide (j = nextJob st) then 0 else failedOf st j.
Proof.
  intros (J0 & J1 & _) H. unfold _handlePushActivity in H. cbn zeta in H.
  apply (pushToConnections_failedOf _ _ _ _ j) in H; [|exact J0]. rewrite H.
  unfold failedOf, pendingOf. nsimpl. destruct (decide (j = nextJob st)) as [->|Hne].
  - rewrite lookup_insert_eq. cbn. rewrite counted_none; [done|].
    intros k p Hk. destruct p; try done. cbn. apply Nat.eqb_neq.
    specialize (J1 _ _ _ _ _ Hk). lia.
  - by rewrite lookup_insert_ne.
Qed.

Lemma calm_failedOf st st' j : calm st st' -> freshCalls st -> failedOf st' j = failedOf st j.
Proof.
  intros (Ht & _ & Hc) Hf. destruct (Hc Hf) as [_ Hiff].
  unfold failedOf, pendingOf. by rewrite Ht, (counted_same j _ _ Hiff).
Qed.

Lemma transformCallback_failedOf k job sid data t res st j :
  pendingCalls st !! k = Some (PTransform job sid data t) ->
  failedOf (transformCallback job sid data t res (answered k st)) j =
    failedOf st j + (if decide (j = job) then match res with inl _ => 1 | inr _ => 0 end else 0).
Proof.
  intros Hk.
  assert (Hcount : pendingOf st job = S (pendingOf (answered k st) job)).
  { unfold pendingOf. nsimpl. apply (counted_delete job _ k _ Hk). cbn. apply Nat.eqb_refl. }
  assert (Hother : j <> job -> pendingOf (answered k st) j = pendingOf st j).
  { intros Hne. unfold pendingOf. nsimpl. apply counted_delete_other.
    intros q. rewrite Hk. intros [= <-]. cbn. by apply Nat.eqb_neq. }
  unfold transformCallback. destruct res as [e|activities].
  - unfold failedOf. destruct (decide (j = job)) as [->|Hne].
    + rewrite Hcount. nsimpl. lia.
    + rewrite <- (Hother Hne). nsimpl. lia.
  - cbn zeta.
    assert (Hf : forall s, pendingCalls s = pendingCalls (answered k st) ->
              todo s = <[job := default 0 (todo st !! job) - 1]> (todo st) ->
              failedOf s j = failedOf st j + (if decide (j = job) then 0 else 0)).
    { intros s Hp Ht. unfold failedOf, pendingOf. rewrite Hp, Ht.
      fold (pendingOf (answered k st) j). destruct (decide (j = job)) as [->|Hne].
      - rewrite lookup_insert_eq. cbn. fold (pendingOf st job). lia.
      - rewrite lookup_insert_ne by done. rewrite (Hother Hne). fold (pendingOf st j). lia. }
    destruct (Z.eqb _ 0); by apply Hf.
Qed.

Lemma step_failedOf E st ev st' job :
  jobs_inv st ->
  (job < nextJob st)%nat ->
  callsBackLater ev = true ->
  step E st ev = Some st' ->
  (isFailureOf st job ev -> failedOf st' job = failedOf st job + 1)
  /\ (~ isFailureOf st job ev -> failedOf st' job = failedOf st job)
  /\ (nextJob st <= nextJob st')%nat.
Proof.
  intros Hinv Hjob Hlater H. destruct (touchesCounters ev) eqn:Hev.
  2:{ pose proof (step_calm E st ev st' H Hev) as Hc. split_and!.
      - intros (k & e & sid & data & t & -> & _). discriminate Hev.
      - intros _. apply (calm_failedOf _ _ _ Hc). by destruct Hinv.
      - destruct Hc as (_ & -> & _). done. }
  events ev; try discriminate Hev; try discriminate Hlater; cbn [step] in H.
  - destruct (pendingCalls st !! k) as [[]|] eqn:Hk; try done. injection H as <-.
    rewrite (transformCallback_failedOf k job0 sid data transformerType res st job Hk).
    split_and!.
    + intros (k' & e & sid' & data' & t & [= -> ->] & Hk'). rewrite Hk in Hk'.
      injection Hk' as -> _ _ _. by rewrite decide_True.
    + intros Hnot. destruct (decide (job = job0)) as [->|Hne]; [|lia].
      destruct res as [e|a]; [|lia]. destruct Hnot. by exists k, e, sid, data, transformerType.
    + unfold transformCallback. destruct res; [done|]. cbn zeta. by destruct (Z.eqb _ 0).
  - rewrite (handlePushActivity_failedOf E data st st' job Hinv H).
    destruct (handlePushActivity_frame E later data st st' H) as [-> _]. split_and!.
    + by intros (k & e & sid & d & t & [=] & _).
    + intros _. rewrite decide_False by lia. done.
    + lia.
Qed.

Lemma callback_needs_no_failure st job :
  jobs_inv st -> PushCallback job ∈ effects st -> failedOf st job = 0.
Proof.
  intros (_ & _ & _ & J3 & J4 & _) Hin. specialize (J3 job). specialize (J4 job Hin).
  unfold failedOf. lia.
Qed.

Lemma run_failedOf E evs : forall st st' job,
  jobs_inv st -> (job < nextJob st)%nat ->
  forallb callsBackLater evs = true ->
  run E st evs = Some st' ->
  failedOf st job <= failedOf st' job /\ jobs_inv st' /\ (job < nextJob st')%nat.
Proof.
  induction evs as [|ev evs IH]; intros st st' job Hinv Hjob Hlater H; cbn in H.
  - injection H as <-. split_and!; [lia|done|done].
  - cbn in Hlater. apply andb_true_iff in Hlater as [Hev Hlater].
    destruct (step E st ev) as [st1|] eqn:Hstep; [|done].
    destruct (step_failedOf E st ev st1 job Hinv Hjob Hev Hstep) as (Hfail & Hok & Hnext).
    destruct (IH st1 st' job) as (Hle & Hinv' & Hjob'); [by eapply step_jobs|lia|done|done|].
    split_and!; [|done|done].
    enough (failedOf st job <= failedOf st1 job) by lia.
    destruct ev as [| | | | | | | | | |k [e|a]| | | |];
      try (rewrite Hok; [lia|by intros (? & ? & ? & ? & ? & [=] & _)]).
    destruct (pendingCalls st !! k) as [p|] eqn:Hk; [|by cbn in Hstep; rewrite Hk in Hstep].
    destruct p as [| | | |job0 sid data t];
      try (by cbn in Hstep; rewrite Hk in Hstep).
    destruct (decide (job0 = job)) as [->|Hne].
    + rewrite Hfail; [lia|]. by exists k, e, sid, data, t.
    + rewrite Hok; [lia|]. intros (k' & e' & sid' & d' & t' & [= <- <-] & Hk').
      rewrite Hk in Hk'. by injection Hk' as ->.
Qed.

(** X15. A failed transformation loses the completion callback for good,
    when the transformer answers every call in a later event. When a
    transformation of a message returns with an error in a state such a run
    reaches, the completion callback of that message has not been called,
    and it is not called in any later state of such a run, whatever the
    other transformations of the message return and whatever else
    happens. *)
Theorem failed_transformation_loses_callback E evs0 st k job sid data t e st1 evs st2 :
  run E idle evs0 = Some st ->
  forallb callsBackLater evs0 = true ->
  pendingCalls st !! k = Some (PTransform job sid data t) ->
  step E st (TransformReturns k (inl e)) = Some st1 ->
  run E st1 evs = Some st2 ->
  forallb callsBackLater evs = true ->
  (PushCallback job ∉ effects st2) /\ 1 <= failedOf st2 job.
Proof.
  intros Hrun0 Hlater0 Hk Hstep Hrun Hlater.
  pose proof (run_jobs E evs0 idle st idle_jobs Hlater0 Hrun0) as Hinv.
  assert (Hjob : (job < nextJob st)%nat).
  { destruct Hinv as (_ & J1 & _). by eapply J1. }
  destruct (step_failedOf E st (TransformReturns k (inl e)) st1 job Hinv Hjob eq_refl Hstep)
    as (Hfail & _ & Hnext).
  assert (H0 : 0 <= failedOf st job).
  { destruct Hinv as (_ & _ & _ & J3 & _). specialize (J3 job). unfold failedOf. lia. }
  assert (H1 : failedOf st1 job = failedOf st job + 1).
  { apply Hfail. by exists k, e, sid, data, t. }
  destruct (run_failedOf E evs st1 st2 job) as (Hle & Hinv2 & _);
    [by eapply (step_jobs E st (TransformReturns k (inl e)))|lia|done|done|].
  assert (H2 : 1 <= failedOf st2 job) by lia. split; [|done].
  intros Hin. rewrite (callback_needs_no_failure st2 job Hinv2 Hin) in H2. lia.
Qed.

Lemma failed_transformation_loses_callback_witness :
  PushCallback 0 ∉
    effects (default idle
               (run sampleCollaborators twoInFlight
                  [TransformReturns 7 (inl (Error 500 "transformation failed"));
                   TransformReturns 8 (inr [JStr "transformed"])])).
Proof.
  apply (failed_transformation_loses_callback sampleCollaborators twoInFlightEvents
           twoInFlight 7 0 1
           sampleActivity (JStr "internal") (Error 500 "transformation failed")
           (default idle (step sampleCollaborators twoInFlight
              (TransformReturns 7 (inl (Error 500 "transformation failed")))))
           [TransformReturns 8 (inr [JStr "transformed"])]).
  - exact twoInFlight_run.
  - reflexivity.
  - vm_compute. reflexivity.
  - vm_compute. reflexivity.
  - vm_compute. reflexivity.
  - reflexivity.
Defined.

(** X16. When nothing fails and the transformer answers every call in a
    later event, the completion callback is called with the last frame. In
    a state such a run reaches, the counter of a message equals the number
    of its transformations in flight right after the dispatch, and keeps
    doing so through every event that is not a failure of one of its
    transformations. While it does, a transformation that succeeds calls the
    completion callback exactly when it was the only one of the message
    still in flight. *)
Theorem callback_follows_last_success E evs st :
  run E idle evs = Some st ->
  forallb callsBackLater evs = true ->
  (forall data st1,
      step E st (BrokerDelivers data) = Some st1 -> failedOf st1 (nextJob st) = 0)
  /\ (forall job ev st1,
        (job < nextJob st)%nat ->
        callsBackLater ev = true ->
        step E st ev = Some st1 ->
        ~ isFailureOf st job ev ->
        failedOf st1 job = failedOf st job)
  /\ (forall job k sid data t activities st1,
        failedOf st job = 0 ->
        pendingCalls st !! k = Some (PTransform job sid data t) ->
        step E st (TransformReturns k (inr activities)) = Some st1 ->
        (PushCallback job ∈ effectsFrom (length (effects st)) st1 <->
         pendingOf st job = 1%nat)).
Proof.
  intros Hrun0 Hlater0.
  pose proof (run_jobs E evs idle st idle_jobs Hlater0 Hrun0) as Hinv. split_and!.
  - intros data st1 H. cbn [step] in H.
    rewrite (handlePushActivity_failedOf E data st st1 _ Hinv H). by rewrite decide_True.
  - intros job ev st1 Hjob Hev H Hnot.
    by destruct (step_failedOf E st ev st1 job Hinv Hjob Hev H) as (_ & Hok & _); apply Hok.
  - intros job k sid data t activities st1 Hz Hk H.
    destruct (transform_returns E st k job sid data t (inr activities) Hk)
      as (st1' & H' & He & _).
    rewrite H in H'. injection H' as <-.
    unfold effectsFrom. rewrite He, drop_app_length. unfold failedOf in Hz.
    destruct (Z.eqb_spec (default 0 (todo st !! job) - 1) 0) as [Hone|Hmore].
    + split; [lia|]. intros _. apply list_elem_of_further, list_elem_of_here.
    + split; [|lia]. intros [?|Hin%not_elem_of_nil]%elem_of_cons; done.
Qed.

Lemma callback_follows_last_success_witness :
  failedOf twoInFlight 0 = 0
  /\ PushCallback 0 ∈
       effects (default idle
                  (run sampleCollaborators twoInFlight
                     [TransformReturns 7 (inr [JStr "t1"]);
                      TransformReturns 8 (inr [JStr "t2"])])).
Proof.
  assert (Hrun : run sampleCollaborators idle (removelast twoInFlightEvents)
                 = Some twoSubscribers) by (vm_compute; reflexivity).
  destruct (callback_follows_last_success sampleCollaborators (removelast twoInFlightEvents)
              twoSubscribers Hrun eq_refl) as (H1 & _ & _).
  split.
  - apply (H1 sampleActivity twoInFlight). vm_compute. reflexivity.
  - vm_compute. repeat first [apply list_elem_of_here|apply list_elem_of_further].
Defined.

(** ** A transformer that answers at once *)

Lemma startTransform_atOnce job sid c data activities st t :
  todo st !! job = Some 0 ->
  effects (startTransform (atOnce activities) job sid c data st t) =
    effects st ++
      [TransformActivities job sid c (ra_activities data) t;
       SocketWrite sid
         (PushFrame (ra_resourceId data) (ra_streamType data) activities t
            (ra_numNewActivities data));
       PushCallback job]
  /\ pendingCalls (startTransform (atOnce activities) job sid c data st t) = pendingCalls st
  /\ nextCall (startTransform (atOnce activities) job sid c data st t) = nextCall st
  /\ todo (startTransform (atOnce activities) job sid c data st t) !! job = Some 0.
Proof.
  intros Ht. unfold startTransform. unfold atOnce. unfold transformCallback. cbn zeta.
  nsimpl. rewrite Ht. cbn [default id]. rewrite !lookup_insert_eq. cbn [default id].
  change (Z.eqb (0 + 1 - 1) 0) with true. cbn iota. nsimpl.
  rewrite Ht. cbn [default id]. rewrite ?lookup_insert_eq. cbn [default id].
  rewrite <- !app_assoc. by split_and!.
Qed.

Lemma startTransforms_atOnce job sid c data activities kinds : forall st,
  todo st !! job = Some 0 ->
  let st' := foldl (startTransform (atOnce activities) job sid c data) st kinds in
  effects st' =
    effects st ++
      flat_map (fun t =>
        [TransformActivities job sid c (ra_activities data) t;
         SocketWrite sid
           (PushFrame (ra_resourceId data) (ra_streamType data) activities t
              (ra_numNewActivities data));
         PushCallback job]) kinds
  /\ pendingCalls st' = pendingCalls st
  /\ nextCall st' = nextCall st
  /\ todo st' !! job = Some 0.
Proof.
  induction kinds as [|t kinds IH]; intros st Ht; cbn zeta; cbn [foldl flat_map].
  - by rewrite app_nil_r.
  - destruct (startTransform_atOnce job sid c data activities st t Ht) as (He & Hp & Hn & Ht').
    destruct (IH _ Ht') as (He' & Hp' & Hn' & Ht'').
    rewrite He', He, Hp', Hp, Hn', Hn, <- app_assoc. done.
Qed.

Lemma answeredAtOnce_pairs st job data activities sid ci ts :
  connections st !! sid = Some ci ->
  flat_map (answeredAtOnce st job data activities) (map (pair sid) ts) =
    flat_map (fun t =>
      [TransformActivities job sid (ctx ci) (ra_activities data) t;
       SocketWrite sid
         (PushFrame (ra_resourceId data) (ra_streamType data) activities t
            (ra_numNewActivities data));
       PushCallback job]) ts.
Proof.
  intros Hci. induction ts as [|t ts IHt]; cbn; [done|].
  rewrite IHt. unfold callOfJob, ctxOf. cbn. by rewrite Hci.
Qed.

Lemma pushToConnections_atOnce job data stream activities l : forall acc,
  todo acc !! job = Some 0 ->
  (forall sid, sid ∈ l ->
     exists ci, connections acc !! sid = Some ci /\ is_Some (transformerTypes ci)) ->
  exists st',
    foldl (pushToConnection (atOnce activities) job data stream) (Some acc) l = Some st'
    /\ effects st' =
         effects acc ++ flat_map (answeredAtOnce acc job data activities) (pushJobs acc stream l)
    /\ pendingCalls st' = pendingCalls acc
    /\ nextCall st' = nextCall acc
    /\ todo st' !! job = Some 0.
Proof.
  induction l as [|sid l IH]; intros acc Ht Hl.
  - exists acc. cbn. by rewrite app_nil_r.
  - destruct (Hl sid) as (ci & Hci & [tts Htts]); [apply list_elem_of_here|].
    cbn [foldl]. unfold pushToConnection at 2. rewrite Hci, Htts.
    destruct (startTransforms_atOnce job sid (ctx ci) data activities
                (default [] (tts !! stream)) acc Ht) as (He1 & Hp1 & Hn1 & Ht1).
    set (acc1 := foldl (startTransform (atOnce activities) job sid (ctx ci) data) acc
                   (default [] (tts !! stream))) in *.
    assert (Hsame : connections acc1 = connections acc).
    { subst acc1. apply foldl_same_registry. intros; apply startTransform_same. }
    destruct (IH acc1 Ht1) as (st' & Hrun & He2 & Hp2 & Hn2 & Ht2).
    { intros sid' Hin. rewrite Hsame. apply Hl. by apply list_elem_of_further. }
    exists st'. split; [done|].
    rewrite He2, He1, Hp2, Hp1, Hn2, Hn1, <- app_assoc. split_and!; try done.
    f_equal. unfold pushJobs at 2. cbn [flat_map]. rewrite flat_map_app. f_equal.
    + unfold transformersOf. rewrite Hci, Htts. cbn [default].
      symmetry. by apply answeredAtOnce_pairs.
    + unfold pushJobs, answeredAtOnce, callOfJob, ctxOf, transformersOf. by rewrite Hsame.
Qed.

(** X26. When the transformer answers every call of a message at once and
    with success, the completion callback is called once per transformation
    and not once per message: each callback runs inside the loop, finds the
    counter at 1 and brings it back to 0. In a reachable state the dispatch
    then makes, for every subscriber and format in order, the call of the
    transformer, the write of the push frame and a call of the completion
    callback; no call is left pending and the counter ends at 0. *)
Theorem answered_at_once_calls_back_every_time E st data activities :
  reachable E st ->
  let stream := createActivityStreamId E (JStr (ra_resourceId data)) (JStr (ra_streamType data)) in
  let jobs := pushJobs st stream (default [] (connectionInfosPerStream st !! stream)) in
  exists st',
    step E st (BrokerDeliversAnswered data (atOnce activities)) = Some st'
    /\ effects st' = effects st ++ flat_map (answeredAtOnce st (nextJob st) data activities) jobs
    /\ List.filter isCompletion (effectsFrom (length (effects st)) st') =
         map (fun _ => PushCallback (nextJob st)) jobs
    /\ pendingCalls st' = pendingCalls st
    /\ todo st' !! nextJob st = Some 0.
Proof.
  intros Hr stream jobs. cbn [step]. unfold _handlePushActivity. cbn zeta. fold stream.
  set (st0 := Node _ _ _ _ _ _ _ _).
  destruct (pushToConnections_atOnce (nextJob st) data stream activities
              (default [] (connectionInfosPerStream st !! stream)) st0)
    as (st' & Hrun & He & Hp & Hn & Ht).
  { subst st0. cbn. apply lookup_insert_eq. }
  { intros sid Hin. destruct (reachable_listed E st _ sid Hr Hin) as (ci & ? & ? & _).
    by exists ci. }
  exists st'. split; [done|]. split; [exact He|]. split; [|by split].
  unfold effectsFrom. rewrite He. subst st0. cbn [effects]. rewrite drop_app_length.
  change (pushJobs _ stream _) with jobs. clearbody jobs.
  induction jobs as [|p jobs IH]; cbn; [done|]. by rewrite IH.
Qed.

Lemma answered_at_once_calls_back_every_time_witness :
  exists st',
    step sampleCollaborators twoSubscribers
      (BrokerDeliversAnswered sampleActivity (atOnce [JStr "transformed"])) = Some st'
    /\ effectsFrom (length (effects twoSubscribers)) st' =
         [TransformActivities 0 1 (Some sampleContext) [JStr "a1"] (JStr "internal");
          SocketWrite 1
            (PushFrame "c:cam:x" "activity" [JStr "transformed"] (JStr "internal") None);
          PushCallback 0;
          TransformActivities 0 2 (Some sampleContext) [JStr "a1"] (JStr "internal");
          SocketWrite 2
            (PushFrame "c:cam:x" "activity" [JStr "transformed"] (JStr "internal") None);
          PushCallback 0].
Proof.
  destruct (answered_at_once_calls_back_every_time sampleCollaborators twoSubscribers
              sampleActivity [JStr "transformed"] twoSubscribers_reachable)
    as (st' & Hs & He & _).
  exists st'. split; [exact Hs|]. unfold effectsFrom. rewrite He, drop_app_length.
  vm_compute. reflexivity.
Defined.

(** The callback of a transformation that is answered at once runs before
    the next transformation is started: the first succeeds and calls the
    completion callback, the second fails, and the counter stays at 1. *)
Example callback_before_a_failure :
  exists st',
    step sampleCollaborators twoSubscribers
      (BrokerDeliversAnswered sampleActivity
         (fun n => if Nat.eqb n (length (effects twoSubscribers))
                   then Some (inr [JStr "transformed"])
                   else Some (inl (Error 500 "transformation failed")))) = Some st'
    /\ effectsFrom (length (effects twoSubscribers)) st' =
         [TransformActivities 0 1 (Some sampleContext) [JStr "a1"] (JStr "internal");
          SocketWrite 1
            (PushFrame "c:cam:x" "activity" [JStr "transformed"] (JStr "internal") None);
          PushCallback 0;
          TransformActivities 0 2 (Some sampleContext) [JStr "a1"] (JStr "internal")]
    /\ todo st' !! 0%nat = Some 1
    /\ pendingCalls st' = pendingCalls twoSubscribers.
Proof.
  eexists. split; [vm_compute; reflexivity|]. vm_compute. auto.
Qed.

Lemma onlyCalls_refl st : onlyCalls st st.
Proof. by repeat split. Qed.

Lemma onlyCalls_trans a b c : onlyCalls a b -> onlyCalls b c -> onlyCalls a c.
Proof.
  intros (?&?&?&?&?&?&?) (?&?&?&?&?&?&?). repeat split; congruence.
Qed.

Lemma onlyCalls_emit e st : onlyCalls st (emit e st).
Proof. by repeat split. Qed.

Lemma foldl_onlyCalls {A} (f : node -> A -> node) (l : list A) st :
  (forall s a, onlyCalls s (f s a)) -> onlyCalls st (foldl f st l).
Proof.
  intros Hf. revert st. induction l as [|a l IH]; intros st; cbn [foldl].
  - apply onlyCalls_refl.
  - eapply onlyCalls_trans; [apply Hf|apply IH].
Qed.

Lemma onRoutedActivities_onlyCalls E routed st : onlyCalls st (onRoutedActivities E routed st).
Proof.
  unfold onRoutedActivities. apply foldl_onlyCalls. intros s [r m].
  apply foldl_onlyCalls. intros s' [t a].
  destruct (negb _); [apply onlyCalls_emit|apply onlyCalls_refl].
Qed.

Lemma onDeliveredActivities_onlyCalls E delivered st :
  onlyCalls st (onDeliveredActivities E delivered st).
Proof.
  unfold onDeliveredActivities. apply foldl_onlyCalls. intros s [r m].
  apply foldl_onlyCalls. intros s' [t a].
  destruct (isAggregation _); [apply onlyCalls_emit|apply onlyCalls_refl].
Qed.

(** ** From a listener to the sockets *)

Lemma routed_published E routed st e :
  e ∈ effectsFrom (length (effects st)) (onRoutedActivities E routed st) ->
  exists data a,
    e = Submit (streamIdOf E data) data
    /\ ra_activities data = [a] /\ ra_numNewActivities data = None
    /\ deliveryPhase E (ra_streamType data) <> Some "aggregation".
Proof.
  unfold effectsFrom. rewrite onRoutedActivities_effects, drop_app_length.
  rewrite list_elem_of_In, in_flat_map. intros ([r m] & _ & Hin).
  apply in_flat_map in Hin as ([t a] & _ & Hin).
  destruct (isAggregation (deliveryPhase E t)) eqn:Hp; [done|].
  destruct Hin as [<-|[]]. exists (RoutedActivity [a] r t None), a. split_and!; try done.
  cbn. intros Hagg%isAggregation_spec. congruence.
Qed.

Lemma delivered_published E delivered st e :
  e ∈ effectsFrom (length (effects st)) (onDeliveredActivities E delivered st) ->
  exists data,
    e = Submit (streamIdOf E data) data
    /\ deliveryPhase E (ra_streamType data) = Some "aggregation".
Proof.
  unfold effectsFrom. rewrite onDeliveredActivities_effects, drop_app_length.
  rewrite list_elem_of_In, in_flat_map. intros ([r m] & _ & Hin).
  apply in_flat_map in Hin as ([t a] & _ & Hin).
  destruct (isAggregation (deliveryPhase E t)) eqn:Hp; [|done].
  destruct Hin as [<-|[]]. eexists (RoutedActivity _ r t _). split; [done|].
  cbn. by apply isAggregation_spec.
Qed.

(** X17. Every call the two listeners make is a publication whose routing
    key is the stream id of the resource id and stream type inside the
    published message, so [_handlePushActivity] looks a message up under the
    key it was published with. A message of the routing listener carries
    exactly one activity and no [numNewActivities]. The listeners change
    nothing else: connections, arrays, pending calls and bindings stay as
    they were. *)
Theorem listeners_publish_under_the_stream_id E routed delivered st :
  (forall e,
      e ∈ effectsFrom (length (effects st)) (onRoutedActivities E routed st) ->
      exists data a,
        e = Submit (streamIdOf E data) data
        /\ ra_activities data = [a] /\ ra_numNewActivities data = None)
  /\ (forall e,
        e ∈ effectsFrom (length (effects st)) (onDeliveredActivities E delivered st) ->
        exists data, e = Submit (streamIdOf E data) data)
  /\ (forall st', st' = onRoutedActivities E routed st
                  \/ st' = onDeliveredActivities E delivered st ->
        connections st' = connections st
        /\ connectionInfosPerStream st' = connectionInfosPerStream st
        /\ pendingCalls st' = pendingCalls st
        /\ bindings st' = bindings st).
Proof.
  split_and!.
  - intros e He. apply routed_published in He as (data & a & ? & ? & ? & _). by exists data, a.
  - intros e He. apply delivered_published in He as (data & ? & _). by exists data.
  - intros st' [->| ->].
    + destruct (onRoutedActivities_onlyCalls E routed st) as (?&?&?&_&_&_&?). done.
    + destruct (onDeliveredActivities_onlyCalls E delivered st) as (?&?&?&_&_&_&?). done.
Qed.

(** X18. From a listener to the subscribers. Whatever a listener publishes,
    when the broker delivers that message to a node in a reachable state the
    node starts one transformation per format for the connections in the
    array of the routing key the message was published with, in the order of
    the array, and for no other connection. *)
Theorem published_message_reaches_its_stream E routed delivered st key data st2 :
  Submit key data ∈ effectsFrom (length (effects st)) (onRoutedActivities E routed st)
  \/ Submit key data ∈ effectsFrom (length (effects st)) (onDeliveredActivities E delivered st) ->
  reachable E st2 ->
  exists st3,
    step E st2 (BrokerDelivers data) = Some st3
    /\ effects st3 = effects st2 ++
         map (callOfJob st2 (nextJob st2) data)
           (pushJobs st2 key (default [] (connectionInfosPerStream st2 !! key))).
Proof.
  intros Hpub Hr.
  assert (Hkey : key = streamIdOf E data).
  { destruct Hpub as [H|H].
    - apply routed_published in H as (d & a & [= -> ->] & _). done.
    - apply delivered_published in H as (d & [= -> ->] & _). done. }
  subst key.
  destruct (handlePushActivity_started E data st2) as (st3 & Hs & He & _).
  { intros sid Hin. destruct (reachable_listed E st2 _ sid Hr Hin) as (ci & ? & ? & _).
    by exists ci. }
  exists st3. split; [exact Hs|exact He].
Qed.

Lemma published_message_reaches_its_stream_witness :
  exists st3,
    step sampleCollaborators twoSubscribers
      (BrokerDelivers (RoutedActivity [JStr "a1"] "c:cam:x" "activity" None)) = Some st3
    /\ effectsFrom (length (effects twoSubscribers)) st3 =
         [TransformActivities 0 1 (Some sampleContext) [JStr "a1"] (JStr "internal");
          TransformActivities 0 2 (Some sampleContext) [JStr "a1"] (JStr "internal")].
Proof.
  destruct (published_message_reaches_its_stream sampleCollaborators
              [("c:cam:x", [("activity", JStr "a1")])] [] idle
              "c:cam:x#activity" (RoutedActivity [JStr "a1"] "c:cam:x" "activity" None)
              twoSubscribers) as (st3 & Hs & He).
  - left. vm_compute. apply list_elem_of_here.
  - exact twoSubscribers_reachable.
  - exists st3. split; [exact Hs|]. unfold effectsFrom. rewrite He, drop_app_length.
    vm_compute. reflexivity.
Defined.

(** ** init *)

(** X19. [init] stops at the first error. It calls its callback itself only
    with the error of the exchange or of the queue, and then makes no
    further call; when both are declared it hands the callback to
    [MQ.subscribeQueue], so that in every case the callback is passed on
    exactly once, by the last call. The queue is declared only after the
    exchange is, under the name kept in [queueName], which is the prefix
    followed by the generated id, and the node subscribes to that same
    queue. *)
Theorem init_stops_at_first_error exchangeAnswer shortId queueAnswer :
  let '(queueName, calls) := init exchangeAnswer shortId queueAnswer in
  head calls = Some (DeclareExchange EXCHANGE_NAME)
  /\ (queueName = None <-> is_Some exchangeAnswer)
  /\ (forall q, DeclareQueue q ∈ calls <->
        exchangeAnswer = None /\ queueName = Some q /\ q = String.append QUEUE_PREFIX shortId)
  /\ (forall q, SubscribeQueue q ∈ calls <->
        exchangeAnswer = None /\ queueAnswer = None /\ queueName = Some q)
  /\ (forall err, InitCallback err ∈ calls <->
        exchangeAnswer = Some err \/ (exchangeAnswer = None /\ queueAnswer = Some err))
  /\ exists before final,
       calls = before ++ [final]
       /\ (forall e, e ∈ before -> match e with
                                    | DeclareExchange _ | DeclareQueue _ => True
                                    | _ => False
                                    end)
       /\ match final with
          | SubscribeQueue _ | InitCallback _ => True
          | _ => False
          end.
Proof.
  unfold init. destruct exchangeAnswer as [e1|]; [|destruct queueAnswer as [e2|]].
  all: split; [done|]; split; [split; [intros ?; by eauto|by intros [? ?]]|].
  all: split; [intros q; rewrite !elem_of_cons, elem_of_nil; intuition congruence|].
  all: split; [intros q; rewrite !elem_of_cons, elem_of_nil; intuition congruence|].
  all: split; [intros q; rewrite !elem_of_cons, elem_of_nil; intuition congruence|].
  - exists [DeclareExchange EXCHANGE_NAME], (InitCallback e1). split_and!; try done.
    by intros e ->%list_elem_of_singleton.
  - eexists [_; _], _. split; [done|]. split; [|done].
    intros e [->|[->|H%not_elem_of_nil]%elem_of_cons]%elem_of_cons; done.
  - eexists [_; _], _. split; [done|]. split; [|done].
    intros e [->|[->|H%not_elem_of_nil]%elem_of_cons]%elem_of_cons; done.
Qed.

(** ** The validator wrapper *)

(** X20. The accessors of a validator agree: [hasErrors] holds exactly when
    [getErrorCount] is positive, when [getErrors] returns an array and when
    [getFirstError] returns an error; the array [getErrors] returns is the
    whole list, whose first element is what [getFirstError] returns. *)
Theorem validator_accessors_agree errors :
  (hasErrors errors = true <-> (0 < getErrorCount errors)%nat)
  /\ (hasErrors errors = true <-> getErrors errors = Some errors)
  /\ (hasErrors errors = false <-> getErrors errors = None)
  /\ (hasErrors errors = true <-> is_Some (getFirstError errors))
  /\ getFirstError errors = head (default [] (getErrors errors))
  /\ getErrorCount errors = length (default [] (getErrors errors)).
Proof.
  destruct errors as [|e errors]; cbn; split_and!; try done.
  all: try (split; [done|lia]).
  all: try (split; [lia|done]).
  all: try (split; [done|by intros [? ?]]).
  all: try (split; [by eexists|done]).
Qed.

(** X21. A failed check never hides an earlier one: whatever checks follow,
    the first error of a validator stays the first error, so
    [getFirstError] reports the first check that failed. A check that passes
    changes nothing, a check that fails adds one error, and the first failed
    check of a fresh validator is the one reported. *)
Theorem validator_keeps_first_error passed err errors :
  (forall e, getFirstError errors = Some e ->
     getFirstError (check passed err errors) = Some e)
  /\ (hasErrors errors = true -> hasErrors (check passed err errors) = true)
  /\ getErrorCount (check passed err errors) =
       (getErrorCount errors + (if passed then 0 else 1))%nat
  /\ (passed = false -> check passed err errors = Validator_error err errors)
  /\ (passed = false -> getFirstError (check passed err []) = Some err).
Proof.
  unfold check, Validator_error, getErrorCount. destruct passed; split_and!; try done.
  - by destruct errors.
  - by destruct errors.
  - rewrite length_app. cbn. lia.
Qed.

(** ** Contexts *)

(** X22. A context that the global administrator check accepts is accepted
    by the logged-in check when no tenant alias is asked for; when one is,
    the logged-in check either accepts it or records that the tenant is not
    the right one, and it accepts exactly when the alias is the one of the
    tenant of the context. *)
Theorem administrator_is_logged_in (c : option contextObject) (tenantAlias : jsval) :
  isGlobalAdministratorUser c = Passes ->
  isLoggedInUser c JUndefined = Passes
  /\ exists x t,
       c = Some x /\ co_tenant x = Returns t
       /\ isLoggedInUser c tenantAlias =
            (if truthy tenantAlias && negb (strictEq (prop t "alias") tenantAlias)
             then Records "The context is associated to an invalid tenant"
             else Passes).
Proof.
  unfold isGlobalAdministratorUser, isLoggedInUser.
  destruct c as [[[|t] [|u] [|r]]|]; cbn [co_tenant co_user co_isGlobalAdmin]; try done;
    destruct (negb (isObject t) || negb (truthy (prop t "alias"))); try done;
    destruct (negb (isObject u) || negb (truthy (prop u "id"))); try done.
  intros _. split; [done|]. by eexists _, t.
Qed.

Lemma administrator_is_logged_in_witness :
  isLoggedInUser (Some sampleAdministrator) JUndefined = Passes
  /\ isLoggedInUser (Some sampleAdministrator) (JStr "cam") = Passes
  /\ isLoggedInUser (Some sampleAdministrator) (JStr "oxford") =
       Records "The context is associated to an invalid tenant".
Proof.
  split_and!.
  - apply (administrator_is_logged_in (Some sampleAdministrator) JUndefined). reflexivity.
  - destruct (administrator_is_logged_in (Some sampleAdministrator) (JStr "cam") eq_refl)
      as (_ & x & t & [= <-] & [= <-] & H). exact H.
  - destruct (administrator_is_logged_in (Some sampleAdministrator) (JStr "oxford") eq_refl)
      as (_ & x & t & [= <-] & [= <-] & H). exact H.
Defined.

(** X23. The logged-in check calls [ctx.tenant] and [ctx.user] without
    testing that they are functions. It throws exactly on an object whose
    [tenant] is not a function, or whose tenant is sound and whose [user] is
    not a function. The administrator check tests both first: it never
    throws, and records an error on every context on which the logged-in
    check throws. What is not an object is rejected by both with the same
    text. *)
Theorem logged_in_check_throws_without_methods (c : option contextObject)
    (tenantAlias : jsval) :
  (isLoggedInUser c tenantAlias = Throws <->
     exists x, c = Some x
       /\ (co_tenant x = NotAFunction
           \/ exists t, co_tenant x = Returns t /\ isObject t = true
                /\ truthy (prop t "alias") = true /\ co_user x = NotAFunction))
  /\ isGlobalAdministratorUser c <> Throws
  /\ (isLoggedInUser c tenantAlias = Throws ->
      isGlobalAdministratorUser c = Records "The context is not associated to a tenant"
      \/ isGlobalAdministratorUser c = Records "The user is not logged in")
  /\ (c = None ->
      isLoggedInUser c tenantAlias = Records "An empty context has been passed in"
      /\ isGlobalAdministratorUser c = Records "An empty context has been passed in").
Proof.
  unfold isGlobalAdministratorUser, isLoggedInUser.
  destruct c as [[[|t] [|u] [|r]]|]; cbn [co_tenant co_user co_isGlobalAdmin].
  all: try destruct (isObject t) eqn:Ht; try destruct (truthy (prop t "alias")) eqn:Ha;
    cbn [negb orb].
  all: try destruct (negb (isObject u) || negb (truthy (prop u "id"))) eqn:Hu.
  all: try destruct (truthy tenantAlias && negb (strictEq (prop t "alias") tenantAlias)).
  all: try destruct (negb (strictEq r (JBool true))).
  all: split_and!; try done; try (intros _; by left); try (intros _; by right).
  all: try (split; [done|]).
  all: try (intros (x & [= <-] & [H|(t' & H & Ht' & Ha' & Hu')]);
            cbn in *; simplify_eq; congruence).
  all: try (split; [intros _|done]; eexists; split; [done|]; cbn; auto).
  all: try (right; eexists; split_and!; done).
  all: try (intros (x & H & _); done).
Qed.

(** ** The invitations of discussions *)

Lemma fireMemberUpdates_updates hashes infos users discussions :
  Forall (fun e => isUpdate e = true) (fireMemberUpdates hashes infos users discussions).1.
Proof.
  induction discussions as [|d rest IH]; cbn; [done|].
  destruct (findWhere hashes (discussion_id d)); [|done].
  destruct (fireMemberUpdates hashes infos users rest) as [es returned]. cbn in *.
  by apply Forall_cons.
Qed.

Lemma filter_isCallback_updates es :
  Forall (fun e => isUpdate e = true) es -> List.filter isCallback es = [].
Proof.
  induction 1 as [|e es He _ IH]; [done|]. cbn. rewrite IH. by destruct e.
Qed.

(** X24. Both listeners call their callback exactly once on every path,
    and never with an error: an error of the DAO is logged and swallowed.
    The listener of accepted invitations asks the DAO only when a key of the
    member changes is a resource id that starts with [d:], and then for
    exactly those keys, in their order; when there is none it calls back at
    once with nothing. The callback comes before every member update. *)
Theorem invitation_listeners_call_back_once isResourceId getDiscussionsById hashes infos
    users d answer :
  let ids := List.filter (_isDiscussionId isResourceId) (map fst infos) in
  let calls := (onAcceptedInvitation isResourceId getDiscussionsById hashes infos users).1 in
  (exists before result after,
      calls = before ++ Callback None result :: after
      /\ before = match ids with
                  | [] => []
                  | _ => GetDiscussionsById ids
                         :: match getDiscussionsById ids with
                            | inl _ => [LogWarn]
                            | inr _ => []
                            end
                  end
      /\ result = match ids with
                  | [] => None
                  | _ => match getDiscussionsById ids with
                         | inl _ => None
                         | inr discussions => Some discussions
                         end
                  end
      /\ Forall (fun e => isUpdate e = true) after)
  /\ length (List.filter isCallback calls) = 1%nat
  /\ (forall id, In id ids <->
        In id (map fst infos) /\ isResourceId id = true /\ String.prefix "d:" id = true)
  /\ List.filter isCallback (onDeletedDiscussion d answer) = [Callback None None]
  /\ last (onDeletedDiscussion d answer) = Some (Callback None None).
Proof.
  cbn zeta. unfold onAcceptedInvitation.
  set (ids := List.filter (_isDiscussionId isResourceId) (map fst infos)).
  split_and!.
  - destruct ids as [|i ids'] eqn:Hids.
    + exists [], None, []. by split_and!.
    + rewrite <- Hids. destruct (getDiscussionsById ids) as [err|discussions].
      * exists [GetDiscussionsById ids; LogWarn], None, []. by split_and!.
      * pose proof (fireMemberUpdates_updates hashes infos users discussions) as Hup.
        destruct (fireMemberUpdates hashes infos users discussions) as [es returned].
        exists [GetDiscussionsById ids], (Some discussions), es. by split_and!.
  - destruct ids as [|i ids'] eqn:Hids; [done|].
    rewrite <- Hids. destruct (getDiscussionsById ids) as [err|discussions]; [done|].
    pose proof (fireMemberUpdates_updates hashes infos users discussions) as Hup.
    destruct (fireMemberUpdates hashes infos users discussions) as [es returned].
    cbn in *. by rewrite (filter_isCallback_updates es Hup).
  - intros id. subst ids. rewrite filter_In. unfold _isDiscussionId.
    rewrite andb_true_iff. tauto.
  - by destruct answer.
  - by destruct answer.
Qed.

(** X25. The member updates follow the discussions the DAO returned, in
    order: one event per discussion, built from the first invitation hash of
    that discussion, the inviter that hash names and the member change of
    that discussion. The loop returns exactly when every discussion has a
    hash. At the first discussion without one it throws: the discussions
    before it have had their event, that one and those after it get
    none. *)
Theorem member_updates_follow_the_discussions hashes infos users discussions :
  let '(updates, returned) := fireMemberUpdates hashes infos users discussions in
  Forall2
    (fun d e =>
       exists h, findWhere hashes (discussion_id d) = Some h
                 /\ ih_resourceId h = discussion_id d
                 /\ e = UpdatedDiscussionMembers (assoc (ih_inviterUserId h) users) d h
                          (assoc (discussion_id d) infos))
    (take (length updates) discussions) updates
  /\ (returned = true <->
      Forall (fun d => is_Some (findWhere hashes (discussion_id d))) discussions)
  /\ (returned = true -> length updates = length discussions)
  /\ (returned = false ->
      exists d, discussions !! length updates = Some d
                /\ findWhere hashes (discussion_id d) = None).
Proof.
  induction discussions as [|d rest IH]; cbn [fireMemberUpdates].
  - split_and!; try done.
  - destruct (findWhere hashes (discussion_id d)) as [h|] eqn:Hh.
    + destruct (fireMemberUpdates hashes infos users rest) as [es returned].
      destruct IH as (IH1 & IH2 & IH3 & IH4). cbn [length take]. split_and!.
      * constructor; [|done]. exists h. split_and!; try done.
        unfold findWhere in Hh. apply find_some in Hh as [_ Hh]. by apply String.eqb_eq.
      * rewrite IH2. split.
        -- intros H. constructor; [by rewrite Hh|done].
        -- by intros [_ H]%Forall_cons.
      * intros H. cbn. by rewrite IH3.
      * intros H. destruct (IH4 H) as (d' & H1 & H2). by exists d'.
    + cbn. split_and!; try done.
      * split; [done|]. intros [H _]%Forall_cons. rewrite Hh in H. by destruct H.
      * intros _. by exists d.
Qed.
